(** * openfda-python: the request-throttling and pagination engine

    A shallow embedding of [src/openfda_python/openfda_client.py] (the
    token-bucket limiter, [FDAClient._build_params], [FDAClient.api_search])
    and of the validation functions of [src/openfda_python/models.py],
    together with the properties the specification states about them. *)

From Stdlib Require Import ZArith QArith Qminmax Lqa Lia Ascii String.
From Stdlib Require Import DecimalString DecimalZ.
From stdpp Require Import gmap strings list.

Local Open Scope string_scope.
Local Open Scope Z_scope.

(** ** Python strings

    A [str] is modelled as a [string]; the characters are the code points
    below 256. *)

Module PyStr.

(** [s.replace(old, new)] for a one-character [old]. *)
Fixpoint replace (old : ascii) (new : string) (s : string) : string :=
  match s with
  | EmptyString => EmptyString
  | String c rest =>
      if Ascii.eqb c old then new +:+ replace old new rest
      else String c (replace old new rest)
  end.

(** Truth value of a [str]: the empty string is false. *)
Definition truthy (s : string) : bool :=
  match s with EmptyString => false | String _ _ => true end.

(** [c in s] for a character [c]. *)
Fixpoint has_char (c : ascii) (s : string) : bool :=
  match s with
  | EmptyString => false
  | String d rest => Ascii.eqb d c || has_char c rest
  end.

(** [str.isspace] on one character: the code points below 256 Python
    classifies as whitespace. *)
Definition isspace (c : ascii) : bool :=
  let n := nat_of_ascii c in
  ((9 <=? n) && (n <=? 13) || (28 <=? n) && (n <=? 32)
   || (n =? 133) || (n =? 160))%nat.

(** [prefix in s at position 0]. *)
Fixpoint starts_with (p s : string) : bool :=
  match p, s with
  | EmptyString, _ => true
  | String a p', String b s' => Ascii.eqb a b && starts_with p' s'
  | String _ _, EmptyString => false
  end.

(** [sub in s]. *)
Fixpoint contains (sub s : string) : bool :=
  starts_with sub s ||
  match s with
  | EmptyString => false
  | String _ rest => contains sub rest
  end.

(** [s.split(sep)] for a one-character separator: never the empty list. *)
Fixpoint split (sep : ascii) (s : string) : list string :=
  match s with
  | EmptyString => [EmptyString]
  | String c rest =>
      if Ascii.eqb c sep then EmptyString :: split sep rest
      else match split sep rest with
           | [] => [String c EmptyString]
           | w :: ws => String c w :: ws
           end
  end.

End PyStr.

(** ** models.py: the query object and its validation *)

(** [BaseQuery]: the five common fields and the class attribute
    [ENDPOINT_PATH]. *)
Record BaseQuery := {
  ENDPOINT_PATH : string;
  search : option string;
  sort : option string;
  count : option string;
  limit : option Z;
  skip : option Z
}.

(** [validate_limit]: [true] when no [ValueError] is raised. *)
Definition validate_limit (limit : option Z) : bool :=
  match limit with
  | Some l => negb (l <? -1) && negb (l =? 0)
  | None => true
  end.

(** [validate_skip]. *)
Definition validate_skip (skip : option Z) : bool :=
  match skip with
  | Some s => negb ((s <? 0) || (s >? 25000))
  | None => true
  end.

(** [validate_sort]: when the string has a colon, the piece after the first
    colon must be [asc] or [desc]. *)
Definition validate_sort (sort : option string) : bool :=
  match sort with
  | Some s =>
      if PyStr.has_char ":" s then
        match PyStr.split ":" s with
        | _ :: order :: _ => String.eqb order "asc" || String.eqb order "desc"
        | _ => false
        end
      else true
  | None => true
  end.

(** [BaseQuery.__post_init__]: the constructor succeeds exactly on these
    queries (the endpoint-specific hook of the subclasses is [pass]). *)
Definition post_init (q : BaseQuery) : bool :=
  validate_limit (limit q) && validate_skip (skip q) && validate_sort (sort q).

(** ** Wire parameters *)

(** A value of the parameter dict: an [int] put there by [_build_params], a
    [str], or the list [parse_qs] leaves for a repeated key. *)
Inductive pval :=
| PInt (n : Z)
| PStr (s : string)
| PList (l : list string).

Abbreviation Params := (gmap string pval).

(** Truth value of an [Optional[str]] field. *)
Definition field_truthy (f : option string) : bool :=
  match f with Some s => PyStr.truthy s | None => false end.

(** [FDAClient._build_params(query, limit, skip)]. *)
Definition _build_params (query : BaseQuery) (limit_ov skip_ov : option Z) : Params :=
  let params : Params := ∅ in
  let params :=
    match search query with
    | Some s => if PyStr.truthy s then <["search" := PStr (PyStr.replace " " "+" s)]> params else params
    | None => params
    end in
  let params :=
    match sort query with
    | Some s => if PyStr.truthy s then <["sort" := PStr (PyStr.replace " " "" s)]> params else params
    | None => params
    end in
  let params :=
    match count query with
    | Some s => if PyStr.truthy s then <["count" := PStr (PyStr.replace " " "+" s)]> params else params
    | None => params
    end in
  let effective_limit := match limit_ov with Some l => Some l | None => limit query end in
  let effective_skip := match skip_ov with Some s => Some s | None => skip query end in
  let params :=
    match effective_limit with
    | Some l => if negb (l =? 1000) then <["limit" := PInt l]> params else params
    | None => params
    end in
  let params :=
    match effective_skip with
    | Some s => if 0 <? s then <["skip" := PInt s]> params else params
    | None => params
    end in
  params.

(** ** openfda_client.py: the token-bucket limiter

    Clock readings, token counts and durations are Python floats; they are
    modelled as exact rationals, so the model does not round where the code
    does: the value of a refill, [elapsed * max_requests / time_window], may
    differ from the float the code computes in its last bits. The
    properties proved of the limiter are stated so that rounding keeps
    them, each float operation being monotone: bounds on the token count
    and on the length of a sleep, and calls that find a token with room to
    spare. [acquire] reads the clock on entry and once more after sleeping;
    both readings are inputs of the model, so the calls may happen at any
    times whatever. *)

Module RateLimiter.

Record t := {
  max_requests : Q;
  time_window : Q;
  tokens : Q;
  last_update : Q
}.

(** [RateLimiter.__init__], called when the clock reads [now]. *)
Definition init (max_requests time_window now : Q) : t :=
  {| max_requests := max_requests; time_window := time_window;
     tokens := max_requests; last_update := now |}.

(** [RateLimiter.acquire]. [now] is the clock on entry, [woke] the clock
    after [time.sleep]. The result is the limiter after the call and the
    duration slept, if any; [None] when Python raises instead of returning
    (division by zero, or a negative sleep length). *)
Definition acquire (now woke : Q) (l : t) : option (t * option Q) :=
  if Qeq_bool (time_window l) 0 then None else
  let elapsed := (now - last_update l)%Q in
  let tokens1 :=
    Qmin (max_requests l)
         (tokens l + elapsed * max_requests l / time_window l)%Q in
  if Qlt_le_dec tokens1 1 then
    if Qeq_bool (max_requests l) 0 then None else
    let sleep_time := ((1 - tokens1) * time_window l / max_requests l)%Q in
    if Qlt_le_dec sleep_time 0 then None else
    Some ({| max_requests := max_requests l; time_window := time_window l;
             tokens := (1 - 1)%Q; last_update := woke |}, Some sleep_time)
  else
    Some ({| max_requests := max_requests l; time_window := time_window l;
             tokens := (tokens1 - 1)%Q; last_update := now |}, None).

(** A sequence of calls, each with its two clock readings; the result lists
    the limiter as it is after each call returned. *)
Fixpoint acquire_all (clock : list (Q * Q)) (l : t) : option (list t) :=
  match clock with
  | [] => Some []
  | (now, woke) :: clock' =>
      match acquire now woke l with
      | Some (l', _) =>
          match acquire_all clock' l' with
          | Some ls => Some (l' :: ls)
          | None => None
          end
      | None => None
      end
  end.

(** The invariant of the data model: configuration positive, token count
    between 0 and the capacity. *)
Definition inv (cap win : Q) (l : t) : Prop :=
  (max_requests l == cap /\ time_window l == win /\
   0 <= tokens l /\ tokens l <= cap)%Q.

End RateLimiter.

(** ** openfda_client.py: records, responses and the effects of a run *)

(** A decoded JSON document. *)
#[local] Unset Elimination Schemes.
Inductive json :=
| JNull
| JBool (b : bool)
| JNum (n : Z)
| JStr (s : string)
| JArr (l : list json)
| JObj (l : list (string * json)).
#[local] Set Elimination Schemes.

(** [models.Record]. *)
Record FdaRecord := { raw_record : json }.

(** [models.QueryResult]. *)
Record QueryResult := {
  query : BaseQuery;
  total_results : Z;
  records : list FdaRecord
}.

(** What the engine reads of a successful response: [data.get('results')],
    [data['meta']['results']['total']] and [headers.get('Link')], each
    [None] when the key is missing. The body is taken as the service
    documents it, [results] a list and [total] an integer: a body whose
    [total] is [null] or no number, or whose [results] is no list, is outside
    the model (on such a body the engine raises [TypeError] where it
    compares or iterates). *)
Record Response := {
  body_results : option (list json);
  body_total : option Z;
  header_link : option string
}.

(** The transport collaborator: [session.get] followed by
    [raise_for_status]. [HTTPError] carries the message of the error body
    when [e.response.json()] decodes. *)
Inductive FetchOutcome :=
| Fetched (r : Response)
| HTTPError (message : option string)
| RequestException.

(** [remaining]: an [int], or [float('inf')] in unlimited mode. *)
Inductive Count :=
| Fin (n : Z)
| Inf.

Definition count_pos (r : Count) : bool :=
  match r with Fin n => 0 <? n | Inf => true end.

Definition count_min (r : Count) (k : Z) : Z :=
  match r with Fin n => Z.min n k | Inf => k end.

Definition count_sub (r : Count) (k : Z) : Count :=
  match r with Fin n => Fin (n - k) | Inf => Inf end.

Inductive Mode := SkipLimit | SearchAfter.

Inductive Level := INFO | WARNING | ERROR.

(** The messages of the module logger, one constructor per call site. *)
Inductive LogMsg :=
| MsgUnlimited
| MsgQuerying (endpoint : string) (params : Params) (mode : Mode)
| MsgEndByTotal
| MsgNoMoreResults (mode : Mode)
| MsgRetrieved (n : nat) (total : option Z)
| MsgPartialBatch (got : nat) (batch_size : Z)
| MsgRetrievedAll (total : Z)
| MsgSwitching
| MsgNoSort
| MsgNoLink
| MsgBadLink
| MsgApiError (message : string)
| MsgHttpError
| MsgNetworkError.

(** What a run does to the outside, in order. *)
Inductive Event :=
| Logged (lvl : Level) (msg : LogMsg)
| MinuteAcquire
| DayAcquire
| SessionGet (endpoint : string) (params : Params) (outcome : FetchOutcome).

Inductive Exn :=
| ExnHTTPError (message : option string)
| ExnRequestException
| ExnTypeError.

(** How a computation ends. [OutOfFuel] belongs to the model only: the
    loops are unrolled a bounded number of times. *)
Inductive Outcome (A : Type) :=
| Return (a : A)
| Raise (e : Exn)
| OutOfFuel.
Arguments Return {A} a.
Arguments Raise {A} e.
Arguments OutOfFuel {A}.

(** The pagination variables of [api_search]. *)
Record Pager := {
  all_results : list FdaRecord;
  current_skip : Z;
  remaining : Count;
  total_available : option Z
}.

Inductive Step (A : Type) :=
| Continue (a : A)
| Break (a : A).
Arguments Continue {A} a.
Arguments Break {A} a.

Definition dq : string := String (ascii_of_nat 34) EmptyString.

(** The literal [rel="next"]. *)
Definition rel_next : string := "rel=" +:+ dq +:+ "next" +:+ dq.

(** The longest prefix without [>], and what follows it. *)
Fixpoint span_url (s : string) : string * string :=
  match s with
  | EmptyString => (EmptyString, EmptyString)
  | String c rest =>
      if Ascii.eqb c ">" then (EmptyString, s)
      else let '(u, r) := span_url rest in (String c u, r)
  end.

Fixpoint skip_spaces (s : string) : string :=
  match s with
  | EmptyString => EmptyString
  | String c rest => if PyStr.isspace c then skip_spaces rest else s
  end.

(** The pattern [<([^>]+)>;\s*rel="next"] matched at the start of [s];
    the result is group 1. *)
Definition match_next_here (s : string) : option string :=
  match s with
  | String c rest =>
      if Ascii.eqb c "<" then
        let '(url, rest') := span_url rest in
        if PyStr.truthy url then
          match rest' with
          | String c1 (String c2 rest'') =>
              if Ascii.eqb c1 ">" && Ascii.eqb c2 ";"
                 && PyStr.starts_with rel_next (skip_spaces rest'')
              then Some url else None
          | _ => None
          end
        else None
      else None
  | EmptyString => None
  end.

(** [re.search] of that pattern: the leftmost match. *)
Fixpoint re_search_next (s : string) : option string :=
  match match_next_here s with
  | Some url => Some url
  | None =>
      match s with
      | EmptyString => None
      | String _ rest => re_search_next rest
      end
  end.

(** [{k: v[0] if len(v) == 1 else v for k, v in params.items()}]. *)
Definition single_values (m : gmap string (list string)) : Params :=
  (fun v => match v with [x] => PStr x | _ => PList v end) <$> m.

Definition BASE_URL : string := "https://api.fda.gov".

(** [query.skip or 0]. *)
Definition user_skip_of (query : BaseQuery) : Z :=
  match skip query with
  | Some s => if s =? 0 then 0 else s
  | None => 0
  end.

(** [query.limit or 1000]. *)
Definition user_limit_of (query : BaseQuery) : Z :=
  match limit query with
  | Some l => if l =? 0 then 1000 else l
  | None => 1000
  end.

Definition unlimited_mode (query : BaseQuery) : bool := user_limit_of query =? -1.

(** [remaining] before the first request. *)
Definition remaining_of (query : BaseQuery) : Count :=
  if unlimited_mode query then Inf else Fin (user_limit_of query).

(** [f"{self.BASE_URL}{query.ENDPOINT_PATH}"]. *)
Definition endpoint_of (query : BaseQuery) : string :=
  BASE_URL +:+ ENDPOINT_PATH query.

(** The pagination variables before the first request. *)
Definition initial_pager (query : BaseQuery) : Pager :=
  {| all_results := []; current_skip := user_skip_of query;
     remaining := remaining_of query; total_available := None |}.

(** ** openfda_client.py: [FDAClient.api_search]

    The client threads three things through a run: the state of the remote
    service, the caller's query object (a mutable Python object the engine
    holds a reference to) and the events performed so far. *)

Record Client (World : Type) := {
  world : World;
  caller_query : BaseQuery;
  trace : list Event
}.
Arguments world {World} c.
Arguments caller_query {World} c.
Arguments trace {World} c.

Section Engine.

Context {World : Type}.

(** [session.get(endpoint, params=params, timeout=...)] and
    [raise_for_status], on the service in a given state. *)
Variable session_get : World -> string -> Params -> FetchOutcome * World.

(** [parse_qs(urlparse(next_url).query)] of the standard library. *)
Variable next_url_params : string -> gmap string (list string).

Definition M (A : Type) : Type := Client World -> Outcome A * Client World.

Definition ret {A} (a : A) : M A := fun c => (Return a, c).

Definition bind {A B} (m : M A) (k : A -> M B) : M B := fun c =>
  match m c with
  | (Return a, c') => k a c'
  | (Raise e, c') => (Raise e, c')
  | (OutOfFuel, c') => (OutOfFuel, c')
  end.

Local Notation "x <- m ;; k" := (bind m (fun x => k))
  (at level 100, m at next level, right associativity).
Local Notation "m ;;; k" := (bind m (fun _ => k))
  (at level 100, right associativity).

Definition raise {A} (e : Exn) : M A := fun c => (Raise e, c).

Definition out_of_fuel {A} : M A := fun c => (OutOfFuel, c).

Definition emit (e : Event) : M unit := fun c =>
  (Return tt, {| world := world c; caller_query := caller_query c;
                 trace := (trace c ++ [e])%list |}).

Definition log (lvl : Level) (msg : LogMsg) : M unit := emit (Logged lvl msg).

(** An attribute read on the caller's query object. *)
Definition read_query : M BaseQuery := fun c => (Return (caller_query c), c).

(** The call [self._build_params(query, limit=..., skip=...)] on the
    caller's object. *)
Definition build_params (limit_ov skip_ov : option Z) : M Params :=
  query <- read_query ;;
  ret (_build_params query limit_ov skip_ov).

(** One page fetch: the request, then [raise_for_status]. *)
Definition fetch (endpoint : string) (params : Params) : M Response := fun c =>
  let '(o, w') := session_get (world c) endpoint params in
  let c' := {| world := w'; caller_query := caller_query c;
               trace := (trace c ++ [SessionGet endpoint params o])%list |} in
  match o with
  | Fetched r => (Return r, c')
  | HTTPError message => (Raise (ExnHTTPError message), c')
  | RequestException => (Raise ExnRequestException, c')
  end.

(** [[Record(raw_record=r) for r in data.get('results', [])]]. *)
Definition batch_of (r : Response) : list FdaRecord :=
  map Build_FdaRecord (default [] (body_results r)).

(** [data.get('meta', {}).get('results', {}).get('total', 0)]. *)
Definition total_of (r : Response) : Z := default 0 (body_total r).

Definition len (l : list FdaRecord) : Z := Z.of_nat (length l).

(** The body of the skip/limit loop from the request on, for a batch size
    already computed. *)
Definition offset_fetch (endpoint : string) (batch_size : Z) (p : Pager)
  : M (Step Pager) :=
  params <- build_params (Some batch_size) (Some (current_skip p)) ;;
  log INFO (MsgQuerying endpoint params SkipLimit) ;;;
  emit MinuteAcquire ;;;
  emit DayAcquire ;;;
  r <- fetch endpoint params ;;
  let batch_results := batch_of r in
  let total := total_of r in
  match batch_results with
  | [] =>
      log INFO (MsgNoMoreResults SkipLimit) ;;;
      ret (Break {| all_results := all_results p; current_skip := current_skip p;
                    remaining := remaining p; total_available := Some total |})
  | _ :: _ =>
      let all := (all_results p ++ batch_results)%list in
      log INFO (MsgRetrieved (length all) (Some total)) ;;;
      if len batch_results <? batch_size then
        log INFO (MsgPartialBatch (length batch_results) batch_size) ;;;
        ret (Break {| all_results := all; current_skip := current_skip p;
                      remaining := remaining p; total_available := Some total |})
      else if total <=? len all then
        log INFO (MsgRetrievedAll total) ;;;
        ret (Break {| all_results := all; current_skip := current_skip p;
                      remaining := remaining p; total_available := Some total |})
      else
        ret (Continue {| all_results := all;
                         current_skip := current_skip p + len batch_results;
                         remaining := count_sub (remaining p) (len batch_results);
                         total_available := Some total |})
  end.

(** One iteration of the skip/limit loop. *)
Definition offset_body (user_skip : Z) (endpoint : string) (p : Pager)
  : M (Step Pager) :=
  let batch_size := count_min (remaining p) 1000 in
  match total_available p with
  | Some total =>
      let remaining_in_dataset := total - (current_skip p - user_skip) in
      let batch_size := Z.min batch_size remaining_in_dataset in
      if batch_size <=? 0 then
        log INFO MsgEndByTotal ;;; ret (Break p)
      else offset_fetch endpoint batch_size p
  | None => offset_fetch endpoint batch_size p
  end.

(** [while remaining > 0 and current_skip < 25000: ...]. *)
Fixpoint offset_loop (fuel : nat) (user_skip : Z) (endpoint : string)
    (p : Pager) : M Pager :=
  if count_pos (remaining p) && (current_skip p <? 25000) then
    match fuel with
    | O => out_of_fuel
    | S fuel' =>
        s <- offset_body user_skip endpoint p ;;
        match s with
        | Continue p' => offset_loop fuel' user_skip endpoint p'
        | Break p' => ret p'
        end
    end
  else ret p.

(** [remaining > 0 and current_skip >= 25000 and
    len(all_results) < total_available]; the last comparison is ill-typed
    while [total_available] is still [None]. *)
Definition cursor_needed (p : Pager) : M bool :=
  if count_pos (remaining p) && (25000 <=? current_skip p) then
    match total_available p with
    | Some total => ret (len (all_results p) <? total)
    | None => raise ExnTypeError
    end
  else ret false.

(** [while remaining > 0: ...] of the search_after phase. *)
Fixpoint cursor_loop (fuel : nat) (endpoint : string) (params : Params)
    (p : Pager) : M Pager :=
  if count_pos (remaining p) then
    match fuel with
    | O => out_of_fuel
    | S fuel' =>
        log INFO (MsgQuerying endpoint params SearchAfter) ;;;
        emit MinuteAcquire ;;;
        emit DayAcquire ;;;
        r <- fetch endpoint params ;;
        let batch_results := batch_of r in
        match batch_results with
        | [] => log INFO (MsgNoMoreResults SearchAfter) ;;; ret p
        | _ :: _ =>
            let p1 := {| all_results := (all_results p ++ batch_results)%list;
                         current_skip := current_skip p;
                         remaining := count_sub (remaining p) (len batch_results);
                         total_available := total_available p |} in
            log INFO (MsgRetrieved (length (all_results p1)) (total_available p)) ;;;
            match total_available p with
            | None => raise ExnTypeError
            | Some total =>
                if total <=? len (all_results p1) then
                  log INFO (MsgRetrievedAll total) ;;; ret p1
                else
                  let link_header := default "" (header_link r) in
                  if negb (PyStr.contains rel_next link_header) then
                    log INFO MsgNoLink ;;; ret p1
                  else
                    match re_search_next link_header with
                    | None => log WARNING MsgBadLink ;;; ret p1
                    | Some next_url =>
                        cursor_loop fuel' endpoint
                          (single_values (next_url_params next_url)) p1
                    end
            end
        end
    end
  else ret p.

(** The two [except] clauses: log, then re-raise. A [TypeError] is not a
    [RequestException] and passes through. *)
Definition try_except {A} (m : M A) : M A := fun c =>
  match m c with
  | (Raise (ExnHTTPError message), c') =>
      match message with
      | Some msg => bind (log ERROR (MsgApiError msg)) (fun _ => raise (ExnHTTPError message)) c'
      | None => bind (log ERROR MsgHttpError) (fun _ => raise (ExnHTTPError message)) c'
      end
  | (Raise ExnRequestException, c') =>
      bind (log ERROR MsgNetworkError) (fun _ => raise ExnRequestException) c'
  | other => other
  end.

(** The search_after phase, entered when [cursor_needed]. *)
Definition cursor_phase (fuel : nat) (endpoint : string) (p : Pager) : M Pager :=
  log INFO MsgSwitching ;;;
  query <- read_query ;;
  if negb (field_truthy (sort query)) then
    log WARNING MsgNoSort ;;; ret p
  else
    params <- build_params (Some (count_min (remaining p) 1000)) None ;;
    cursor_loop fuel endpoint params p.

(** [api_search] up to the end of the skip/limit loop: the endpoint and
    the pagination variables at that point. *)
Definition offset_phase (fuel : nat) : M (string * Pager) :=
  query <- read_query ;;
  (if unlimited_mode query then log INFO MsgUnlimited else ret tt) ;;;
  let endpoint := endpoint_of query in
  p <- offset_loop fuel (user_skip_of query) endpoint (initial_pager query) ;;
  ret (endpoint, p).

(** [QueryResult(query=query, total_results=total_available or 0,
    records=all_results)]; the result holds the caller's object. *)
Definition make_result (p : Pager) : M QueryResult :=
  query <- read_query ;;
  ret {| query := query;
         total_results := match total_available p with
                          | Some t => t
                          | None => 0
                          end;
         records := all_results p |}.

(** The [try] block of [api_search]. *)
Definition api_search_body (fuel : nat) : M QueryResult :=
  ep <- offset_phase fuel ;;
  let '(endpoint, p) := ep in
  switch <- cursor_needed p ;;
  p <- (if switch then cursor_phase fuel endpoint p else ret p) ;;
  make_result p.

(** [FDAClient.api_search(query)], each loop unrolled at most [fuel]
    times. *)
Definition api_search (fuel : nat) : M QueryResult :=
  try_except (api_search_body fuel).

End Engine.

(** ** The remote service, as the properties describe it *)

Definition dec (n : Z) : string := NilEmpty.string_of_int (Z.to_int n).

Definition undec (s : string) : option Z :=
  option_map Z.of_int (NilEmpty.int_of_string s).

(** Modelled from the spec: the remote service is no part of the
    repository. The batch a request asks for is its [limit] parameter, an
    [int] when the engine built the request and a decimal string when the
    request relays a continuation link; without [limit] it is the service
    default, 1000. *)
Definition wire_limit (p : Params) : option Z :=
  match p !! "limit" with
  | None => Some 1000
  | Some (PInt n) => Some n
  | Some (PStr s) => undec s
  | Some (PList _) => None
  end.

(** Modelled from the spec: where the page of a request starts. A request
    that relays a continuation link starts at the cursor of the link, its
    [search_after] parameter; any other request starts at its [skip]
    parameter, and at the first record when it has none. *)
Definition wire_start (p : Params) : option Z :=
  match p !! "search_after" with
  | Some (PStr c) => undec c
  | Some _ => None
  | None =>
      match p !! "skip" with
      | None => Some 0
      | Some (PInt n) => Some n
      | Some (PStr s) => undec s
      | Some (PList _) => None
      end
  end.

Section Service.

Context {World : Type}.
Variable session_get : World -> string -> Params -> FetchOutcome * World.

(** The service reports [T] records in total and serves in full every
    batch that is requested from among them: a request for [n] records
    from the record number [s] on, with [s + n <= T], is answered with [n]
    records. Nothing is asked of a request that reaches beyond the [T]
    records. *)
Definition serves_in_full (T : Z) : Prop :=
  forall w e p n s,
    wire_limit p = Some n -> wire_start p = Some s ->
    0 < n -> 0 <= s -> s + n <= T ->
    exists r w' docs,
      session_get w e p = (Fetched r, w') /\
      body_total r = Some T /\
      body_results r = Some docs /\
      Z.of_nat (length docs) = n.

(** The service answers by the request alone: the same request gets the
    same answer, whatever was asked before. *)
Definition answers_by_request : Prop :=
  forall w w' e p, (session_get w e p).1 = (session_get w' e p).1.

End Service.

(** Services to run the engine against. *)
Module Mock.

Fixpoint docs (from : Z) (n : nat) : list json :=
  match n with
  | O => []
  | S n' => JNum from :: docs (from + 1) n'
  end.

Definition wire_skip (p : Params) : Z :=
  match p !! "skip" with Some (PInt n) => n | _ => 0 end.

Definition next_link (n : Z) : string :=
  "<https://api.fda.gov/next?limit=" +:+ dec n +:+ ">; rel=" +:+ dq +:+ "next" +:+ dq.

(** A service that never runs dry: it holds no state, reports [T] records,
    serves the documents [skip], [skip + 1], ... of a request in full and
    links a next page of the same size. *)
Definition service (T : Z) (w : unit) (endpoint : string) (p : Params)
  : FetchOutcome * unit :=
  match wire_limit p with
  | Some n =>
      (Fetched {| body_results := Some (docs (wire_skip p) (Z.to_nat n));
                  body_total := Some T;
                  header_link := Some (next_link n) |}, tt)
  | None => (HTTPError (Some "limit is not a number"), tt)
  end.

Fixpoint after (c : ascii) (s : string) : string :=
  match s with
  | EmptyString => EmptyString
  | String d rest => if Ascii.eqb d c then rest else after c rest
  end.

Fixpoint before (c : ascii) (s : string) : string :=
  match s with
  | EmptyString => EmptyString
  | String d rest =>
      if Ascii.eqb d c then EmptyString else String d (before c rest)
  end.

(** The [Link] header of a page that has records after it: the next page
    starts at the cursor [k]. *)
Definition cursor_link (k : Z) : string :=
  "<https://api.fda.gov/next?search_after=" +:+ dec k +:+ ">; rel=" +:+ dq
  +:+ "next" +:+ dq.

(** A service that holds the [T] documents 0, ..., [T - 1] and no state:
    it answers a request with the documents from its start on, as many as
    the request asks for and the data set has left, reports [T], and links
    the next page while records remain. *)
Definition honest (T : Z) (w : unit) (endpoint : string) (p : Params)
  : FetchOutcome * unit :=
  match wire_limit p, wire_start p with
  | Some n, Some s =>
      let k := Z.min n (Z.max 0 (T - s)) in
      (Fetched {| body_results := Some (docs s (Z.to_nat k));
                  body_total := Some T;
                  header_link := if s + k <? T then Some (cursor_link (s + k))
                                 else None |}, tt)
  | _, _ => (HTTPError (Some "bad request"), tt)
  end.

(** [parse_qs] of the query string of a URL with one [key=value] pair. *)
Definition one_pair (url : string) : gmap string (list string) :=
  let q := after "?" url in {[ before "=" q := [after "=" q] ]}.

(** A service whose every request fails at the network. *)
Definition unreachable (w : unit) (endpoint : string) (p : Params)
  : FetchOutcome * unit := (RequestException, tt).

Definition client (q : BaseQuery) : Client unit :=
  {| world := tt; caller_query := q; trace := [] |}.

(** A service that answers as [service] does for a number of requests,
    the state, and then fails with an HTTP error status. *)
Definition flaky (T : Z) (w : nat) (endpoint : string) (p : Params)
  : FetchOutcome * nat :=
  match w with
  | O => (HTTPError (Some "Service unavailable"), O)
  | S w' => ((service T tt endpoint p).1, w')
  end.

End Mock.

(** The records [l] are the documents [from], [from + 1], ... of the
    mock services, one after the other. *)
Fixpoint numbered (from : Z) (l : list FdaRecord) : bool :=
  match l with
  | [] => true
  | r :: l' =>
      match raw_record r with
      | JNum n => (n =? from) && numbered (from + 1) l'
      | _ => false
      end
  end.

(** [all whitespace stripped], in the words of the specification: every
    character [str.isspace] accepts is removed. *)
Fixpoint spec_strip_whitespace (s : string) : string :=
  match s with
  | EmptyString => EmptyString
  | String c rest =>
      if PyStr.isspace c then spec_strip_whitespace rest
      else String c (spec_strip_whitespace rest)
  end.

Definition tab : string := String (ascii_of_nat 9) EmptyString.

(** ** Reading a trace *)

(** The events that reach the outside: limiter acquisitions and requests. *)
Definition is_request (e : Event) : bool :=
  match e with
  | Logged _ _ => false
  | MinuteAcquire | DayAcquire | SessionGet _ _ _ => true
  end.

(** The requests of a trace, each with its outcome. *)
Definition fetches (evs : list Event) : list (Params * FetchOutcome) :=
  omap (fun e => match e with
                 | SessionGet _ p o => Some (p, o)
                 | _ => None
                 end) evs.

(** The pagination mode of each request announced in the log. *)
Definition modes (evs : list Event) : list Mode :=
  omap (fun e => match e with
                 | Logged _ (MsgQuerying _ _ m) => Some m
                 | _ => None
                 end) evs.

(** How often the log says that the engine switches to search_after. *)
Definition switches (evs : list Event) : nat :=
  length (List.filter (fun e => match e with
                                | Logged _ MsgSwitching => true
                                | _ => false
                                end) evs).

Definition failed (o : FetchOutcome) : bool :=
  match o with Fetched _ => false | _ => true end.

(** The exception a failed request raises. *)
Definition exn_of (o : FetchOutcome) : Exn :=
  match o with
  | HTTPError message => ExnHTTPError message
  | _ => ExnRequestException
  end.

(** The line the [except] clause of a failed request logs. *)
Definition error_log (o : FetchOutcome) : Event :=
  match o with
  | HTTPError (Some msg) => Logged ERROR (MsgApiError msg)
  | HTTPError None => Logged ERROR MsgHttpError
  | _ => Logged ERROR MsgNetworkError
  end.

(** The number of documents of a page. *)
Definition page_size (o : FetchOutcome) : Z :=
  match o with
  | Fetched r => Z.of_nat (length (default [] (body_results r)))
  | _ => 0
  end.

(** A request that did not fail, or an event that is no request. *)
Definition ok_event (e : Event) : bool :=
  match e with
  | SessionGet _ _ o => negb (failed o)
  | _ => true
  end.

(** The records of the pages a trace was served, in order. *)
Definition served (evs : list Event) : list FdaRecord :=
  concat (omap (fun e => match e with
                         | SessionGet _ _ (Fetched r) => Some (batch_of r)
                         | _ => None
                         end) evs).

(** ** Sequences of limiter calls with their sleeps *)

(** As [RateLimiter.acquire_all], keeping what each call slept and the
    limiter after the last call. *)
Fixpoint acquire_sleeps (clock : list (Q * Q)) (l : RateLimiter.t)
  : option (list (option Q) * RateLimiter.t) :=
  match clock with
  | [] => Some ([], l)
  | (now, woke) :: clock' =>
      match RateLimiter.acquire now woke l with
      | Some (l', slept) =>
          match acquire_sleeps clock' l' with
          | Some (ss, lf) => Some (slept :: ss, lf)
          | None => None
          end
      | None => None
      end
  end.

(** ** openfda_client.py: the daily quota limiter

    [_calculate_next_midnight] reads the wall clock and the time zone of
    the host; what it returns is an input of the model at each of the
    places that call it. *)

Module DailyQuotaLimiter.

Record t := {
  max_requests : Z;
  requests_made : Z;
  reset_time : Q
}.

(** [DailyQuotaLimiter.__init__]; [next_midnight] is what
    [_calculate_next_midnight] returns. *)
Definition init (max_requests_per_day : Z) (next_midnight : Q) : t :=
  {| max_requests := max_requests_per_day; requests_made := 0;
     reset_time := next_midnight |}.

(** [DailyQuotaLimiter.acquire]. [now] is [time.time()]; [midnight_reset]
    and [midnight_woke] are the next midnights computed when the counter is
    reset on entry and after the sleep. The result is the limiter after the
    call and the duration slept, if any; [None] when [time.sleep] raises on
    a negative length. *)
Definition acquire (now midnight_reset midnight_woke : Q) (l : t)
  : option (t * option Q) :=
  let l1 :=
    if Qle_bool (reset_time l) now then
      {| max_requests := max_requests l; requests_made := 0;
         reset_time := midnight_reset |}
    else l in
  if max_requests l1 <=? requests_made l1 then
    let sleep_time := (reset_time l1 - now)%Q in
    if Qlt_le_dec sleep_time 0 then None else
    Some ({| max_requests := max_requests l1; requests_made := 0 + 1;
             reset_time := midnight_woke |}, Some sleep_time)
  else
    Some ({| max_requests := max_requests l1;
             requests_made := requests_made l1 + 1;
             reset_time := reset_time l1 |}, None).

(** A sequence of calls, each with its clock reading and its two
    midnights: what each call slept and the limiter after each. *)
Fixpoint acquire_all (calls : list (Q * Q * Q)) (l : t)
  : option (list (option Q * t)) :=
  match calls with
  | [] => Some []
  | (now, m1, m2) :: calls' =>
      match acquire now m1 m2 l with
      | Some (l', slept) =>
          match acquire_all calls' l' with
          | Some rest => Some ((slept, l') :: rest)
          | None => None
          end
      | None => None
      end
  end.

End DailyQuotaLimiter.

(** ** Orders of events *)

(** The limiters and the requests in their order: whenever the engine
    acquires the minute limiter, it acquires the day limiter next and sends
    a request next, and it sends no request otherwise. The state counts
    the acquisitions that wait for their request. *)
Fixpoint limiter_order (st : nat) (evs : list Event) : bool :=
  match evs with
  | [] => Nat.eqb st 0
  | Logged _ _ :: rest => Nat.eqb st 0 && limiter_order 0 rest
  | MinuteAcquire :: rest => Nat.eqb st 0 && limiter_order 1 rest
  | DayAcquire :: rest => Nat.eqb st 1 && limiter_order 2 rest
  | SessionGet _ _ _ :: rest => Nat.eqb st 2 && limiter_order 0 rest
  end.

(** A request announced in skip/limit mode was built from the query [q]
    for a batch of 1 to 1000 records at an offset below 25000. *)
Definition page_request_ok (q : BaseQuery) (e : Event) : Prop :=
  match e with
  | Logged _ (MsgQuerying _ params SkipLimit) =>
      exists b s, params = _build_params q (Some b) (Some s) /\
                  1 <= b <= 1000 /\ s < 25000
  | _ => True
  end.

(** Every request announced in skip/limit mode was built from the query
    [q] at the offset [query.skip or 0] plus the number of records the
    requests before it were served; [got] counts those records. *)
Fixpoint offsets_ok (q : BaseQuery) (got : Z) (evs : list Event) : Prop :=
  match evs with
  | [] => True
  | Logged _ (MsgQuerying _ params SkipLimit) :: rest =>
      (exists b, params = _build_params q (Some b) (Some (user_skip_of q + got))) /\
      offsets_ok q got rest
  | SessionGet _ _ (Fetched r) :: rest => offsets_ok q (got + len (batch_of r)) rest
  | _ :: rest => offsets_ok q got rest
  end.

(** The total a trace leaves behind: the log line before a request tells
    its mode, and the total is that of the last page fetched in skip/limit
    mode, if any. *)
Definition scan_step (st : Mode * option Z) (e : Event) : Mode * option Z :=
  match e with
  | Logged _ (MsgQuerying _ _ m) => (m, st.2)
  | SessionGet _ _ (Fetched r) =>
      match st.1 with
      | SkipLimit => (SkipLimit, Some (total_of r))
      | SearchAfter => st
      end
  | _ => st
  end.

Definition scan_total (st : Mode * option Z) (evs : list Event) : Mode * option Z :=
  fold_left scan_step evs st.

(** * Properties *)

(** ** Runs of the definitions on small inputs *)

Example build_params_example :
  _build_params {| ENDPOINT_PATH := "/drug/ndc.json"; search := Some "a b";
                   sort := Some "d : asc"; count := None;
                   limit := Some 1000; skip := Some 7 |} (Some 500) None
  = <["skip" := PInt 7]> (<["limit" := PInt 500]> (<["sort" := PStr "d:asc"]>
      (<["search" := PStr "a+b"]> ∅))).
Proof. reflexivity. Qed.

Example validate_sort_example :
  validate_sort (Some "receivedate:asc") = true /\
  validate_sort (Some "receivedate:up") = false /\
  validate_sort (Some "receivedate") = true.
Proof. repeat split; reflexivity. Qed.

Example acquire_burst :
  option_map (map RateLimiter.tokens)
    (RateLimiter.acquire_all [(0, 0); (0, 0); (0, 30); (45, 45)]%Q
       (RateLimiter.init 2 60 0))
  = Some [1; 0 # 60; 0; 0]%Q.
Proof. vm_compute. reflexivity. Qed.

(** ** The parameter builder *)

(** The keys [_build_params] sets are pairwise distinct, so each lookup
    sees the one insertion of its own key. *)
Ltac build_params_cases :=
  unfold _build_params;
  repeat match goal with
         | |- context [match ?x with _ => _ end] =>
             lazymatch x with
             | context [match _ with _ => _ end] => fail
             | _ => destruct x eqn:?
             end
         end;
  simplify_map_eq; try done.

(** C1, as amended: without a skip override the builder falls back to the
    skip of the query, so the map has a [skip] key exactly when the query's
    skip is set and positive, and then it carries that value. *)
Theorem build_params_skip_fallback (q : BaseQuery) (limit_ov : option Z) :
  _build_params q limit_ov None !! "skip" =
  match skip q with
  | Some s => if 0 <? s then Some (PInt s) else None
  | None => None
  end.
Proof. build_params_cases. Qed.

(** C1 as stated fails: a query with skip 5 keeps its [skip] key when the
    override is [None]. *)
Lemma build_params_none_override_keeps_skip :
  let q := {| ENDPOINT_PATH := "/drug/ndc.json"; search := None; sort := None;
              count := None; limit := Some 1000; skip := Some 5 |} in
  _build_params q (Some 1000) None !! "skip" = Some (PInt 5) /\
  ~ (_build_params q (Some 1000) None !! "skip" = None).
Proof. split; [reflexivity | discriminate]. Qed.

Lemma replace_drops_char (c : ascii) (s : string) :
  PyStr.has_char c (PyStr.replace c "" s) = false.
Proof.
  induction s as [|d s IH]; simpl; [reflexivity|].
  destruct (Ascii.eqb d c) eqn:E; simpl; [exact IH|].
  rewrite E. exact IH.
Qed.

Lemma replace_is_filter (c : ascii) (s : string) :
  list_ascii_of_string (PyStr.replace c "" s) =
  List.filter (fun d => negb (Ascii.eqb d c)) (list_ascii_of_string s).
Proof.
  induction s as [|d s IH]; [reflexivity|].
  cbn [PyStr.replace list_ascii_of_string List.filter].
  destruct (Ascii.eqb d c); cbn [negb].
  - change ("" +:+ PyStr.replace c "" s) with (PyStr.replace c "" s). exact IH.
  - cbn [list_ascii_of_string]. by rewrite IH.
Qed.

Lemma replace_keeps_others (c d : ascii) (s : string) :
  d <> c -> PyStr.has_char d (PyStr.replace c "" s) = PyStr.has_char d s.
Proof.
  intros Hd. induction s as [|a s IH]; [reflexivity|].
  cbn [PyStr.replace PyStr.has_char].
  destruct (Ascii.eqb a c) eqn:E.
  - apply Ascii.eqb_eq in E as ->.
    change ("" +:+ PyStr.replace c "" s) with (PyStr.replace c "" s). rewrite IH.
    destruct (Ascii.eqb c d) eqn:E'; [|reflexivity].
    apply Ascii.eqb_eq in E'. congruence.
  - cbn [PyStr.has_char]. by rewrite IH.
Qed.

(** C7, as amended: the [sort] parameter of a query whose sort is the
    string [s]. When [s] is not empty the map carries under [sort] the
    string [s] with every space character (code 32) removed: the value has
    no space left, and it is [s] with the spaces filtered out, so every
    other character -- a tab and any other whitespace included -- is kept,
    in its place. When [s] is empty the map has no [sort] key. *)
Theorem build_params_sort_spaces_removed (q : BaseQuery) (s : string)
    (limit_ov skip_ov : option Z) :
  sort q = Some s ->
  (s <> "" ->
   _build_params q limit_ov skip_ov !! "sort" = Some (PStr (PyStr.replace " " "" s))) /\
  (s = "" -> _build_params q limit_ov skip_ov !! "sort" = None) /\
  PyStr.has_char " " (PyStr.replace " " "" s) = false /\
  list_ascii_of_string (PyStr.replace " " "" s) =
    List.filter (fun c => negb (Ascii.eqb c " ")) (list_ascii_of_string s) /\
  (forall c, c <> " "%char ->
     PyStr.has_char c (PyStr.replace " " "" s) = PyStr.has_char c s).
Proof.
  intros Hs.
  assert (Hsort : _build_params q limit_ov skip_ov !! "sort" =
                  if PyStr.truthy s then Some (PStr (PyStr.replace " " "" s)) else None).
  { unfold _build_params. rewrite Hs.
    repeat match goal with
           | |- context [match ?x with _ => _ end] =>
               lazymatch x with
               | context [match _ with _ => _ end] => fail
               | _ => destruct x eqn:?
               end
           end;
    simplify_map_eq; done. }
  split_and!.
  - intros Hne. rewrite Hsort. by destruct s.
  - intros ->. by rewrite Hsort.
  - apply replace_drops_char.
  - apply replace_is_filter.
  - intros c Hc. by apply replace_keeps_others.
Qed.

Lemma build_params_sort_spaces_removed_witness :
  let s := "receive date" +:+ tab +:+ ":asc" in
  let q := {| ENDPOINT_PATH := "/drug/event.json"; search := None;
              sort := Some s; count := None; limit := None; skip := None |} in
  post_init q = true /\
  _build_params q None None !! "sort" = Some (PStr ("receivedate" +:+ tab +:+ ":asc")) /\
  PyStr.has_char " " (PyStr.replace " " "" s) = false /\
  PyStr.has_char (ascii_of_nat 9) (PyStr.replace " " "" s) = true.
Proof.
  intros s q.
  destruct (build_params_sort_spaces_removed q s None None eq_refl)
    as (Hset & _ & Hnone & _ & Hkeep).
  split_and!.
  - reflexivity.
  - rewrite Hset by discriminate. reflexivity.
  - exact Hnone.
  - rewrite Hkeep by discriminate. reflexivity.
Defined.

(** C7 as stated fails: a tab in the sort string is whitespace and is
    still there in the [sort] parameter. *)
Lemma build_params_sort_keeps_tab :
  let s := "receive" +:+ tab +:+ "date:asc" in
  let q := {| ENDPOINT_PATH := "/drug/event.json"; search := None;
              sort := Some s; count := None; limit := None; skip := None |} in
  validate_sort (sort q) = true /\
  _build_params q None None !! "sort" = Some (PStr s) /\
  ~ (_build_params q None None !! "sort" = Some (PStr (spec_strip_whitespace s))) /\
  PyStr.has_char (ascii_of_nat 9) s = true /\
  PyStr.isspace (ascii_of_nat 9) = true.
Proof. repeat split; try reflexivity. discriminate. Qed.

Lemma build_params_limit (q : BaseQuery) (b : Z) (skip_ov : option Z) :
  _build_params q (Some b) skip_ov !! "limit" =
  if b =? 1000 then None else Some (PInt b).
Proof. build_params_cases. Qed.

(** The service reads from the engine's request the batch size the engine
    computed. *)
Lemma wire_limit_build (q : BaseQuery) (b : Z) (skip_ov : option Z) :
  wire_limit (_build_params q (Some b) skip_ov) = Some b.
Proof.
  unfold wire_limit. rewrite build_params_limit.
  destruct (b =? 1000) eqn:E; [|reflexivity]. f_equal. lia.
Qed.

(** The service starts the page of an engine request at the offset the
    engine computed. *)
Lemma wire_start_build (q : BaseQuery) (limit_ov : option Z) (s : Z) :
  0 <= s -> wire_start (_build_params q limit_ov (Some s)) = Some s.
Proof.
  intros Hs.
  assert (Hafter : _build_params q limit_ov (Some s) !! "search_after" = None)
    by build_params_cases.
  assert (Hskip : _build_params q limit_ov (Some s) !! "skip" =
                  if 0 <? s then Some (PInt s) else None)
    by build_params_cases.
  unfold wire_start. rewrite Hafter, Hskip.
  destruct (0 <? s) eqn:E; [reflexivity|]. f_equal. lia.
Qed.

(** ** The token bucket *)

Lemma acquire_keeps_inv (cap win now woke : Q) (l : RateLimiter.t) :
  (0 < cap)%Q -> (0 < win)%Q -> RateLimiter.inv cap win l ->
  exists l' slept,
    RateLimiter.acquire now woke l = Some (l', slept) /\
    RateLimiter.inv cap win l'.
Proof.
  intros Hcap Hwin (Hc & Hw & H0 & H1).
  unfold RateLimiter.acquire.
  assert (Ew : Qeq_bool (RateLimiter.time_window l) 0 = false).
  { apply not_true_is_false. intros E. apply Qeq_bool_eq in E. lra. }
  assert (Ec : Qeq_bool (RateLimiter.max_requests l) 0 = false).
  { apply not_true_is_false. intros E. apply Qeq_bool_eq in E. lra. }
  rewrite Ew.
  set (tokens1 := Qmin _ _).
  assert (Hle : (tokens1 <= cap)%Q).
  { unfold tokens1. rewrite <- Hc. apply Q.le_min_l. }
  destruct (Qlt_le_dec tokens1 1) as [Hlt | Hge].
  - rewrite Ec.
    set (sleep_time := (_ / _)%Q).
    assert (Hs : (0 < sleep_time)%Q).
    { unfold sleep_time, Qdiv.
      apply Qmult_lt_0_compat; [apply Qmult_lt_0_compat|apply Qinv_lt_0_compat]; lra. }
    destruct (Qlt_le_dec sleep_time 0) as [Hneg | _]; [lra|].
    eexists _, _. split; [reflexivity|].
    unfold RateLimiter.inv; simpl. repeat split; try assumption; lra.
  - eexists _, _. split; [reflexivity|].
    unfold RateLimiter.inv; simpl. repeat split; try assumption; lra.
Qed.

Lemma acquire_all_keeps_inv (cap win : Q) (clock : list (Q * Q)) :
  (0 < cap)%Q -> (0 < win)%Q ->
  forall l, RateLimiter.inv cap win l ->
  exists ls,
    RateLimiter.acquire_all clock l = Some ls /\
    length ls = length clock /\
    Forall (RateLimiter.inv cap win) ls.
Proof.
  intros Hcap Hwin. induction clock as [|[now woke] clock IH]; intros l Hl.
  - exists []. simpl. auto.
  - destruct (acquire_keeps_inv cap win now woke l Hcap Hwin Hl) as (l' & sl & E & Hl').
    destruct (IH l' Hl') as (ls & Els & Hlen & Hall).
    exists (l' :: ls). simpl. rewrite E, Els. simpl. auto.
Qed.

(** C2: a limiter made with positive capacity and window returns from
    every one of a sequence of [acquire] calls, whatever the clock reads at
    each, and after each call its token count is between 0 and the
    capacity. *)
Theorem acquire_tokens_within_capacity (cap win t0 : Q) (clock : list (Q * Q)) :
  (0 < cap)%Q -> (0 < win)%Q ->
  exists ls,
    RateLimiter.acquire_all clock (RateLimiter.init cap win t0) = Some ls /\
    length ls = length clock /\
    Forall (fun l => (0 <= RateLimiter.tokens l /\ RateLimiter.tokens l <= cap)%Q) ls.
Proof.
  intros Hcap Hwin.
  destruct (acquire_all_keeps_inv cap win clock Hcap Hwin (RateLimiter.init cap win t0))
    as (ls & E & Hlen & Hall).
  { unfold RateLimiter.inv, RateLimiter.init; simpl. repeat split; lra. }
  exists ls. repeat split; try assumption.
  eapply Forall_impl; [exact Hall|]. intros l (_ & _ & H0 & H1). split; assumption.
Qed.

Lemma acquire_tokens_within_capacity_witness :
  exists ls,
    RateLimiter.acquire_all [(0, 0); (0, 0); (0, 30); (45, 45)]%Q
      (RateLimiter.init 2 60 0) = Some ls /\
    length ls = 4%nat /\
    Forall (fun l => (0 <= RateLimiter.tokens l /\ RateLimiter.tokens l <= 2)%Q) ls.
Proof.
  apply (acquire_tokens_within_capacity 2 60 0 [(0, 0); (0, 0); (0, 30); (45, 45)]%Q);
    reflexivity.
Defined.

(** ** The pagination engine *)

Section EngineFacts.

Context {World : Type}.
Variable session_get : World -> string -> Params -> FetchOutcome * World.
Variable next_url_params : string -> gmap string (list string).

Local Abbreviation api_search := (api_search session_get next_url_params).
Local Abbreviation api_search_body := (api_search_body session_get next_url_params).
Local Abbreviation offset_phase := (offset_phase session_get).
Local Abbreviation offset_loop := (offset_loop session_get).
Local Abbreviation offset_body := (offset_body session_get).
Local Abbreviation offset_fetch := (offset_fetch session_get).
Local Abbreviation cursor_loop := (cursor_loop session_get next_url_params).
Local Abbreviation cursor_phase := (cursor_phase session_get next_url_params).
Local Abbreviation fetch := (fetch session_get).

(** The client after some more events. *)
Definition extend (c : Client World) (evs : list Event) : Client World :=
  {| world := world c; caller_query := caller_query c;
     trace := (trace c ++ evs)%list |}.

Lemma extend_nil (c : Client World) : extend c [] = c.
Proof. destruct c. unfold extend. simpl. by rewrite app_nil_r. Qed.

Lemma offset_loop_done (fuel : nat) (us : Z) (ep : string) (p : Pager)
    (c : Client World) :
  count_pos (remaining p) && (current_skip p <? 25000) = false ->
  offset_loop fuel us ep p c = (Return p, c).
Proof. intros H. destruct fuel; simpl; rewrite H; reflexivity. Qed.

Lemma valid_limit_remaining (q : BaseQuery) :
  validate_limit (limit q) = true -> count_pos (remaining_of q) = true.
Proof.
  unfold validate_limit, remaining_of, unlimited_mode, user_limit_of.
  destruct (limit q) as [l|]; [|reflexivity].
  intros H. apply andb_prop in H as [H1 H2].
  destruct (l =? 0) eqn:E0; [discriminate|].
  destruct (l =? -1) eqn:E1; [reflexivity|]. simpl. lia.
Qed.

(** C10: for a query whose skip is exactly 25000 and whose limit passes the
    constructor's validation, [api_search] raises [TypeError]; nothing was
    requested and no limiter was asked: the skip/limit loop is not entered,
    [total_available] is still [None] and the guard of the search_after
    phase compares with it. *)
Theorem api_search_skip_25000_type_error (fuel : nat) (c : Client World) :
  skip (caller_query c) = Some 25000 ->
  validate_limit (limit (caller_query c)) = true ->
  exists evs,
    api_search fuel c = (Raise ExnTypeError, extend c evs) /\
    evs = (if unlimited_mode (caller_query c) then [Logged INFO MsgUnlimited] else []) /\
    forallb (fun e => negb (is_request e)) evs = true /\
    offset_phase fuel c
      = (Return (endpoint_of (caller_query c), initial_pager (caller_query c)),
         extend c evs) /\
    total_available (initial_pager (caller_query c)) = None.
Proof.
  intros Hskip Hlim.
  pose proof (valid_limit_remaining _ Hlim) as Hrem.
  assert (Hus : user_skip_of (caller_query c) = 25000).
  { unfold user_skip_of. rewrite Hskip. reflexivity. }
  exists (if unlimited_mode (caller_query c) then [Logged INFO MsgUnlimited] else []).
  assert (Hphase : offset_phase fuel c
      = (Return (endpoint_of (caller_query c), initial_pager (caller_query c)),
         extend c (if unlimited_mode (caller_query c)
                   then [Logged INFO MsgUnlimited] else []))).
  { unfold offset_phase, bind, read_query, log, emit, ret.
    destruct (unlimited_mode (caller_query c)) eqn:Eu; simpl.
    - rewrite offset_loop_done; [reflexivity|].
      simpl. rewrite Hus. apply andb_false_r.
    - rewrite offset_loop_done; [by rewrite extend_nil|].
      simpl. rewrite Hus. apply andb_false_r. }
  split; [|split; [reflexivity|split; [|split; [exact Hphase|reflexivity]]]].
  - unfold api_search, try_except, api_search_body, bind. rewrite Hphase.
    unfold cursor_needed. simpl. rewrite Hus, Hrem. reflexivity.
  - destruct (unlimited_mode (caller_query c)); reflexivity.
Qed.


(** *** What every computation of the engine does to the client

    A computation leaves the caller's query object alone and only appends
    to the trace; and either no request failed, or the one that failed is
    the last event and its exception is the outcome. *)

Definition fail_fast {A} (o : Outcome A) (evs : list Event) : Prop :=
  forallb ok_event evs = true \/
  exists pre e p out,
    evs = (pre ++ [SessionGet e p out])%list /\
    forallb ok_event pre = true /\
    failed out = true /\
    o = Raise (exn_of out).

Definition sound {A} (m : @M World A) : Prop :=
  forall c, exists evs,
    caller_query (m c).2 = caller_query c /\
    trace (m c).2 = (trace c ++ evs)%list /\
    fail_fast (m c).1 evs.

Lemma sound_ret {A} (a : A) : sound (ret a).
Proof. intros c. exists []. simpl. rewrite app_nil_r. repeat split. by left. Qed.

Lemma sound_raise {A} (e : Exn) : sound (raise (A:=A) e).
Proof. intros c. exists []. simpl. rewrite app_nil_r. repeat split. by left. Qed.

Lemma sound_out_of_fuel {A} : sound (out_of_fuel (A:=A)).
Proof. intros c. exists []. simpl. rewrite app_nil_r. repeat split. by left. Qed.

Lemma sound_read_query : sound read_query.
Proof. intros c. exists []. simpl. rewrite app_nil_r. repeat split. by left. Qed.

Lemma sound_emit (e : Event) : ok_event e = true -> sound (emit e).
Proof.
  intros He c. exists [e]. simpl. repeat split. left. simpl. by rewrite He.
Qed.

Lemma sound_log (lvl : Level) (msg : LogMsg) : sound (log lvl msg).
Proof. by apply sound_emit. Qed.

Lemma sound_fetch (ep : string) (params : Params) : sound (fetch ep params).
Proof.
  intros c. unfold fetch.
  destruct (session_get (world c) ep params) as [o w'] eqn:E.
  exists [SessionGet ep params o].
  destruct o as [r|message|]; simpl; repeat split.
  - by left.
  - right. exists [], ep, params, (HTTPError message). by repeat split.
  - right. exists [], ep, params, RequestException. by repeat split.
Qed.

Lemma sound_bind {A B} (m : @M World A) (k : A -> @M World B) :
  sound m -> (forall a, sound (k a)) -> sound (bind m k).
Proof.
  intros Hm Hk c. unfold bind.
  destruct (Hm c) as (evs1 & Hq1 & Ht1 & Hf1).
  destruct (m c) as [[a|e|] c1] eqn:E; simpl in *.
  - destruct (Hk a c1) as (evs2 & Hq2 & Ht2 & Hf2).
    exists (evs1 ++ evs2)%list.
    rewrite Hq2, Hq1, Ht2, Ht1, app_assoc. repeat split.
    destruct Hf1 as [Hok1 | (pre & e & p & out & _ & _ & _ & Habs)]; [|discriminate].
    destruct Hf2 as [Hok2 | (pre & e & p & out & -> & Hpre & Hout & Ho)].
    + left. by rewrite forallb_app, Hok1, Hok2.
    + right. exists (evs1 ++ pre)%list, e, p, out.
      rewrite app_assoc, forallb_app, Hok1, Hpre. by repeat split.
  - exists evs1. repeat split; try assumption.
    destruct Hf1 as [Hok1 | (pre & e' & p & out & -> & Hpre & Hout & Ho)].
    + by left.
    + right. exists pre, e', p, out. repeat split; try assumption.
      by injection Ho as ->.
  - exists evs1. repeat split; try assumption.
    destruct Hf1 as [Hok1 | (pre & e' & p & out & _ & _ & _ & Habs)]; [by left|discriminate].
Qed.

Ltac sound_step :=
  first
    [ apply sound_ret | apply sound_raise | apply sound_out_of_fuel
    | apply sound_read_query | apply sound_log | apply sound_fetch
    | apply sound_emit; reflexivity
    | apply sound_bind; [|intros ?] ].

Ltac sound_auto :=
  repeat first
    [ sound_step
    | match goal with
      | |- sound (match ?x with _ => _ end) => destruct x
      | |- sound (if ?x then _ else _) => destruct x
      | |- sound (let _ := _ in _) => cbv zeta
      end ].

Lemma sound_build_params (l k : option Z) : sound (build_params l k).
Proof. unfold build_params. sound_auto. Qed.

Lemma sound_offset_fetch (ep : string) (b : Z) (p : Pager) :
  sound (offset_fetch ep b p).
Proof.
  unfold offset_fetch.
  apply sound_bind; [apply sound_build_params|intros params].
  sound_auto.
Qed.

Lemma sound_offset_body (us : Z) (ep : string) (p : Pager) :
  sound (offset_body us ep p).
Proof.
  unfold offset_body. cbv zeta.
  destruct (total_available p); [destruct (_ <=? 0)|];
    try apply sound_offset_fetch. sound_auto.
Qed.

Lemma sound_offset_loop (fuel : nat) (us : Z) (ep : string) (p : Pager) :
  sound (offset_loop fuel us ep p).
Proof.
  revert p. induction fuel as [|fuel IH]; intros p; simpl;
    destruct (count_pos (remaining p) && (current_skip p <? 25000));
    [sound_step|sound_step| |sound_step].
  apply sound_bind; [apply sound_offset_body|intros [p'|p']];
    [apply IH | sound_step].
Qed.

Lemma sound_cursor_needed (p : Pager) : sound (cursor_needed p).
Proof. unfold cursor_needed. sound_auto. Qed.

Lemma sound_cursor_loop (fuel : nat) (ep : string) (params : Params) (p : Pager) :
  sound (cursor_loop fuel ep params p).
Proof.
  revert params p. induction fuel as [|fuel IH]; intros params p; simpl;
    destruct (count_pos (remaining p)); [sound_step|sound_step| |sound_step].
  do 3 (apply sound_bind; [sound_step|intros _]).
  apply sound_bind; [sound_step|intros r].
  destruct (batch_of r); [sound_auto|].
  cbv zeta. sound_step; [sound_step|].
  destruct (total_available p); [|sound_step].
  destruct (_ <=? _); [sound_auto|].
  destruct (negb _); [sound_auto|].
  destruct (re_search_next _); [apply IH | sound_auto].
Qed.

Lemma sound_cursor_phase (fuel : nat) (ep : string) (p : Pager) :
  sound (cursor_phase fuel ep p).
Proof.
  unfold cursor_phase.
  apply sound_bind; [sound_step|intros _].
  apply sound_bind; [sound_step|intros query].
  destruct (negb _); [sound_auto|].
  apply sound_bind; [apply sound_build_params|intros params].
  apply sound_cursor_loop.
Qed.

Lemma sound_offset_phase (fuel : nat) : sound (offset_phase fuel).
Proof.
  unfold offset_phase.
  apply sound_bind; [sound_step|intros query].
  apply sound_bind; [destruct (unlimited_mode query); sound_step|intros _].
  cbv zeta. apply sound_bind; [apply sound_offset_loop|intros p; sound_step].
Qed.

Lemma sound_make_result (p : Pager) : sound (make_result p).
Proof. unfold make_result. sound_auto. Qed.


Lemma sound_api_search_body (fuel : nat) : sound (api_search_body fuel).
Proof.
  unfold api_search_body.
  apply sound_bind; [apply sound_offset_phase|intros [endpoint p]].
  apply sound_bind; [apply sound_cursor_needed|intros switch].
  apply sound_bind; [|intros p'; apply sound_make_result].
  destruct switch; [apply sound_cursor_phase|sound_step].
Qed.

(** The whole of [api_search]: as its body, and a failed request is
    followed by the line of its [except] clause and nothing else. *)
Lemma api_search_trace (fuel : nat) (c : Client World) :
  exists evs,
    caller_query (api_search fuel c).2 = caller_query c /\
    trace (api_search fuel c).2 = (trace c ++ evs)%list /\
    (forallb ok_event evs = true \/
     exists pre e p out,
       evs = (pre ++ [SessionGet e p out; error_log out])%list /\
       forallb ok_event pre = true /\
       failed out = true /\
       (api_search fuel c).1 = Raise (exn_of out)).
Proof.
  destruct (sound_api_search_body fuel c) as (evs & Hq & Ht & Hf).
  unfold api_search, try_except.
  destruct (api_search_body fuel c) as [o c1] eqn:E. simpl in Hq, Ht, Hf.
  destruct Hf as [Hok | (pre & e & p & out & -> & Hpre & Hout & ->)].
  - destruct o as [qr|[message| |]|]; simpl;
      try (exists evs; repeat split; try assumption; by left).
    + destruct message as [msg|]; simpl.
      * exists (evs ++ [Logged ERROR (MsgApiError msg)])%list.
        rewrite Ht, app_assoc. repeat split; try assumption.
        left. by rewrite forallb_app, Hok.
      * exists (evs ++ [Logged ERROR MsgHttpError])%list.
        rewrite Ht, app_assoc. repeat split; try assumption.
        left. by rewrite forallb_app, Hok.
    + exists (evs ++ [Logged ERROR MsgNetworkError])%list.
      rewrite Ht, app_assoc. repeat split; try assumption.
      left. by rewrite forallb_app, Hok.
  - exists (pre ++ [SessionGet e p out; error_log out])%list.
    destruct out as [r|[msg|]|]; try discriminate; simpl;
      rewrite Ht, <- !app_assoc; (repeat split; try assumption); right.
    + by exists pre, e, p, (HTTPError (Some msg)).
    + by exists pre, e, p, (HTTPError None).
    + by exists pre, e, p, RequestException.
Qed.

(** The first failed request of a list is where it is. *)
Lemma failed_request_position (pre0 pre post rest : list Event) (g g0 : Event) :
  forallb ok_event pre0 = true -> forallb ok_event rest = true ->
  ok_event g = false ->
  (pre ++ g :: post)%list = (pre0 ++ g0 :: rest)%list ->
  pre = pre0 /\ g = g0 /\ post = rest.
Proof.
  intros Hpre0 Hrest Hg. revert pre.
  induction pre0 as [|x pre0 IH]; intros pre E.
  - destruct pre as [|y pre]; simpl in E.
    + injection E as -> ->. by repeat split.
    + injection E as -> E. subst rest.
      rewrite forallb_app in Hrest. simpl in Hrest. rewrite Hg in Hrest.
      rewrite andb_false_r in Hrest. discriminate.
  - simpl in Hpre0. apply andb_prop in Hpre0 as [Hx Hpre0].
    destruct pre as [|y pre]; simpl in E.
    + injection E as -> E. congruence.
    + injection E as -> E. destruct (IH Hpre0 pre E) as (-> & -> & ->).
      by repeat split.
Qed.

(** C6: when a page request of a run fails, at the network or with an
    HTTP error status, [api_search] ends by raising that very exception: no
    [QueryResult] is returned, and after the failed request the run does
    nothing but log the error -- no limiter is asked and no request is sent
    again. *)
Theorem api_search_fails_fast (fuel : nat) (c : Client World)
    (pre post : list Event) (e : string) (p : Params) (out : FetchOutcome) :
  trace (api_search fuel c).2 = (trace c ++ pre ++ SessionGet e p out :: post)%list ->
  failed out = true ->
  (api_search fuel c).1 = Raise (exn_of out) /\
  post = [error_log out] /\
  forallb ok_event pre = true.
Proof.
  intros Ht Hout.
  destruct (api_search_trace fuel c) as (evs & _ & Ht' & Hf).
  rewrite Ht' in Ht. apply app_inv_head in Ht. subst evs.
  destruct Hf as [Hok | (pre0 & e0 & p0 & out0 & E & Hpre0 & Hout0 & Ho)].
  - rewrite forallb_app in Hok. simpl in Hok. rewrite Hout in Hok. simpl in Hok.
    rewrite andb_false_r in Hok. discriminate.
  - change (pre0 ++ [SessionGet e0 p0 out0; error_log out0])%list
      with (pre0 ++ SessionGet e0 p0 out0 :: [error_log out0])%list in E.
    apply failed_request_position in E as (-> & Eg & ->); try assumption.
    + injection Eg as -> -> ->. by repeat split.
    + by destruct out0 as [?|[?|]|].
    + simpl. by rewrite Hout.
Qed.

(** C9: [api_search] never writes to the caller's query object: it is the
    same after the run as before, whatever the service answers, and the
    result holds that same object; a call of [_build_params] on it changes
    nothing at all. *)
Theorem api_search_keeps_query (fuel : nat) (c : Client World)
    (limit_ov skip_ov : option Z) :
  caller_query (api_search fuel c).2 = caller_query c /\
  match (api_search fuel c).1 with
  | Return qr => query qr = caller_query c
  | _ => True
  end /\
  (build_params limit_ov skip_ov c).2 = c.
Proof.
  split; [|split; [|reflexivity]].
  - destruct (api_search_trace fuel c) as (evs & Hq & _). exact Hq.
  - unfold api_search, try_except, api_search_body, bind.
    pose proof (sound_offset_phase fuel c) as (ev1 & Hq1 & _).
    destruct (offset_phase fuel c) as [[[endpoint p]|[message| |]|] c1];
      try destruct message; simpl; try exact I.
    pose proof (sound_cursor_needed p c1) as (ev2 & Hq2 & _).
    destruct (cursor_needed p c1) as [[switch|[message| |]|] c2];
      try destruct message; simpl; try exact I.
    assert (Hs : sound (if switch then cursor_phase fuel endpoint p else ret p)).
    { destruct switch; [apply sound_cursor_phase|apply sound_ret]. }
    pose proof (Hs c2) as (ev3 & Hq3 & _).
    destruct ((if switch then cursor_phase fuel endpoint p else ret p) c2)
      as [[p'|[message| |]|] c3]; try destruct message; simpl; try exact I.
    simpl in *. congruence.
Qed.


(** *** One iteration of the skip/limit loop on a page served in full *)

(** The client after a request that moved the service to [w]. *)
Definition advance (c : Client World) (w : World) (evs : list Event)
  : Client World :=
  {| world := w; caller_query := caller_query c;
     trace := (trace c ++ evs)%list |}.

Lemma len_app (l1 l2 : list FdaRecord) : len (l1 ++ l2) = len l1 + len l2.
Proof. unfold len. rewrite length_app. lia. Qed.

Lemma offset_fetch_served (ep : string) (b n : Z) (p : Pager)
    (c : Client World) (r : Response) (w' : World) :
  let params := _build_params (caller_query c) (Some b) (Some (current_skip p)) in
  let all := (all_results p ++ batch_of r)%list in
  let asked := [Logged INFO (MsgQuerying ep params SkipLimit); MinuteAcquire;
                DayAcquire; SessionGet ep params (Fetched r);
                Logged INFO (MsgRetrieved (length all) (Some (total_of r)))] in
  session_get (world c) ep params = (Fetched r, w') ->
  len (batch_of r) = n -> 0 < n -> b <= n ->
  offset_fetch ep b p c =
  if total_of r <=? len all then
    (Return (Break {| all_results := all; current_skip := current_skip p;
                      remaining := remaining p;
                      total_available := Some (total_of r) |}),
     advance c w' (asked ++ [Logged INFO (MsgRetrievedAll (total_of r))]))
  else
    (Return (Continue {| all_results := all;
                         current_skip := current_skip p + n;
                         remaining := count_sub (remaining p) n;
                         total_available := Some (total_of r) |}),
     advance c w' asked).
Proof.
  intros params all asked Hget Hn Hpos Hb.
  unfold offset_fetch, bind, build_params, read_query, log, emit, fetch, ret.
  simpl. fold params. rewrite Hget. simpl.
  subst all asked. destruct (batch_of r) as [|d ds] eqn:Eb.
  { unfold len in Hn. simpl in Hn. lia. }
  simpl. rewrite Hn.
  destruct (n <? b) eqn:E1; [lia|].
  destruct (total_of r <=? len (all_results p ++ d :: ds)) eqn:E2;
    unfold advance; simpl; rewrite <- ?app_assoc; reflexivity.
Qed.


Lemma offset_loop_S (fuel : nat) (us : Z) (ep : string) (p : Pager)
    (c : Client World) :
  count_pos (remaining p) && (current_skip p <? 25000) = true ->
  offset_loop (S fuel) us ep p c =
  match offset_body us ep p c with
  | (Return (Continue p'), c') => offset_loop fuel us ep p' c'
  | (Return (Break p'), c') => (Return p', c')
  | (Raise e, c') => (Raise e, c')
  | (OutOfFuel, c') => (OutOfFuel, c')
  end.
Proof.
  intros H. simpl. rewrite H. unfold bind.
  destruct (offset_body us ep p c) as [[[?|?]|?|] ?]; reflexivity.
Qed.

Lemma offset_body_first (us : Z) (ep : string) (p : Pager) :
  total_available p = None ->
  offset_body us ep p = offset_fetch ep (count_min (remaining p) 1000) p.
Proof. intros H. unfold offset_body. rewrite H. reflexivity. Qed.

Lemma offset_body_next (us T : Z) (ep : string) (p : Pager) :
  total_available p = Some T ->
  0 < Z.min (count_min (remaining p) 1000) (T - (current_skip p - us)) ->
  offset_body us ep p =
  offset_fetch ep (Z.min (count_min (remaining p) 1000) (T - (current_skip p - us))) p.
Proof.
  intros H Hpos. unfold offset_body. rewrite H. cbv zeta.
  destruct (_ <=? 0) eqn:E; [lia|reflexivity].
Qed.

Lemma offset_phase_unfold (fuel : nat) (c : Client World) :
  let q := caller_query c in
  let c0 := extend c (if unlimited_mode q then [Logged INFO MsgUnlimited] else []) in
  offset_phase fuel c =
  match offset_loop fuel (user_skip_of q) (endpoint_of q) (initial_pager q) c0 with
  | (Return p, c') => (Return (endpoint_of q, p), c')
  | (Raise e, c') => (Raise e, c')
  | (OutOfFuel, c') => (OutOfFuel, c')
  end.
Proof.
  intros q c0. unfold offset_phase, bind, read_query, log, emit, ret. fold q.
  subst c0. destruct (unlimited_mode q); [reflexivity|]. by rewrite extend_nil.
Qed.

Lemma advance_advance (c : Client World) (w1 w2 : World) (e1 e2 : list Event) :
  advance (advance c w1 e1) w2 e2 = advance c w2 (e1 ++ e2).
Proof. unfold advance. simpl. by rewrite app_assoc. Qed.

Lemma advance_extend (c : Client World) (w : World) (e1 e2 : list Event) :
  advance (extend c e1) w e2 = advance c w (e1 ++ e2).
Proof. unfold advance, extend. simpl. by rewrite app_assoc. Qed.

Lemma extend_advance (c : Client World) (w : World) (e1 e2 : list Event) :
  extend (advance c w e1) e2 = advance c w (e1 ++ e2).
Proof. unfold advance, extend. simpl. by rewrite app_assoc. Qed.

Lemma served_page (T n s : Z) (w : World) (ep : string) (params : Params) :
  serves_in_full session_get T ->
  wire_limit params = Some n -> wire_start params = Some s ->
  0 < n -> 0 <= s -> s + n <= T ->
  exists r w',
    session_get w ep params = (Fetched r, w') /\
    total_of r = T /\ len (batch_of r) = n.
Proof.
  intros Hfull Hwire Hstart Hn Hs Hin.
  destruct (Hfull w ep params n s Hwire Hstart Hn Hs Hin)
    as (r & w' & docs & Hget & Ht & Hd & Hlen).
  exists r, w'. split; [exact Hget|].
  unfold total_of, batch_of, len. rewrite Ht, Hd. simpl.
  rewrite length_map. by split.
Qed.

Lemma served_full_page (T n s : Z) (w : World) (ep : string) (q : BaseQuery) :
  serves_in_full session_get T -> 0 < n -> 0 <= s -> s + n <= T ->
  exists r w',
    session_get w ep (_build_params q (Some n) (Some s)) = (Fetched r, w') /\
    total_of r = T /\ len (batch_of r) = n.
Proof.
  intros Hfull Hn Hs Hin.
  by apply (served_page T n s); [|apply wire_limit_build|apply wire_start_build|..].
Qed.



(** C4: when the skip/limit phase of a run ends at an offset of 25000 or
    more, with requested records still remaining and fewer records
    accumulated than the service reported, and the query has no sort field
    (absent or empty), [api_search] does not raise: it logs the warning
    that search_after needs a sort parameter, sends no further request, and
    returns the records the skip/limit phase accumulated, with the reported
    total. *)
Theorem api_search_without_sort_stops (fuel : nat) (c c1 : Client World)
    (ep : string) (p : Pager) (T : Z) :
  offset_phase fuel c = (Return (ep, p), c1) ->
  count_pos (remaining p) = true ->
  25000 <= current_skip p ->
  total_available p = Some T ->
  len (all_results p) < T ->
  field_truthy (sort (caller_query c)) = false ->
  api_search fuel c =
  (Return {| query := caller_query c; total_results := T;
             records := all_results p |},
   extend c1 [Logged INFO MsgSwitching; Logged WARNING MsgNoSort]).
Proof.
  intros Hphase Hrem Hskip Htot Hlen Hsort.
  pose proof (sound_offset_phase fuel c) as (evs & Hq & _).
  rewrite Hphase in Hq. simpl in Hq.
  unfold api_search, try_except, api_search_body, bind. rewrite Hphase.
  unfold cursor_needed. rewrite Hrem, Htot.
  destruct (25000 <=? current_skip p) eqn:E; [|lia].
  simpl. destruct (len (all_results p) <? T) eqn:E2; [|lia].
  unfold cursor_phase, bind, log, emit, read_query, make_result, ret. simpl.
  rewrite Hq, Hsort. simpl. rewrite Htot.
  unfold extend. simpl. rewrite <- app_assoc, Hq. reflexivity.
Qed.


(** *** Runs over pages served in full *)

Lemma served_app (e1 e2 : list Event) : served (e1 ++ e2) = (served e1 ++ served e2)%list.
Proof. unfold served. by rewrite omap_app, concat_app. Qed.

Lemma modes_app (e1 e2 : list Event) : modes (e1 ++ e2) = (modes e1 ++ modes e2)%list.
Proof. unfold modes. by rewrite omap_app. Qed.

Lemma switches_app (e1 e2 : list Event) :
  switches (e1 ++ e2) = (switches e1 + switches e2)%nat.
Proof. unfold switches. by rewrite List.filter_app, length_app. Qed.

Lemma trace_advance (c : Client World) (w : World) (evs : list Event) :
  trace (advance c w evs) = (trace c ++ evs)%list.
Proof. reflexivity. Qed.

(** The skip/limit loop of an unlimited run from offset 0, [n] pages of
    1000 before offset 25000, on a service with more than 25000 records:
    it asks for [n] pages and leaves at offset 25000. *)
Lemma offset_loop_full_pages (T : Z) (ep : string) (q : BaseQuery) :
  serves_in_full session_get T -> 25000 < T ->
  forall (n fuel : nat) (p : Pager) (c : Client World),
    (n <= fuel)%nat -> caller_query c = q ->
    remaining p = Inf ->
    current_skip p = 25000 - 1000 * Z.of_nat n -> 0 <= current_skip p ->
    len (all_results p) = current_skip p ->
    total_available p = None \/ total_available p = Some T ->
    exists p' w' evs,
      offset_loop fuel 0 ep p c = (Return p', advance c w' evs) /\
      remaining p' = Inf /\
      current_skip p' = 25000 /\
      all_results p' = (all_results p ++ served evs)%list /\
      len (all_results p') = 25000 /\
      (total_available p' = Some T \/ (n = 0%nat /\ p' = p)) /\
      modes evs = repeat SkipLimit n /\
      switches evs = 0%nat.
Proof.
  intros Hfull HT.
  induction n as [|n IH]; intros fuel p c Hfuel Hq Hrem Hcur Hnn Hlen Htot.
  - exists p, (world c), []. rewrite offset_loop_done.
    + unfold advance. simpl. rewrite !app_nil_r. destruct c.
      repeat split; try done; try lia. by right.
    + rewrite Hcur. simpl. apply andb_false_r.
  - destruct fuel as [|fuel]; [lia|].
    assert (Hcs : current_skip p + 1000 <= 25000 /\ current_skip p < 25000) by lia.
    rewrite offset_loop_S by (rewrite Hrem; simpl; lia).
    assert (Hbody : offset_body 0 ep p c = offset_fetch ep 1000 p c).
    { destruct Htot as [Hnone | Hsome].
      - rewrite offset_body_first by assumption. by rewrite Hrem.
      - rewrite (offset_body_next 0 T) by (try assumption; rewrite Hrem; simpl; lia).
        rewrite Hrem. simpl count_min. f_equal. lia. }
    rewrite Hbody.
    destruct (served_full_page T 1000 (current_skip p) (world c) ep (caller_query c)
                Hfull ltac:(lia) Hnn ltac:(lia))
      as (r & w1 & Hget & Ht & Hn).
    rewrite (offset_fetch_served ep 1000 1000 p c r w1 Hget Hn) by lia.
    rewrite Ht. rewrite len_app, Hn, Hlen.
    destruct (T <=? current_skip p + 1000) eqn:E; [lia|].
    set (asked := [_; _; _; _; _]).
    set (p1 := {| all_results := _; current_skip := _;
                  remaining := _; total_available := _ |}).
    destruct (IH fuel p1 (advance c w1 asked)) as (p' & w' & evs & Hl & H1 & H2 & H3 & H4 & H5 & H6 & H7).
    + lia.
    + exact Hq.
    + subst p1. simpl. by rewrite Hrem.
    + subst p1. simpl. lia.
    + subst p1. simpl. lia.
    + subst p1. simpl. rewrite len_app, Hn, Hlen. reflexivity.
    + by right.
    + exists p', w', (asked ++ evs)%list.
      rewrite Hl, advance_advance. split_and!; try assumption.
      * reflexivity.
      * rewrite served_app, H3.
        assert (Ha : served asked = batch_of r).
        { subst asked. unfold served. simpl. by rewrite app_nil_r. }
        rewrite Ha. subst p1. simpl. by rewrite app_assoc.
      * left. destruct H5 as [H5 | [-> ->]]; [exact H5|reflexivity].
      * rewrite modes_app, H6. reflexivity.
Qed.

End EngineFacts.

Lemma api_search_skip_25000_type_error_witness :
  exists evs,
    api_search (Mock.service 30000) Mock.one_pair 30
      (Mock.client {| ENDPOINT_PATH := "/drug/event.json"; search := None;
                      sort := Some "receivedate:asc"; count := None;
                      limit := Some (-1); skip := Some 25000 |})
    = (Raise ExnTypeError,
       extend (Mock.client {| ENDPOINT_PATH := "/drug/event.json"; search := None;
                              sort := Some "receivedate:asc"; count := None;
                              limit := Some (-1); skip := Some 25000 |}) evs) /\
    forallb (fun e => negb (is_request e)) evs = true.
Proof.
  destruct (api_search_skip_25000_type_error (Mock.service 30000) Mock.one_pair 30
              (Mock.client {| ENDPOINT_PATH := "/drug/event.json"; search := None;
                              sort := Some "receivedate:asc"; count := None;
                              limit := Some (-1); skip := Some 25000 |}))
    as (evs & H1 & _ & H3 & _); [reflexivity | reflexivity |].
  exists evs. split; assumption.
Defined.

(** ** The engine against the mock service *)

Lemma mock_docs_length (from : Z) (n : nat) : length (Mock.docs from n) = n.
Proof. revert from. induction n as [|n IH]; intros from; simpl; [|rewrite IH]; reflexivity. Qed.

Lemma honest_serves_in_full (T : Z) : serves_in_full (Mock.honest T) T.
Proof.
  intros w e p n s Hw Hst Hn Hs Hin. unfold Mock.honest. rewrite Hw, Hst.
  eexists _, tt, _. split_and!; try reflexivity.
  simpl. rewrite mock_docs_length. lia.
Qed.

Lemma honest_answers_by_request (T : Z) : answers_by_request (Mock.honest T).
Proof. intros [] [] e p. reflexivity. Qed.

Lemma digits_have_no_gt (d : Decimal.uint) :
  PyStr.has_char ">" (NilEmpty.string_of_uint d) = false.
Proof. induction d; simpl; try rewrite IHd; reflexivity. Qed.

Lemma append_nil_l (s : string) : "" +:+ s = s.
Proof. reflexivity. Qed.

Lemma append_cons (c : ascii) (a s : string) : String c a +:+ s = String c (a +:+ s).
Proof. reflexivity. Qed.

Lemma append_empty_r (a : string) : a +:+ "" = a.
Proof. induction a as [|c a IH]; [|rewrite append_cons, IH]; reflexivity. Qed.

Lemma span_url_app (a rest : string) :
  PyStr.has_char ">" a = false ->
  span_url (a +:+ rest) = ((a +:+ (span_url rest).1), (span_url rest).2).
Proof.
  induction a as [|c a IH]; intros H.
  - rewrite !append_nil_l. by destruct (span_url rest).
  - simpl in H. apply orb_false_elim in H as [Hc Ha].
    rewrite !append_cons. simpl. rewrite Hc, (IH Ha). reflexivity.
Qed.

Lemma contains_app_r (sub a b : string) :
  PyStr.contains sub b = true -> PyStr.contains sub (a +:+ b) = true.
Proof.
  intros H. induction a as [|c a IH]; [exact H|].
  rewrite append_cons. simpl. rewrite IH. apply orb_true_r.
Qed.

(** The pattern finds the URL of a header made of one [rel="next"] entry. *)
Lemma re_search_next_entry (u : string) :
  PyStr.has_char ">" u = false -> PyStr.truthy u = true ->
  re_search_next ("<" +:+ u +:+ ">; " +:+ rel_next) = Some u.
Proof.
  intros Hgt Hu.
  change ("<" +:+ u +:+ ">; " +:+ rel_next) with (String "<" (u +:+ ">; " +:+ rel_next)).
  cbn [re_search_next]. unfold match_next_here.
  change (Ascii.eqb "<" "<") with true. cbv iota.
  rewrite (span_url_app u _ Hgt). simpl span_url. cbn [fst snd].
  rewrite append_empty_r, Hu. reflexivity.
Qed.

Lemma undec_dec (n : Z) : undec (dec n) = Some n.
Proof. unfold undec, dec. rewrite NilEmpty.isi. simpl. by rewrite DecimalZ.of_to. Qed.


(** A computed outcome that is a [Return] is the pair of its parts. *)
Lemma phase_returned {World : Type}
    (x : Outcome (string * Pager) * Client World) (ep : string) (d : Pager) :
  match x.1 with Return (e, _) => String.eqb e ep | _ => false end = true ->
  x = (Return (ep, match x.1 with Return (_, p) => p | _ => d end), x.2).
Proof.
  destruct x as [[[e p]|?|] c]; simpl; intros H; try discriminate.
  apply String.eqb_eq in H. by subst.
Qed.

Lemma api_search_without_sort_stops_witness :
  let q := {| ENDPOINT_PATH := "/drug/event.json"; search := Some "serious:1";
              sort := None; count := None; limit := Some 30000; skip := None |} in
  let phase := offset_phase (Mock.service 30000) 25 (Mock.client q) in
  let p := match phase.1 with Return (_, p) => p | _ => initial_pager q end in
  len (all_results p) = 25000 /\
  api_search (Mock.service 30000) Mock.one_pair 25 (Mock.client q) =
  (Return {| query := q; total_results := 30000; records := all_results p |},
   extend phase.2 [Logged INFO MsgSwitching; Logged WARNING MsgNoSort]).
Proof.
  intros q phase p. split; [vm_compute; reflexivity|].
  apply (api_search_without_sort_stops (Mock.service 30000) Mock.one_pair 25
           (Mock.client q) phase.2 (endpoint_of q) p 30000).
  - apply phase_returned. vm_compute. reflexivity.
  - vm_compute. reflexivity.
  - vm_compute. discriminate.
  - vm_compute. reflexivity.
  - vm_compute. reflexivity.
  - reflexivity.
Defined.

Lemma api_search_fails_fast_witness :
  let q := {| ENDPOINT_PATH := "/drug/event.json"; search := Some "serious:1";
              sort := None; count := None; limit := Some 5000; skip := None |} in
  let c := {| world := 2%nat; caller_query := q; trace := [] |} in
  let run := api_search (Mock.flaky 30000) Mock.one_pair 25 c in
  let out := HTTPError (Some "Service unavailable") in
  run.1 = Raise (exn_of out) /\
  drop 13 (trace run.2) =
    [SessionGet (endpoint_of q) (_build_params q (Some 1000) (Some 2000)) out;
     error_log out] /\
  forallb ok_event (take 13 (trace run.2)) = true.
Proof.
  intros q c run out.
  assert (Hdrop : drop 13 (trace run.2) =
    [SessionGet (endpoint_of q) (_build_params q (Some 1000) (Some 2000)) out;
     error_log out]) by (vm_compute; reflexivity).
  destruct (api_search_fails_fast (Mock.flaky 30000) Mock.one_pair 25 c
              (take 13 (trace run.2)) [error_log out]
              (endpoint_of q) (_build_params q (Some 1000) (Some 2000)) out)
    as (H1 & _ & H3).
  - change (trace c) with (@nil Event). rewrite app_nil_l, <- Hdrop.
    symmetry. apply take_drop.
  - reflexivity.
  - split; [exact H1|]. split; [exact Hdrop|exact H3].
Defined.

(** C8 at the input where the code departs from it: an unlimited query
    from offset 25000 does not end through any exhaustion of the data set;
    whatever the service, the run raises [TypeError] before the first
    request. *)
Theorem api_search_unlimited_from_25000 (World : Type)
    (session_get : World -> string -> Params -> FetchOutcome * World)
    (next_url_params : string -> gmap string (list string))
    (fuel : nat) (w : World) (tr : list Event) :
  let q := {| ENDPOINT_PATH := "/drug/ndc.json"; search := None; sort := None;
              count := None; limit := Some (-1); skip := Some 25000 |} in
  post_init q = true /\
  api_search session_get next_url_params fuel
    {| world := w; caller_query := q; trace := tr |}
  = (Raise ExnTypeError,
     {| world := w; caller_query := q;
        trace := (tr ++ [Logged INFO MsgUnlimited])%list |}).
Proof.
  intros q. split; [reflexivity|].
  unfold api_search, try_except, api_search_body, bind.
  rewrite offset_phase_unfold. cbn [caller_query].
  rewrite offset_loop_done by reflexivity.
  reflexivity.
Qed.

(** * Further properties of the code *)

(** ** The parameter builder, key by key *)

Lemma replace_length (c d : ascii) (s : string) :
  String.length (PyStr.replace c (String d EmptyString) s) = String.length s.
Proof.
  induction s as [|a s IH]; [reflexivity|].
  simpl. destruct (Ascii.eqb a c);
    rewrite ?append_cons, ?append_nil_l; simpl; by rewrite IH.
Qed.

Lemma replace_no_char (c d : ascii) (s : string) :
  c <> d -> PyStr.has_char c (PyStr.replace c (String d EmptyString) s) = false.
Proof.
  intros Hcd. induction s as [|a s IH]; [reflexivity|].
  simpl. destruct (Ascii.eqb a c) eqn:E;
    rewrite ?append_cons, ?append_nil_l; simpl.
  - rewrite IH. destruct (Ascii.eqb d c) eqn:E'; [|reflexivity].
    apply Ascii.eqb_eq in E'. congruence.
  - by rewrite E, IH.
Qed.

(** X1: the [search] parameter: present exactly for a non-empty search string,
    and then the string with each space turned into [+], which has the
    length of the original and no space; neither the other fields nor the
    overrides bear on it. *)
Theorem build_params_search (q : BaseQuery) (limit_ov skip_ov : option Z) :
  _build_params q limit_ov skip_ov !! "search" =
    match search q with
    | Some s => if PyStr.truthy s then Some (PStr (PyStr.replace " " "+" s)) else None
    | None => None
    end /\
  forall s, PyStr.has_char " " (PyStr.replace " " "+" s) = false /\
            String.length (PyStr.replace " " "+" s) = String.length s.
Proof.
  split.
  - build_params_cases.
  - intros s. split; [by apply replace_no_char | apply replace_length].
Qed.

(** The [count] parameter is built as [search] is. *)
Theorem build_params_count (q : BaseQuery) (limit_ov skip_ov : option Z) :
  _build_params q limit_ov skip_ov !! "count" =
    match count q with
    | Some s => if PyStr.truthy s then Some (PStr (PyStr.replace " " "+" s)) else None
    | None => None
    end.
Proof. build_params_cases. Qed.

(** X2: the [limit] parameter: the override wins over the limit of the query,
    and the parameter is left out exactly when the limit in force is 1000
    or there is none. *)
Theorem build_params_limit_in_force (q : BaseQuery) (limit_ov skip_ov : option Z) :
  _build_params q limit_ov skip_ov !! "limit" =
    match (match limit_ov with Some l => Some l | None => limit q end) with
    | Some l => if l =? 1000 then None else Some (PInt l)
    | None => None
    end.
Proof. build_params_cases. Qed.

(** X3: the [skip] parameter under an override: the override wins, and a skip
    of 0 or less is left out. *)
Theorem build_params_skip_override (q : BaseQuery) (limit_ov : option Z) (s : Z) :
  _build_params q limit_ov (Some s) !! "skip" =
    if 0 <? s then Some (PInt s) else None.
Proof. build_params_cases. Qed.

(** X4: the builder sets no key besides [search], [sort], [count], [limit] and
    [skip]. *)
Theorem build_params_keys (q : BaseQuery) (limit_ov skip_ov : option Z) (k : string) :
  is_Some (_build_params q limit_ov skip_ov !! k) ->
  k ∈ ["search"; "sort"; "count"; "limit"; "skip"].
Proof.
  intros [v Hv].
  destruct (decide (k = "search")) as [->|N1]; [set_solver|].
  destruct (decide (k = "sort")) as [->|N2]; [set_solver|].
  destruct (decide (k = "count")) as [->|N3]; [set_solver|].
  destruct (decide (k = "limit")) as [->|N4]; [set_solver|].
  destruct (decide (k = "skip")) as [->|N5]; [set_solver|].
  exfalso. revert Hv. unfold _build_params.
  repeat match goal with
         | |- context [match ?x with _ => _ end] =>
             lazymatch x with
             | context [match _ with _ => _ end] => fail
             | _ => destruct x eqn:?
             end
         end;
  rewrite ?lookup_insert_ne by done; by rewrite lookup_empty.
Qed.

Lemma build_params_keys_witness :
  "limit" ∈ ["search"; "sort"; "count"; "limit"; "skip"].
Proof.
  apply (build_params_keys
           {| ENDPOINT_PATH := "/drug/ndc.json"; search := None; sort := None;
              count := None; limit := Some 25; skip := None |} None None "limit").
  exists (PInt 25). reflexivity.
Defined.

(** ** Validation of the query fields *)

Lemma has_char_app (c : ascii) (a b : string) :
  PyStr.has_char c (a +:+ b) = PyStr.has_char c a || PyStr.has_char c b.
Proof.
  induction a as [|d a IH]; [reflexivity|].
  rewrite append_cons. simpl. rewrite IH. by rewrite orb_assoc.
Qed.

Lemma split_no_sep (sep : ascii) (s : string) :
  PyStr.has_char sep s = false -> PyStr.split sep s = [s].
Proof.
  induction s as [|c s IH]; [reflexivity|]. simpl. intros H.
  apply orb_false_elim in H as [Hc Hs]. rewrite Hc, (IH Hs). reflexivity.
Qed.

Lemma split_at_sep (sep : ascii) (a rest : string) :
  PyStr.has_char sep a = false ->
  PyStr.split sep (a +:+ String sep rest) = a :: PyStr.split sep rest.
Proof.
  induction a as [|c a IH]; intros H.
  - rewrite append_nil_l. simpl. by rewrite Ascii.eqb_refl.
  - simpl in H. apply orb_false_elim in H as [Hc Ha].
    rewrite append_cons. simpl. rewrite Hc, (IH Ha). reflexivity.
Qed.

Lemma has_char_sep (c : ascii) (a b : string) :
  PyStr.has_char c (a +:+ String c b) = true.
Proof.
  rewrite has_char_app. cbn [PyStr.has_char]. rewrite Ascii.eqb_refl.
  apply orb_true_r.
Qed.

(** X5: [validate_sort] looks at the piece between the first and the second
    colon only: a sort string passes exactly when that piece is [asc] or
    [desc], whatever the field name is and whatever follows a second
    colon. *)
Theorem validate_sort_second_piece (field order rest : string) :
  PyStr.has_char ":" field = false ->
  PyStr.has_char ":" order = false ->
  validate_sort (Some (field +:+ ":" +:+ order)) =
    (String.eqb order "asc" || String.eqb order "desc") /\
  validate_sort (Some (field +:+ ":" +:+ order +:+ ":" +:+ rest)) =
    (String.eqb order "asc" || String.eqb order "desc").
Proof.
  intros Hf Ho. unfold validate_sort.
  change (":" +:+ order) with (String ":" order).
  change (":" +:+ order +:+ ":" +:+ rest) with (String ":" (order +:+ String ":" rest)).
  rewrite !has_char_sep.
  rewrite !split_at_sep by assumption.
  rewrite (split_no_sep ":" order Ho). split; reflexivity.
Qed.

Lemma validate_sort_second_piece_witness :
  validate_sort (Some ("receivedate" +:+ ":" +:+ "desc")) =
    (String.eqb "desc" "asc" || String.eqb "desc" "desc") /\
  validate_sort (Some ("receivedate" +:+ ":" +:+ "desc" +:+ ":" +:+ "not checked")) =
    (String.eqb "desc" "asc" || String.eqb "desc" "desc").
Proof.
  apply (validate_sort_second_piece "receivedate" "desc" "not checked"); reflexivity.
Defined.

(** X6: the queries [__post_init__] lets through start a run with records
    still to fetch and at an offset between 0 and 25000: the limit is
    absent, -1 or positive, the skip absent or from 0 to 25000. *)
Theorem post_init_ranges (q : BaseQuery) :
  post_init q = true ->
  count_pos (remaining_of q) = true /\
  0 <= user_skip_of q <= 25000 /\
  (limit q = None \/ limit q = Some (-1) \/ exists l, limit q = Some l /\ 0 < l).
Proof.
  unfold post_init. intros H.
  apply andb_prop in H as [H Hsort]. apply andb_prop in H as [Hlim Hskip].
  split; [by apply valid_limit_remaining|]. split.
  - unfold validate_skip in Hskip. unfold user_skip_of.
    destruct (skip q) as [s|]; [|lia].
    destruct (s =? 0) eqn:E; lia.
  - unfold validate_limit in Hlim. destruct (limit q) as [l|]; [|by left].
    right. destruct (decide (l = -1)) as [->|N]; [by left|].
    right. exists l. split; [reflexivity|]. lia.
Qed.

Lemma post_init_ranges_witness :
  let q := {| ENDPOINT_PATH := "/drug/ndc.json"; search := Some "finished:true";
              sort := None; count := None; limit := Some 1000; skip := None |} in
  count_pos (remaining_of q) = true /\
  0 <= user_skip_of q <= 25000 /\
  (limit q = None \/ limit q = Some (-1) \/ exists l, limit q = Some l /\ 0 < l).
Proof.
  intros q. apply (post_init_ranges q). reflexivity.
Defined.

(** ** The token bucket: bursts, idle time and the length of a sleep *)

Lemma acquire_with_token (cap win now woke : Q) (l : RateLimiter.t) :
  (0 < win)%Q ->
  RateLimiter.max_requests l = cap -> RateLimiter.time_window l = win ->
  (1 <= Qmin cap (RateLimiter.tokens l
                  + (now - RateLimiter.last_update l) * cap / win))%Q ->
  RateLimiter.acquire now woke l =
  Some ({| RateLimiter.max_requests := cap; RateLimiter.time_window := win;
           RateLimiter.tokens :=
             (Qmin cap (RateLimiter.tokens l
                        + (now - RateLimiter.last_update l) * cap / win) - 1)%Q;
           RateLimiter.last_update := now |}, None).
Proof.
  intros Hwin Hc Hw H1. unfold RateLimiter.acquire. rewrite Hc, Hw.
  assert (Ew : Qeq_bool win 0 = false).
  { apply not_true_is_false. intros E. apply Qeq_bool_eq in E. lra. }
  rewrite Ew.
  destruct (Qlt_le_dec _ 1) as [Hlt|_]; [lra|reflexivity].
Qed.

Lemma acquire_sleeps_app (c1 c2 : list (Q * Q)) (l l1 : RateLimiter.t)
    (s1 : list (option Q)) :
  acquire_sleeps c1 l = Some (s1, l1) ->
  acquire_sleeps (c1 ++ c2) l =
  match acquire_sleeps c2 l1 with
  | Some (s2, l2) => Some ((s1 ++ s2)%list, l2)
  | None => None
  end.
Proof.
  revert l s1. induction c1 as [|[now woke] c1 IH]; intros l s1 H; simpl in *.
  - injection H as <- <-. by destruct (acquire_sleeps c2 l) as [[? ?]|].
  - destruct (RateLimiter.acquire now woke l) as [[l' sl]|]; [|discriminate].
    destruct (acquire_sleeps c1 l') as [[ss lf]|] eqn:E; [|discriminate].
    injection H as <- <-. rewrite (IH l' ss E).
    by destruct (acquire_sleeps c2 lf) as [[? ?]|].
Qed.

(** Calls at one instant [t0] on a limiter that holds [j] tokens fewer
    than its capacity [N]: the next [k] calls find a token each. *)
Lemma acquire_burst_from (N : positive) (win t0 : Q) (k : nat) :
  (0 < win)%Q ->
  forall (j : nat) (l : RateLimiter.t),
    (j + k <= Pos.to_nat N)%nat ->
    RateLimiter.max_requests l = inject_Z (Z.pos N) ->
    RateLimiter.time_window l = win ->
    RateLimiter.last_update l = t0 ->
    (RateLimiter.tokens l == inject_Z (Z.pos N) - inject_Z (Z.of_nat j))%Q ->
    exists l',
      acquire_sleeps (repeat (t0, t0) k) l = Some (repeat None k, l') /\
      RateLimiter.max_requests l' = inject_Z (Z.pos N) /\
      RateLimiter.time_window l' = win /\
      RateLimiter.last_update l' = t0 /\
      (RateLimiter.tokens l' == inject_Z (Z.pos N) - inject_Z (Z.of_nat (j + k)))%Q.
Proof.
  intros Hwin. induction k as [|k IH]; intros j l Hjk Hc Hw Hu Ht.
  - exists l. simpl. rewrite Nat.add_0_r. by split_and!.
  - assert (Hj : (inject_Z (Z.of_nat j) + 1 <= inject_Z (Z.pos N))%Q).
    { assert (Hz : (Z.of_nat j + 1 <= Z.pos N)%Z) by lia.
      rewrite Zle_Qle, inject_Z_plus in Hz. exact Hz. }
    assert (Hj0 : (0 <= inject_Z (Z.of_nat j))%Q).
    { assert (Hz : (0 <= Z.of_nat j)%Z) by lia.
      rewrite Zle_Qle in Hz. exact Hz. }
    assert (Hrefill : (Qmin (inject_Z (Z.pos N))
                         (RateLimiter.tokens l
                          + (t0 - RateLimiter.last_update l) * inject_Z (Z.pos N) / win)
                       == inject_Z (Z.pos N) - inject_Z (Z.of_nat j))%Q).
    { rewrite Hu.
      assert (E : (RateLimiter.tokens l + (t0 - t0) * inject_Z (Z.pos N) / win
                   == RateLimiter.tokens l)%Q) by (unfold Qdiv; ring).
      rewrite E, Ht. apply Q.min_r. lra. }
    simpl repeat. cbn [acquire_sleeps].
    rewrite (acquire_with_token (inject_Z (Z.pos N)) win t0 t0 l Hwin Hc Hw)
      by (rewrite Hrefill; lra).
    match goal with |- context [acquire_sleeps _ ?x] => set (l1 := x) end.
    destruct (IH (S j) l1)
      as (l' & E & H1 & H2 & H3 & H4); try reflexivity; try lia.
    + subst l1. cbn [RateLimiter.tokens]. rewrite Hrefill.
      rewrite Nat2Z.inj_succ. unfold Z.succ. rewrite inject_Z_plus. ring.
    + exists l'. rewrite E. split_and!; try assumption; [reflexivity|].
      by rewrite H4, Nat.add_succ_r.
Qed.

(** X7: a fresh limiter of capacity [N] serves [N] calls at one instant
    without sleeping; the call after them, at that same instant, sleeps
    one [N]-th of the window and leaves no token. *)
Theorem acquire_burst_then_sleep (N : positive) (win t0 woke : Q) :
  (0 < win)%Q ->
  exists s l,
    acquire_sleeps (repeat (t0, t0) (Pos.to_nat N) ++ [(t0, woke)])
      (RateLimiter.init (inject_Z (Z.pos N)) win t0)
    = Some ((repeat None (Pos.to_nat N) ++ [Some s])%list, l) /\
    (s == win / inject_Z (Z.pos N))%Q /\
    (RateLimiter.tokens l == 0)%Q /\
    RateLimiter.last_update l = woke.
Proof.
  intros Hwin.
  destruct (acquire_burst_from N win t0 (Pos.to_nat N) Hwin 0
              (RateLimiter.init (inject_Z (Z.pos N)) win t0))
    as (l1 & E & Hc & Hw & Hu & Ht); try reflexivity; try lia.
  { simpl. ring. }
  rewrite (acquire_sleeps_app _ [(t0, woke)] _ l1 _ E).
  assert (Ht0 : (RateLimiter.tokens l1 == 0)%Q).
  { rewrite Ht. simpl Nat.add. rewrite positive_nat_Z. ring. }
  assert (HN : (0 < inject_Z (Z.pos N))%Q).
  { assert (Hz : (0 < Z.pos N)%Z) by lia.
    rewrite Zlt_Qlt in Hz. exact Hz. }
  cbn [acquire_sleeps]. unfold RateLimiter.acquire. rewrite Hc, Hw, Hu.
  assert (Ew : Qeq_bool win 0 = false).
  { apply not_true_is_false. intros E'. apply Qeq_bool_eq in E'. lra. }
  assert (Ec : Qeq_bool (inject_Z (Z.pos N)) 0 = false).
  { apply not_true_is_false. intros E'. apply Qeq_bool_eq in E'. lra. }
  rewrite Ew.
  set (tokens1 := Qmin _ _).
  assert (H1 : (tokens1 == 0)%Q).
  { unfold tokens1.
    assert (E' : (RateLimiter.tokens l1 + (t0 - t0) * inject_Z (Z.pos N) / win
                  == 0)%Q) by (rewrite Ht0; unfold Qdiv; ring).
    rewrite E'. apply Q.min_r. lra. }
  destruct (Qlt_le_dec tokens1 1) as [_|Hge]; [|lra].
  rewrite Ec.
  set (sleep_time := ((1 - tokens1) * win / inject_Z (Z.pos N))%Q).
  assert (Hs : (sleep_time == win / inject_Z (Z.pos N))%Q).
  { unfold sleep_time. rewrite H1. unfold Qdiv. ring. }
  assert (Hpos : (0 < win / inject_Z (Z.pos N))%Q).
  { unfold Qdiv. apply Qmult_lt_0_compat; [|apply Qinv_lt_0_compat]; assumption. }
  destruct (Qlt_le_dec sleep_time 0) as [Hneg|_]; [lra|].
  eexists _, _. split; [reflexivity|]. split_and!; [exact Hs| |reflexivity].
  simpl. ring.
Qed.

Lemma acquire_burst_then_sleep_witness :
  exists s l,
    acquire_sleeps (repeat (0, 0)%Q (Pos.to_nat 240) ++ [(0, 1 # 4)]%Q)
      (RateLimiter.init (inject_Z 240) 60 0)
    = Some ((repeat None (Pos.to_nat 240) ++ [Some s])%list, l) /\
    (s == 60 / inject_Z 240)%Q /\
    (RateLimiter.tokens l == 0)%Q /\
    RateLimiter.last_update l = (1 # 4)%Q.
Proof. apply (acquire_burst_then_sleep 240 60 0 (1 # 4)). reflexivity. Defined.

(** X8: a limiter of capacity at least 1 that was left alone for a whole
    window or more does not block: the next call finds a token, whatever
    the count was before, and returns without sleeping; it leaves a count
    that is not negative and the time of the call as the last update. *)
Theorem acquire_after_idle_window (cap win now woke : Q) (l : RateLimiter.t) :
  (1 <= cap)%Q -> (0 < win)%Q -> RateLimiter.inv cap win l ->
  (win <= now - RateLimiter.last_update l)%Q ->
  exists l',
    RateLimiter.acquire now woke l = Some (l', None) /\
    (0 <= RateLimiter.tokens l')%Q /\
    RateLimiter.last_update l' = now.
Proof.
  intros Hcap Hwin (Hc & Hw & H0 & H1) Hidle.
  unfold RateLimiter.acquire.
  assert (Ew : Qeq_bool (RateLimiter.time_window l) 0 = false).
  { apply not_true_is_false. intros E. apply Qeq_bool_eq in E. lra. }
  rewrite Ew.
  set (elapsed := (now - RateLimiter.last_update l)%Q) in *.
  assert (Hrefill : (RateLimiter.max_requests l
                     <= RateLimiter.tokens l
                        + elapsed * RateLimiter.max_requests l
                          / RateLimiter.time_window l)%Q).
  { assert (Hd : (RateLimiter.max_requests l
                  <= elapsed * RateLimiter.max_requests l
                     / RateLimiter.time_window l)%Q).
    { apply Qle_shift_div_l; [lra|]. rewrite Hw.
      rewrite (Qmult_comm elapsed). apply Qmult_le_l; lra. }
    lra. }
  set (tokens1 := Qmin _ _).
  assert (Ht : (tokens1 == cap)%Q).
  { unfold tokens1. rewrite (Q.min_l _ _ Hrefill). exact Hc. }
  destruct (Qlt_le_dec tokens1 1) as [Hlt|_]; [lra|].
  eexists. split; [reflexivity|]. simpl. split; [|reflexivity]. lra.
Qed.

Lemma acquire_after_idle_window_witness :
  exists l',
    RateLimiter.acquire 75 75
      {| RateLimiter.max_requests := 240; RateLimiter.time_window := 60;
         RateLimiter.tokens := 0; RateLimiter.last_update := 10 |}
    = Some (l', None) /\
    (0 <= RateLimiter.tokens l')%Q /\
    RateLimiter.last_update l' = 75%Q.
Proof.
  apply (acquire_after_idle_window 240 60 75 75); try reflexivity.
  - discriminate.
  - unfold RateLimiter.inv. simpl. repeat split; try reflexivity; discriminate.
  - discriminate.
Defined.

(** X9: while the clock does not run backwards, a call that has to sleep
    sleeps for a positive time of at most one token period, the window
    divided by the capacity. *)
Theorem acquire_sleep_at_most_one_period (cap win now woke s : Q)
    (l l' : RateLimiter.t) :
  (0 < cap)%Q -> (0 < win)%Q -> RateLimiter.inv cap win l ->
  (RateLimiter.last_update l <= now)%Q ->
  RateLimiter.acquire now woke l = Some (l', Some s) ->
  (0 < s /\ s <= win / cap)%Q /\ (RateLimiter.tokens l' == 0)%Q.
Proof.
  intros Hcap Hwin (Hc & Hw & H0 & H1) Hclock. unfold RateLimiter.acquire.
  destruct (Qeq_bool (RateLimiter.time_window l) 0); [discriminate|].
  set (tokens1 := Qmin _ _).
  assert (Hge : (0 <= tokens1)%Q).
  { unfold tokens1. apply Q.min_glb; [lra|].
    assert (Hd : (0 <= (now - RateLimiter.last_update l)
                       * RateLimiter.max_requests l
                       / RateLimiter.time_window l)%Q).
    { apply Qle_shift_div_l; [lra|]. rewrite Qmult_0_l.
      apply Qmult_le_0_compat; lra. }
    lra. }
  destruct (Qlt_le_dec tokens1 1) as [Hlt|_]; [|discriminate].
  destruct (Qeq_bool (RateLimiter.max_requests l) 0); [discriminate|].
  set (sleep_time := (_ / _)%Q).
  destruct (Qlt_le_dec sleep_time 0) as [_|Hs0]; [discriminate|].
  intros [= <- <-]. simpl. split; [|ring].
  assert (Hinv : (0 < / cap)%Q) by (by apply Qinv_lt_0_compat).
  assert (E : (sleep_time == (1 - tokens1) * (win / cap))%Q).
  { unfold sleep_time. rewrite Hc, Hw. unfold Qdiv. ring. }
  assert (Hp : (0 < win / cap)%Q).
  { unfold Qdiv. by apply Qmult_lt_0_compat. }
  rewrite E. split; nra.
Qed.

Lemma acquire_sleep_at_most_one_period_witness :
  let l := {| RateLimiter.max_requests := 240; RateLimiter.time_window := 60;
              RateLimiter.tokens := 1 # 2; RateLimiter.last_update := 10 |} in
  exists s l',
    RateLimiter.acquire 10 11 l = Some (l', Some s) /\
    (0 < s /\ s <= 60 / 240)%Q /\ (RateLimiter.tokens l' == 0)%Q.
Proof.
  intros l.
  destruct (RateLimiter.acquire 10 11 l) as [[l' [s|]]|] eqn:E;
    try (vm_compute in E; discriminate).
  exists s, l'. split; [reflexivity|].
  apply (acquire_sleep_at_most_one_period 240 60 10 11 s l l'); try reflexivity.
  - unfold RateLimiter.inv. simpl. repeat split; try reflexivity; discriminate.
  - discriminate.
  - exact E.
Defined.

(** ** The daily quota *)

Lemma quota_acquire_counts (cap : Z) (now m1 m2 : Q) (l : DailyQuotaLimiter.t) :
  1 <= cap -> DailyQuotaLimiter.max_requests l = cap ->
  0 <= DailyQuotaLimiter.requests_made l <= cap ->
  exists l' slept,
    DailyQuotaLimiter.acquire now m1 m2 l = Some (l', slept) /\
    DailyQuotaLimiter.max_requests l' = cap /\
    1 <= DailyQuotaLimiter.requests_made l' <= cap.
Proof.
  intros Hcap Hc Hr. unfold DailyQuotaLimiter.acquire.
  destruct (Qle_bool (DailyQuotaLimiter.reset_time l) now) eqn:E; cbn -[Z.add].
  - rewrite Hc. destruct (cap <=? 0) eqn:E0; [lia|].
    eexists _, _. split; [reflexivity|]. cbn. split; [reflexivity|lia].
  - rewrite Hc.
    destruct (cap <=? DailyQuotaLimiter.requests_made l) eqn:E1.
    + assert (Hlt : (now < DailyQuotaLimiter.reset_time l)%Q).
      { apply Qnot_le_lt. intros Hle. apply Qle_bool_iff in Hle. congruence. }
      destruct (Qlt_le_dec _ 0) as [Hneg|_]; [lra|].
      eexists _, _. split; [reflexivity|]. cbn. split; [reflexivity|lia].
    + eexists _, _. split; [reflexivity|]. cbn. split; [reflexivity|lia].
Qed.

(** X10: a daily limiter with a quota of at least 1 returns from every call,
    whatever the clock and the midnights read, and after each call the
    number of requests counted in the running window is between 1 and the
    quota. *)
Theorem quota_never_exceeded (cap : Z) (m0 : Q) (calls : list (Q * Q * Q)) :
  1 <= cap ->
  exists rs,
    DailyQuotaLimiter.acquire_all calls (DailyQuotaLimiter.init cap m0) = Some rs /\
    length rs = length calls /\
    Forall (fun r => 1 <= DailyQuotaLimiter.requests_made r.2 <= cap) rs.
Proof.
  intros Hcap.
  assert (H : forall l, DailyQuotaLimiter.max_requests l = cap ->
                        0 <= DailyQuotaLimiter.requests_made l <= cap ->
            exists rs, DailyQuotaLimiter.acquire_all calls l = Some rs /\
                       length rs = length calls /\
                       Forall (fun r => 1 <= DailyQuotaLimiter.requests_made r.2 <= cap) rs).
  { induction calls as [|[[now m1] m2] calls IH]; intros l Hc Hr.
    - exists []. simpl. auto.
    - destruct (quota_acquire_counts cap now m1 m2 l Hcap Hc Hr)
        as (l' & sl & E & Hc' & Hr').
      destruct (IH l' Hc' ltac:(lia)) as (rs & Ers & Hlen & Hall).
      exists ((sl, l') :: rs). simpl. rewrite E, Ers. simpl.
      split_and!; [reflexivity|by rewrite Hlen|by constructor]. }
  apply H; [reflexivity|simpl; lia].
Qed.

Lemma quota_never_exceeded_witness :
  exists rs,
    DailyQuotaLimiter.acquire_all
      [(10, 200, 200); (20, 200, 200); (30, 200, 200); (250, 300, 300)]%Q
      (DailyQuotaLimiter.init 2 100) = Some rs /\
    length rs = 4%nat /\
    Forall (fun r => 1 <= DailyQuotaLimiter.requests_made r.2 <= 2) rs.
Proof.
  apply (quota_never_exceeded 2 100
           [(10, 200, 200); (20, 200, 200); (30, 200, 200); (250, 300, 300)]%Q).
  lia.
Defined.

(** X11: a call when the quota of the window is used up and the reset time
    is still ahead sleeps exactly until the reset time, then opens a new
    window and counts itself as its first request. *)
Theorem quota_exhausted_sleeps_until_reset (now m1 m2 : Q)
    (l : DailyQuotaLimiter.t) :
  (now < DailyQuotaLimiter.reset_time l)%Q ->
  DailyQuotaLimiter.max_requests l <= DailyQuotaLimiter.requests_made l ->
  DailyQuotaLimiter.acquire now m1 m2 l =
  Some ({| DailyQuotaLimiter.max_requests := DailyQuotaLimiter.max_requests l;
           DailyQuotaLimiter.requests_made := 1;
           DailyQuotaLimiter.reset_time := m2 |},
        Some (DailyQuotaLimiter.reset_time l - now)%Q).
Proof.
  intros Hlt Hfull. unfold DailyQuotaLimiter.acquire.
  destruct (Qle_bool (DailyQuotaLimiter.reset_time l) now) eqn:E.
  { apply Qle_bool_iff in E. lra. }
  destruct (_ <=? _) eqn:E1; [|lia].
  destruct (Qlt_le_dec _ 0) as [Hneg|_]; [lra|reflexivity].
Qed.

Lemma quota_exhausted_sleeps_until_reset_witness :
  DailyQuotaLimiter.acquire 40 200 200
    {| DailyQuotaLimiter.max_requests := 3; DailyQuotaLimiter.requests_made := 3;
       DailyQuotaLimiter.reset_time := 100 |} =
  Some ({| DailyQuotaLimiter.max_requests := 3;
           DailyQuotaLimiter.requests_made := 1;
           DailyQuotaLimiter.reset_time := 200 |}, Some (100 - 40)%Q).
Proof.
  apply (quota_exhausted_sleeps_until_reset 40 200 200
           {| DailyQuotaLimiter.max_requests := 3;
              DailyQuotaLimiter.requests_made := 3;
              DailyQuotaLimiter.reset_time := 100 |}).
  - reflexivity.
  - simpl. lia.
Defined.

(** X12: a call at or after the reset time, on a limiter with a quota of at
    least 1, opens a new window without sleeping: it is request number 1
    of the window that ends at the midnight computed on entry. *)
Theorem quota_resets_after_midnight (now m1 m2 : Q) (l : DailyQuotaLimiter.t) :
  (DailyQuotaLimiter.reset_time l <= now)%Q ->
  1 <= DailyQuotaLimiter.max_requests l ->
  DailyQuotaLimiter.acquire now m1 m2 l =
  Some ({| DailyQuotaLimiter.max_requests := DailyQuotaLimiter.max_requests l;
           DailyQuotaLimiter.requests_made := 1;
           DailyQuotaLimiter.reset_time := m1 |}, None).
Proof.
  intros Hle Hcap. unfold DailyQuotaLimiter.acquire.
  apply Qle_bool_iff in Hle. rewrite Hle. cbn.
  destruct (_ <=? 0) eqn:E; [lia|reflexivity].
Qed.

Lemma quota_resets_after_midnight_witness :
  DailyQuotaLimiter.acquire 250 300 300
    {| DailyQuotaLimiter.max_requests := 3; DailyQuotaLimiter.requests_made := 3;
       DailyQuotaLimiter.reset_time := 100 |} =
  Some ({| DailyQuotaLimiter.max_requests := 3;
           DailyQuotaLimiter.requests_made := 1;
           DailyQuotaLimiter.reset_time := 300 |}, None).
Proof.
  apply (quota_resets_after_midnight 250 300 300
           {| DailyQuotaLimiter.max_requests := 3;
              DailyQuotaLimiter.requests_made := 3;
              DailyQuotaLimiter.reset_time := 100 |}).
  - discriminate.
  - simpl. lia.
Defined.

(** ** The next-page link *)

Lemma span_url_spec (s u r : string) :
  span_url s = (u, r) -> s = u +:+ r /\ PyStr.has_char ">" u = false.
Proof.
  revert u r. induction s as [|c s IH]; intros u r H; simpl in H.
  - by injection H as <- <-.
  - destruct (Ascii.eqb c ">") eqn:Ec.
    + by injection H as <- <-.
    + destruct (span_url s) as [u' r']. injection H as <- <-.
      destruct (IH u' r' eq_refl) as [-> Hu]. split; [reflexivity|].
      simpl. by rewrite Ec, Hu.
Qed.

Lemma starts_with_app (p s : string) : PyStr.starts_with p (p +:+ s) = true.
Proof.
  induction p as [|c p IH]; [reflexivity|].
  rewrite append_cons. simpl. by rewrite Ascii.eqb_refl, IH.
Qed.

Lemma starts_with_app3 (a u b s : string) :
  PyStr.starts_with (a +:+ u +:+ b) (a +:+ u +:+ b +:+ s) = true.
Proof.
  induction a as [|c a IH].
  - rewrite !append_nil_l. induction u as [|d u IHu].
    + rewrite !append_nil_l. apply starts_with_app.
    + rewrite !append_cons. simpl. by rewrite Ascii.eqb_refl, IHu.
  - rewrite !append_cons. simpl. by rewrite Ascii.eqb_refl, IH.
Qed.

Lemma starts_with_contains (p s : string) :
  PyStr.starts_with p s = true -> PyStr.contains p s = true.
Proof. intros H. destruct s; simpl; by rewrite H. Qed.

Lemma contains_cons (sub : string) (c : ascii) (s : string) :
  PyStr.contains sub s = true -> PyStr.contains sub (String c s) = true.
Proof. intros H. cbn [PyStr.contains]. rewrite H. apply orb_true_r. Qed.

Lemma contains_skip_spaces (sub s : string) :
  PyStr.contains sub (skip_spaces s) = true -> PyStr.contains sub s = true.
Proof.
  induction s as [|c s IH]; [done|]. cbn [skip_spaces].
  destruct (PyStr.isspace c); [|done].
  intros H. apply contains_cons. by apply IH.
Qed.

Lemma match_next_here_sound (s url : string) :
  match_next_here s = Some url ->
  PyStr.truthy url = true /\
  PyStr.has_char ">" url = false /\
  PyStr.starts_with ("<" +:+ url +:+ ">;") s = true /\
  PyStr.contains rel_next s = true.
Proof.
  unfold match_next_here. destruct s as [|c rest]; [done|].
  destruct (Ascii.eqb c "<") eqn:Ec; [|done]. apply Ascii.eqb_eq in Ec as ->.
  destruct (span_url rest) as [u r] eqn:Es.
  destruct (PyStr.truthy u) eqn:Eu; [|done].
  destruct r as [|c1 [|c2 r'']]; try done.
  destruct (Ascii.eqb c1 ">") eqn:E1; [|done].
  destruct (Ascii.eqb c2 ";") eqn:E2; [|done].
  destruct (PyStr.starts_with rel_next (skip_spaces r'')) eqn:E3; [|done].
  simpl. intros [= <-].
  apply Ascii.eqb_eq in E1 as ->. apply Ascii.eqb_eq in E2 as ->.
  destruct (span_url_spec _ _ _ Es) as [-> Hu].
  split_and!; [done|done| |].
  - exact (starts_with_app3 "<" u ">;" r'').
  - apply (contains_app_r rel_next u (String ">" (String ";" r''))).
    apply contains_cons, contains_cons, contains_skip_spaces.
    by apply starts_with_contains.
Qed.

(** X13: the URL the pattern [<([^>]+)>;\s*rel="next"] extracts from a [Link]
    header is never empty and holds no [>]; the header holds it between
    [<] and [>;], and holds [rel="next"]: a header that passes the pattern
    passes the engine's earlier test for [rel="next"] too. *)
Theorem re_search_next_sound (h url : string) :
  re_search_next h = Some url ->
  PyStr.truthy url = true /\
  PyStr.has_char ">" url = false /\
  PyStr.contains ("<" +:+ url +:+ ">;") h = true /\
  PyStr.contains rel_next h = true.
Proof.
  induction h as [|c h IH]; intros H.
  - discriminate H.
  - cbn [re_search_next] in H.
    destruct (match_next_here (String c h)) as [u|] eqn:Em.
    + injection H as ->.
      destruct (match_next_here_sound _ _ Em) as (H1 & H2 & H3 & H4).
      split_and!; [done|done| |done]. by apply starts_with_contains.
    + destruct (IH H) as (H1 & H2 & H3 & H4).
      split_and!; [done|done|by apply contains_cons..].
Qed.

Lemma re_search_next_sound_witness :
  let h := "<https://api.fda.gov/drug/event.json?skip=0>; rel=" +:+ dq +:+ "prev" +:+ dq
           +:+ ", <https://api.fda.gov/drug/event.json?search_after=0%3D12>;  rel="
           +:+ dq +:+ "next" +:+ dq in
  let url := "https://api.fda.gov/drug/event.json?search_after=0%3D12" in
  re_search_next h = Some url /\
  PyStr.truthy url = true /\
  PyStr.has_char ">" url = false /\
  PyStr.contains ("<" +:+ url +:+ ">;") h = true /\
  PyStr.contains rel_next h = true.
Proof.
  intros h url. split; [reflexivity|].
  apply (re_search_next_sound h url). reflexivity.
Defined.

(** ** The pagination engine, step by step *)

Section EngineRuns.

Context {World : Type}.
Variable session_get : World -> string -> Params -> FetchOutcome * World.
Variable next_url_params : string -> gmap string (list string).

Local Abbreviation api_search := (api_search session_get next_url_params).
Local Abbreviation api_search_body := (api_search_body session_get next_url_params).
Local Abbreviation offset_phase := (offset_phase session_get).
Local Abbreviation offset_loop := (offset_loop session_get).
Local Abbreviation offset_body := (offset_body session_get).
Local Abbreviation offset_fetch := (offset_fetch session_get).
Local Abbreviation cursor_loop := (cursor_loop session_get next_url_params).
Local Abbreviation cursor_phase := (cursor_phase session_get next_url_params).

(** The batch size an iteration of the skip/limit loop computes. *)
Definition offset_batch (us : Z) (p : Pager) : Z :=
  match total_available p with
  | Some total =>
      Z.min (count_min (remaining p) 1000) (total - (current_skip p - us))
  | None => count_min (remaining p) 1000
  end.

Definition offset_params (c : Client World) (us : Z) (p : Pager) : Params :=
  _build_params (caller_query c) (Some (offset_batch us p)) (Some (current_skip p)).

(** What precedes every request. *)
Definition asking (ep : string) (params : Params) (m : Mode) : list Event :=
  [Logged INFO (MsgQuerying ep params m); MinuteAcquire; DayAcquire].

(** The pagination variables after a page was appended in skip/limit
    mode, before the loop decides to go on. *)
Definition offset_got (p : Pager) (r : Response) : Pager :=
  {| all_results := (all_results p ++ batch_of r)%list;
     current_skip := current_skip p; remaining := remaining p;
     total_available := Some (total_of r) |}.

Definition offset_next (p : Pager) (r : Response) : Pager :=
  {| all_results := (all_results p ++ batch_of r)%list;
     current_skip := current_skip p + len (batch_of r);
     remaining := count_sub (remaining p) (len (batch_of r));
     total_available := Some (total_of r) |}.

(** The ways one iteration of the skip/limit loop can go. *)
Variant OffsetStep (us : Z) (ep : string) (p : Pager) (c : Client World)
  : Outcome (Step Pager) * Client World -> Prop :=
| OffsetExhausted (T : Z) :
    total_available p = Some T -> offset_batch us p <= 0 ->
    OffsetStep us ep p c
      (Return (Break p), extend c [Logged INFO MsgEndByTotal])
| OffsetFailed (o : FetchOutcome) (w' : World) :
    total_available p = None \/ 0 < offset_batch us p ->
    session_get (world c) ep (offset_params c us p) = (o, w') ->
    failed o = true ->
    OffsetStep us ep p c
      (Raise (exn_of o),
       advance c w' (asking ep (offset_params c us p) SkipLimit
                     ++ [SessionGet ep (offset_params c us p) o]))
| OffsetEmpty (r : Response) (w' : World) :
    total_available p = None \/ 0 < offset_batch us p ->
    session_get (world c) ep (offset_params c us p) = (Fetched r, w') ->
    batch_of r = [] ->
    OffsetStep us ep p c
      (Return (Break {| all_results := all_results p;
                        current_skip := current_skip p;
                        remaining := remaining p;
                        total_available := Some (total_of r) |}),
       advance c w' (asking ep (offset_params c us p) SkipLimit
                     ++ [SessionGet ep (offset_params c us p) (Fetched r);
                         Logged INFO (MsgNoMoreResults SkipLimit)]))
| OffsetPartial (r : Response) (w' : World) :
    total_available p = None \/ 0 < offset_batch us p ->
    session_get (world c) ep (offset_params c us p) = (Fetched r, w') ->
    batch_of r <> [] ->
    len (batch_of r) < offset_batch us p ->
    OffsetStep us ep p c
      (Return (Break (offset_got p r)),
       advance c w' (asking ep (offset_params c us p) SkipLimit
                     ++ [SessionGet ep (offset_params c us p) (Fetched r);
                         Logged INFO (MsgRetrieved
                                        (length (all_results p ++ batch_of r))
                                        (Some (total_of r)));
                         Logged INFO (MsgPartialBatch (length (batch_of r))
                                        (offset_batch us p))]))
| OffsetAll (r : Response) (w' : World) :
    total_available p = None \/ 0 < offset_batch us p ->
    session_get (world c) ep (offset_params c us p) = (Fetched r, w') ->
    batch_of r <> [] ->
    offset_batch us p <= len (batch_of r) ->
    total_of r <= len (all_results p ++ batch_of r) ->
    OffsetStep us ep p c
      (Return (Break (offset_got p r)),
       advance c w' (asking ep (offset_params c us p) SkipLimit
                     ++ [SessionGet ep (offset_params c us p) (Fetched r);
                         Logged INFO (MsgRetrieved
                                        (length (all_results p ++ batch_of r))
                                        (Some (total_of r)));
                         Logged INFO (MsgRetrievedAll (total_of r))]))
| OffsetContinue (r : Response) (w' : World) :
    total_available p = None \/ 0 < offset_batch us p ->
    session_get (world c) ep (offset_params c us p) = (Fetched r, w') ->
    batch_of r <> [] ->
    offset_batch us p <= len (batch_of r) ->
    len (all_results p ++ batch_of r) < total_of r ->
    OffsetStep us ep p c
      (Return (Continue (offset_next p r)),
       advance c w' (asking ep (offset_params c us p) SkipLimit
                     ++ [SessionGet ep (offset_params c us p) (Fetched r);
                         Logged INFO (MsgRetrieved
                                        (length (all_results p ++ batch_of r))
                                        (Some (total_of r)))])).

Lemma offset_fetch_step (us : Z) (ep : string) (p : Pager) (c : Client World) :
  total_available p = None \/ 0 < offset_batch us p ->
  OffsetStep us ep p c (offset_fetch ep (offset_batch us p) p c).
Proof.
  intros Hpos. unfold offset_fetch, bind, build_params, read_query, log, emit, fetch, ret.
  simpl. fold (offset_params c us p).
  destruct (session_get (world c) ep (offset_params c us p)) as [o w'] eqn:Hget.
  destruct o as [r|message|]; simpl.
  - destruct (batch_of r) as [|d ds] eqn:Eb.
    + simpl. rewrite <- !app_assoc. apply (OffsetEmpty us ep p c r w' Hpos Hget Eb).
    + assert (Hne : batch_of r <> []) by (rewrite Eb; discriminate).
      cbv beta iota. rewrite <- Eb. simpl.
      destruct (len (batch_of r) <? offset_batch us p) eqn:E1.
      * simpl. rewrite <- !app_assoc.
        apply (OffsetPartial us ep p c r w' Hpos Hget Hne). lia.
      * destruct (total_of r <=? len (all_results p ++ batch_of r)) eqn:E2;
          simpl; rewrite <- !app_assoc.
        -- apply (OffsetAll us ep p c r w' Hpos Hget Hne); lia.
        -- apply (OffsetContinue us ep p c r w' Hpos Hget Hne); lia.
  - rewrite <- !app_assoc.
    apply (OffsetFailed us ep p c (HTTPError message) w' Hpos Hget eq_refl).
  - rewrite <- !app_assoc.
    apply (OffsetFailed us ep p c RequestException w' Hpos Hget eq_refl).
Qed.

Lemma offset_body_step (us : Z) (ep : string) (p : Pager) (c : Client World) :
  OffsetStep us ep p c (offset_body us ep p c).
Proof.
  unfold offset_body. cbv zeta.
  destruct (total_available p) as [T|] eqn:Et.
  - destruct (Z.min (count_min (remaining p) 1000) (T - (current_skip p - us)) <=? 0)
      eqn:E.
    + apply (OffsetExhausted us ep p c T Et). unfold offset_batch. rewrite Et. lia.
    + replace (Z.min (count_min (remaining p) 1000) (T - (current_skip p - us)))
        with (offset_batch us p) by (unfold offset_batch; by rewrite Et).
      apply offset_fetch_step. right. unfold offset_batch. rewrite Et. lia.
  - replace (count_min (remaining p) 1000) with (offset_batch us p)
      by (unfold offset_batch; by rewrite Et).
    apply offset_fetch_step. by left.
Qed.

(** The pagination variables after a page was appended in search_after
    mode. *)
Definition cursor_got (p : Pager) (r : Response) : Pager :=
  {| all_results := (all_results p ++ batch_of r)%list;
     current_skip := current_skip p;
     remaining := count_sub (remaining p) (len (batch_of r));
     total_available := total_available p |}.

Definition cursor_asked (ep : string) (params : Params) (p : Pager)
    (r : Response) : list Event :=
  (asking ep params SearchAfter
   ++ [SessionGet ep params (Fetched r);
       Logged INFO (MsgRetrieved (length (all_results p ++ batch_of r))
                      (total_available p))])%list.

(** The ways one iteration of the search_after loop can go: it ends the
    loop with an outcome, or the loop goes on with the parameters of the
    next link. *)
Variant CursorStep (ep : string) (params : Params) (p : Pager)
    (c : Client World)
  : Outcome Pager * Client World + Params * Pager * Client World -> Prop :=
| CursorFailed (o : FetchOutcome) (w' : World) :
    session_get (world c) ep params = (o, w') ->
    failed o = true ->
    CursorStep ep params p c
      (inl (Raise (exn_of o),
            advance c w' (asking ep params SearchAfter ++ [SessionGet ep params o])))
| CursorEmpty (r : Response) (w' : World) :
    session_get (world c) ep params = (Fetched r, w') ->
    batch_of r = [] ->
    CursorStep ep params p c
      (inl (Return p,
            advance c w' (asking ep params SearchAfter
                          ++ [SessionGet ep params (Fetched r);
                              Logged INFO (MsgNoMoreResults SearchAfter)])))
| CursorNoTotal (r : Response) (w' : World) :
    session_get (world c) ep params = (Fetched r, w') ->
    batch_of r <> [] ->
    total_available p = None ->
    CursorStep ep params p c
      (inl (Raise ExnTypeError, advance c w' (cursor_asked ep params p r)))
| CursorAll (r : Response) (w' : World) (T : Z) :
    session_get (world c) ep params = (Fetched r, w') ->
    batch_of r <> [] ->
    total_available p = Some T ->
    T <= len (all_results p ++ batch_of r) ->
    CursorStep ep params p c
      (inl (Return (cursor_got p r),
            advance c w' (cursor_asked ep params p r
                          ++ [Logged INFO (MsgRetrievedAll T)])))
| CursorNoLink (r : Response) (w' : World) (T : Z) :
    session_get (world c) ep params = (Fetched r, w') ->
    batch_of r <> [] ->
    total_available p = Some T ->
    len (all_results p ++ batch_of r) < T ->
    PyStr.contains rel_next (default "" (header_link r)) = false ->
    CursorStep ep params p c
      (inl (Return (cursor_got p r),
            advance c w' (cursor_asked ep params p r ++ [Logged INFO MsgNoLink])))
| CursorBadLink (r : Response) (w' : World) (T : Z) :
    session_get (world c) ep params = (Fetched r, w') ->
    batch_of r <> [] ->
    total_available p = Some T ->
    len (all_results p ++ batch_of r) < T ->
    PyStr.contains rel_next (default "" (header_link r)) = true ->
    re_search_next (default "" (header_link r)) = None ->
    CursorStep ep params p c
      (inl (Return (cursor_got p r),
            advance c w' (cursor_asked ep params p r
                          ++ [Logged WARNING MsgBadLink])))
| CursorNext (r : Response) (w' : World) (T : Z) (url : string) :
    session_get (world c) ep params = (Fetched r, w') ->
    batch_of r <> [] ->
    total_available p = Some T ->
    len (all_results p ++ batch_of r) < T ->
    PyStr.contains rel_next (default "" (header_link r)) = true ->
    re_search_next (default "" (header_link r)) = Some url ->
    CursorStep ep params p c
      (inr (single_values (next_url_params url), cursor_got p r,
            advance c w' (cursor_asked ep params p r))).

(** The loop after a step. *)
Definition cursor_after (fuel : nat) (ep : string)
    (s : Outcome Pager * Client World + Params * Pager * Client World)
  : Outcome Pager * Client World :=
  match s with
  | inl res => res
  | inr (params', p', c') => cursor_loop fuel ep params' p' c'
  end.

Lemma cursor_loop_step (ep : string) (params : Params) (p : Pager)
    (c : Client World) :
  count_pos (remaining p) = true ->
  exists s, CursorStep ep params p c s /\
            forall fuel, cursor_loop (S fuel) ep params p c = cursor_after fuel ep s.
Proof.
  intros Hrem.
  destruct (session_get (world c) ep params) as [o w'] eqn:Hget.
  assert (Hunfold : forall fuel, cursor_loop (S fuel) ep params p c =
    match o with
    | Fetched r =>
        match batch_of r with
        | [] => (Return p,
                 advance c w' (asking ep params SearchAfter
                               ++ [SessionGet ep params (Fetched r);
                                   Logged INFO (MsgNoMoreResults SearchAfter)]))
        | _ :: _ =>
            match total_available p with
            | None => (Raise ExnTypeError, advance c w' (cursor_asked ep params p r))
            | Some T =>
                if T <=? len (all_results p ++ batch_of r) then
                  (Return (cursor_got p r),
                   advance c w' (cursor_asked ep params p r
                                 ++ [Logged INFO (MsgRetrievedAll T)]))
                else if negb (PyStr.contains rel_next (default "" (header_link r))) then
                  (Return (cursor_got p r),
                   advance c w' (cursor_asked ep params p r ++ [Logged INFO MsgNoLink]))
                else
                  match re_search_next (default "" (header_link r)) with
                  | None =>
                      (Return (cursor_got p r),
                       advance c w' (cursor_asked ep params p r
                                     ++ [Logged WARNING MsgBadLink]))
                  | Some url =>
                      cursor_loop fuel ep (single_values (next_url_params url))
                        (cursor_got p r) (advance c w' (cursor_asked ep params p r))
                  end
            end
        end
    | _ => (Raise (exn_of o),
            advance c w' (asking ep params SearchAfter ++ [SessionGet ep params o]))
    end).
  { intros fuel. simpl. rewrite Hrem.
    unfold bind, log, emit, fetch, ret. simpl. rewrite Hget.
    destruct o as [r|message|]; simpl;
      [|unfold advance; simpl; rewrite <- !app_assoc; reflexivity..].
    destruct (batch_of r) as [|d ds] eqn:Eb.
    { unfold advance; simpl; rewrite <- !app_assoc; reflexivity. }
    cbv beta iota. rewrite <- Eb. simpl.
    unfold cursor_got, cursor_asked, advance. simpl.
    destruct (total_available p) as [T|];
      [|rewrite <- !app_assoc; reflexivity].
    destruct (T <=? len (all_results p ++ batch_of r));
      [simpl; rewrite <- !app_assoc; reflexivity|].
    destruct (negb (PyStr.contains rel_next (default "" (header_link r))));
      [simpl; rewrite <- !app_assoc; reflexivity|].
    destruct (re_search_next (default "" (header_link r)));
      simpl; rewrite <- !app_assoc; reflexivity. }
  destruct o as [r|message|].
  - destruct (batch_of r) as [|d ds] eqn:Eb.
    + eexists (inl _). split; [apply (CursorEmpty ep params p c r w' Hget Eb)|].
      intros fuel. rewrite Hunfold. reflexivity.
    + assert (Hne : batch_of r <> []) by (rewrite Eb; discriminate).
      rewrite <- Eb in Hunfold.
      destruct (total_available p) as [T|] eqn:Et.
      * destruct (T <=? len (all_results p ++ batch_of r)) eqn:E1.
        { eexists (inl _). split;
            [apply (CursorAll ep params p c r w' T Hget Hne Et); lia|].
          intros fuel. rewrite Hunfold. reflexivity. }
        destruct (PyStr.contains rel_next (default "" (header_link r))) eqn:E2.
        -- destruct (re_search_next (default "" (header_link r))) as [url|] eqn:E3.
           ++ eexists (inr _). split;
                [apply (CursorNext ep params p c r w' T url Hget Hne Et); [lia|done..]|].
              intros fuel. rewrite Hunfold. reflexivity.
           ++ eexists (inl _). split;
                [apply (CursorBadLink ep params p c r w' T Hget Hne Et); [lia|done..]|].
              intros fuel. rewrite Hunfold. reflexivity.
        -- eexists (inl _). split;
             [apply (CursorNoLink ep params p c r w' T Hget Hne Et); [lia|done]|].
           intros fuel. rewrite Hunfold. reflexivity.
      * eexists (inl _). split;
          [apply (CursorNoTotal ep params p c r w' Hget Hne Et)|].
        intros fuel. rewrite Hunfold. reflexivity.
  - eexists (inl _). split;
      [apply (CursorFailed ep params p c (HTTPError message) w' Hget eq_refl)|].
    intros fuel. rewrite Hunfold. reflexivity.
  - eexists (inl _). split;
      [apply (CursorFailed ep params p c RequestException w' Hget eq_refl)|].
    intros fuel. rewrite Hunfold. reflexivity.
Qed.

Lemma cursor_loop_done (fuel : nat) (ep : string) (params : Params)
    (p : Pager) (c : Client World) :
  count_pos (remaining p) = false ->
  cursor_loop fuel ep params p c = (Return p, c).
Proof. intros H. destruct fuel; simpl; rewrite H; reflexivity. Qed.

Lemma cursor_loop_O (ep : string) (params : Params) (p : Pager)
    (c : Client World) :
  count_pos (remaining p) = true ->
  cursor_loop 0 ep params p c = (OutOfFuel, c).
Proof. intros H. simpl. rewrite H. reflexivity. Qed.

Lemma offset_loop_O (us : Z) (ep : string) (p : Pager) (c : Client World) :
  count_pos (remaining p) && (current_skip p <? 25000) = true ->
  offset_loop 0 us ep p c = (OutOfFuel, c).
Proof. intros H. simpl. rewrite H. reflexivity. Qed.

(** How a step of the skip/limit loop ends the loop. *)
Definition offset_finish (res : Outcome (Step Pager) * Client World)
  : Outcome Pager * Client World :=
  match res with
  | (Return (Break p'), c') => (Return p', c')
  | (Return (Continue p'), c') => (Return p', c')
  | (Raise e, c') => (Raise e, c')
  | (OutOfFuel, c') => (OutOfFuel, c')
  end.

(** Induction over the iterations of the skip/limit loop. *)
Lemma offset_loop_rule (us : Z) (ep : string)
    (P : Pager -> Client World -> Outcome Pager * Client World -> Prop) :
  (forall p c, count_pos (remaining p) && (current_skip p <? 25000) = false ->
               P p c (Return p, c)) ->
  (forall p c, count_pos (remaining p) && (current_skip p <? 25000) = true ->
               P p c (OutOfFuel, c)) ->
  (forall p c res,
      count_pos (remaining p) && (current_skip p <? 25000) = true ->
      OffsetStep us ep p c res ->
      (forall p' c', res <> (Return (Continue p'), c')) ->
      P p c (offset_finish res)) ->
  (forall p c p' c' res,
      count_pos (remaining p) && (current_skip p <? 25000) = true ->
      OffsetStep us ep p c (Return (Continue p'), c') ->
      P p' c' res -> P p c res) ->
  forall fuel p c, P p c (offset_loop fuel us ep p c).
Proof.
  intros Hdone Hfuel Hstop Hcont.
  induction fuel as [|fuel IH]; intros p c;
    destruct (count_pos (remaining p) && (current_skip p <? 25000)) eqn:G.
  - rewrite offset_loop_O by assumption. by apply Hfuel.
  - rewrite offset_loop_done by assumption. by apply Hdone.
  - rewrite offset_loop_S by assumption.
    pose proof (offset_body_step us ep p c) as Hstep.
    destruct (offset_body us ep p c) as [[[p'|p']|e|] c'].
    + eapply Hcont; [exact G|exact Hstep|apply IH].
    + apply (Hstop p c _ G Hstep). intros ? ?; discriminate.
    + apply (Hstop p c _ G Hstep). intros ? ?; discriminate.
    + apply (Hstop p c _ G Hstep). intros ? ?; discriminate.
  - rewrite offset_loop_done by assumption. by apply Hdone.
Qed.

(** Induction over the iterations of the search_after loop. *)
Lemma cursor_loop_rule (ep : string)
    (P : Params -> Pager -> Client World -> Outcome Pager * Client World -> Prop) :
  (forall pa p c, count_pos (remaining p) = false -> P pa p c (Return p, c)) ->
  (forall pa p c, count_pos (remaining p) = true -> P pa p c (OutOfFuel, c)) ->
  (forall pa p c res,
      count_pos (remaining p) = true ->
      CursorStep ep pa p c (inl res) -> P pa p c res) ->
  (forall pa p c pa' p' c' res,
      count_pos (remaining p) = true ->
      CursorStep ep pa p c (inr (pa', p', c')) ->
      P pa' p' c' res -> P pa p c res) ->
  forall fuel pa p c, P pa p c (cursor_loop fuel ep pa p c).
Proof.
  intros Hdone Hfuel Hstop Hcont.
  induction fuel as [|fuel IH]; intros pa p c;
    destruct (count_pos (remaining p)) eqn:G.
  - rewrite cursor_loop_O by assumption. by apply Hfuel.
  - rewrite cursor_loop_done by assumption. by apply Hdone.
  - destruct (cursor_loop_step ep pa p c G) as (s & Hs & E). rewrite E.
    destruct s as [res|[[pa' p'] c']]; simpl.
    + by apply Hstop.
    + eapply Hcont; [exact G|exact Hs|apply IH].
  - rewrite cursor_loop_done by assumption. by apply Hdone.
Qed.

(** *** What holds of every run *)

Lemma limiter_order_app (st : nat) (e1 e2 : list Event) :
  limiter_order st e1 = true -> limiter_order 0 e2 = true ->
  limiter_order st (e1 ++ e2) = true.
Proof.
  revert st. induction e1 as [|e e1 IH]; intros st H1 H2; simpl in *.
  - apply Nat.eqb_eq in H1. by subst.
  - destruct e; apply andb_prop in H1 as [Hs H1]; rewrite Hs; simpl; by apply IH.
Qed.

Lemma advance_self (c : Client World) : c = advance c (world c) [].
Proof. destruct c. unfold advance. simpl. by rewrite app_nil_r. Qed.

Lemma advance_twice (c c1 c2 : Client World) (w1 : World) (e1 e2 : list Event) :
  c1 = advance c w1 e1 -> c2 = advance c1 (world c2) e2 ->
  c2 = advance c (world c2) (e1 ++ e2).
Proof. intros -> ->. simpl. unfold advance. simpl. by rewrite app_assoc. Qed.

Lemma offset_batch_range (us : Z) (p : Pager) :
  count_pos (remaining p) = true ->
  total_available p = None \/ 0 < offset_batch us p ->
  1 <= offset_batch us p <= 1000.
Proof.
  unfold offset_batch. intros Hrem Hpos.
  destruct (total_available p) as [T|]; destruct (remaining p) as [n|];
    simpl in *; destruct Hpos as [Hn|Hpos]; try discriminate; lia.
Qed.

Lemma asking_page_limit (us : Z) (ep : string) (p : Pager) (c : Client World)
    (rest : list Event) :
  count_pos (remaining p) && (current_skip p <? 25000) = true ->
  total_available p = None \/ 0 < offset_batch us p ->
  Forall (page_request_ok (caller_query c)) rest ->
  Forall (page_request_ok (caller_query c))
    (asking ep (offset_params c us p) SkipLimit ++ rest).
Proof.
  intros G Hpos Hrest. apply andb_prop in G as [Hrem Hskip].
  repeat constructor; [|exact Hrest]. simpl.
  exists (offset_batch us p), (current_skip p).
  split_and!; [reflexivity|by apply offset_batch_range..|lia].
Qed.

Definition OffsetFacts (p : Pager) (c : Client World)
    (res : Outcome Pager * Client World) : Prop :=
  exists evs,
    res.2 = advance c (world res.2) evs /\
    limiter_order 0 evs = true /\
    Forall (page_request_ok (caller_query c)) evs /\
    match res.1 with
    | Return p' =>
        all_results p' = (all_results p ++ served evs)%list /\
        (is_Some (total_available p') \/
         (count_pos (remaining p) && (current_skip p <? 25000) = false /\ p' = p))
    | Raise e => e <> ExnTypeError
    | OutOfFuel => True
    end.

Lemma served_asking (ep : string) (params : Params) (m : Mode) (rest : list Event) :
  served (asking ep params m ++ rest) = served rest.
Proof. reflexivity. Qed.

Lemma offset_loop_facts (fuel : nat) (us : Z) (ep : string) (p : Pager)
    (c : Client World) :
  OffsetFacts p c (offset_loop fuel us ep p c).
Proof.
  revert fuel p c. apply offset_loop_rule.
  - intros p c G. exists []. simpl. split_and!; try done.
    + apply advance_self.
    + by rewrite app_nil_r.
    + by right.
  - intros p c G. exists []. simpl. split_and!; try done. apply advance_self.
  - intros p c res G Hstep Hnc.
    inversion Hstep as [T Et Hb|o w' Hpos Hget Hf|r w' Hpos Hget Hb|r w' Hpos Hget Hne Hb
                        |r w' Hpos Hget Hne Hb Ht|r w' Hpos Hget Hne Hb Ht]; subst;
      unfold OffsetFacts, offset_finish; cbn [fst snd].
    + exists [Logged INFO MsgEndByTotal]. simpl. split_and!; try done.
      * repeat constructor.
      * by rewrite app_nil_r.
      * left. by rewrite Et.
    + eexists. split_and!; [reflexivity|reflexivity| |].
      * apply asking_page_limit; [done..|repeat constructor].
      * by destruct o.
    + eexists. split_and!; [reflexivity|reflexivity| | |].
      * apply asking_page_limit; [done..|repeat constructor].
      * rewrite served_asking. unfold served. simpl. by rewrite Hb, !app_nil_r.
      * left. by eexists.
    + eexists. split_and!; [reflexivity|reflexivity| | |].
      * apply asking_page_limit; [done..|repeat constructor].
      * rewrite served_asking. unfold served. simpl. by rewrite !app_nil_r.
      * left. by eexists.
    + eexists. split_and!; [reflexivity|reflexivity| | |].
      * apply asking_page_limit; [done..|repeat constructor].
      * rewrite served_asking. unfold served. simpl. by rewrite !app_nil_r.
      * left. by eexists.
    + exfalso. by eapply Hnc.
  - intros p c p' c' res G Hstep (evs2 & Hc & Ho & Hf & Hres).
    inversion Hstep as [| | | | |r w' Hpos Hget Hne Hb Ht]; subst.
    eexists (_ ++ evs2)%list. split_and!.
    + eapply advance_twice; [reflexivity|exact Hc].
    + apply limiter_order_app; [reflexivity|exact Ho].
    + apply Forall_app. split; [|exact Hf].
      apply (asking_page_limit us ep p c); [done..|repeat constructor].
    + destruct res.1 as [pf|e|]; [|exact Hres|exact I].
      destruct Hres as [Hall Htot]. split.
      * rewrite Hall, served_app. unfold served at 2. simpl.
        by rewrite app_nil_r, <- app_assoc.
      * left. destruct Htot as [Hs|[_ ->]]; [exact Hs|]. by eexists.
Qed.

Definition CursorFacts (p : Pager) (c : Client World)
    (res : Outcome Pager * Client World) : Prop :=
  exists evs,
    res.2 = advance c (world res.2) evs /\
    limiter_order 0 evs = true /\
    Forall (page_request_ok (caller_query c)) evs /\
    match res.1 with
    | Return p' =>
        all_results p' = (all_results p ++ served evs)%list /\
        total_available p' = total_available p /\
        current_skip p' = current_skip p
    | Raise e => e = ExnTypeError -> total_available p = None
    | OutOfFuel => True
    end.

Lemma cursor_loop_facts (fuel : nat) (ep : string) (params : Params)
    (p : Pager) (c : Client World) :
  CursorFacts p c (cursor_loop fuel ep params p c).
Proof.
  revert fuel params p c.
  apply (cursor_loop_rule ep (fun _ p c res => CursorFacts p c res)).
  - intros pa p c G. exists []. simpl. split_and!; try done.
    + apply advance_self.
    + by rewrite app_nil_r.
  - intros pa p c G. exists []. simpl. split_and!; try done. apply advance_self.
  - intros pa p c res G Hstep.
    inversion Hstep as [o w' Hget Hf|r w' Hget Hb|r w' Hget Hne Et|r w' T Hget Hne Et Hl
                        |r w' T Hget Hne Et Hl Hc|r w' T Hget Hne Et Hl Hc Hs|];
      subst; unfold CursorFacts; cbn [fst snd].
    + eexists. split_and!; [reflexivity|reflexivity|repeat constructor|].
      by destruct o.
    + eexists. split_and!; [reflexivity|reflexivity|repeat constructor| |done..].
      unfold served. simpl. by rewrite Hb, !app_nil_r.
    + eexists. split_and!; [reflexivity|reflexivity|repeat constructor|done].
    + eexists. split_and!; [reflexivity|reflexivity|repeat constructor| |done..].
      unfold cursor_asked, served. simpl. by rewrite !app_nil_r.
    + eexists. split_and!; [reflexivity|reflexivity|repeat constructor| |done..].
      unfold cursor_asked, served. simpl. by rewrite !app_nil_r.
    + eexists. split_and!; [reflexivity|reflexivity|repeat constructor| |done..].
      unfold cursor_asked, served. simpl. by rewrite !app_nil_r.
  - intros pa p c pa' p' c' res G Hstep (evs2 & Hc & Ho & Hf & Hres).
    inversion Hstep as [| | | | | |r w' T url Hget Hne Et Hl Hcn Hs]; subst.
    eexists (_ ++ evs2)%list. split_and!.
    + eapply advance_twice; [reflexivity|exact Hc].
    + apply limiter_order_app; [reflexivity|exact Ho].
    + apply Forall_app. split; [repeat constructor|exact Hf].
    + destruct res.1 as [pf|e|]; [|exact Hres|exact I].
      destruct Hres as (Hall & Htot & Hcur). split_and!; [|done..].
      rewrite Hall, served_app. unfold served at 2. simpl.
      by rewrite app_nil_r, <- app_assoc.
Qed.

Definition RunFacts (c : Client World)
    (res : Outcome QueryResult * Client World) : Prop :=
  exists evs,
    res.2 = advance c (world res.2) evs /\
    limiter_order 0 evs = true /\
    Forall (page_request_ok (caller_query c)) evs /\
    match res.1 with
    | Return qr => records qr = served evs
    | Raise e => e = ExnTypeError -> 25000 <= user_skip_of (caller_query c)
    | OutOfFuel => True
    end.

Lemma advance_fields (c c' : Client World) (evs : list Event) :
  c' = advance c (world c') evs ->
  caller_query c' = caller_query c /\ trace c' = (trace c ++ evs)%list.
Proof. intros ->. by split. Qed.

Lemma advance_intro (c c' : Client World) (evs : list Event) :
  caller_query c' = caller_query c -> trace c' = (trace c ++ evs)%list ->
  c' = advance c (world c') evs.
Proof. destruct c'. unfold advance. simpl. by intros -> ->. Qed.

Ltac same_client :=
  apply advance_intro; unfold bind; simpl;
  repeat match goal with H : caller_query _ = _ |- _ => rewrite H; clear H end;
  repeat match goal with H : trace _ = _ |- _ => rewrite H; clear H end;
  simpl; rewrite <- ?app_assoc; done.

Lemma api_search_body_facts (fuel : nat) (c : Client World) :
  RunFacts c (api_search_body fuel c).
Proof.
  unfold api_search_body, bind.
  rewrite (offset_phase_unfold session_get fuel c). cbv zeta.
  set (q := caller_query c).
  set (pre := if unlimited_mode q then [Logged INFO MsgUnlimited] else []).
  assert (Hpre : limiter_order 0 pre = true /\ Forall (page_request_ok (caller_query c)) pre /\ served pre = [])
    by (subst pre; destruct (unlimited_mode q); split_and!; try done; repeat constructor).
  destruct Hpre as (Hpo & Hpf & Hps).
  destruct (offset_loop_facts fuel (user_skip_of q) (endpoint_of q) (initial_pager q)
              (extend c pre)) as (evs1 & Hc1 & Ho1 & Hf1 & Hres1).
  destruct (offset_loop fuel (user_skip_of q) (endpoint_of q) (initial_pager q)
              (extend c pre)) as [[p1|e|] c1]; cbn [fst snd] in *.
  - destruct Hres1 as [Hall1 Htot1]. simpl in Hall1.
    apply advance_fields in Hc1 as [Hq1 Ht1]. simpl in Hq1, Ht1.
    unfold cursor_needed.
    destruct (count_pos (remaining p1) && (25000 <=? current_skip p1)) eqn:G.
    + destruct (total_available p1) as [T|] eqn:Et.
      * unfold ret at 1. destruct (len (all_results p1) <? T) eqn:Hlt.
        -- unfold cursor_phase, bind, log, emit, read_query, build_params, ret.
           cbn [caller_query].
           destruct (negb (field_truthy (sort (caller_query c1)))).
           ++ unfold make_result, read_query, ret. cbn [fst snd world caller_query].
              exists ((pre ++ evs1) ++ [Logged INFO MsgSwitching; Logged WARNING MsgNoSort])%list.
              split_and!.
              ** same_client.
              ** apply limiter_order_app; [by apply limiter_order_app|done].
              ** apply Forall_app. split; [by apply Forall_app|repeat constructor].
              ** cbn [records]. rewrite Hall1, !served_app, Hps. simpl.
                 by rewrite app_nil_r.
           ++ unfold bind, read_query. cbn beta iota.
              match goal with
              | |- context [cursor_loop fuel ?ep ?pa ?p ?cc] =>
                  destruct (cursor_loop_facts fuel ep pa p cc) as (evs2 & Hc2 & Ho2 & Hf2 & Hres2);
                  destruct (cursor_loop fuel ep pa p cc) as [[p2|e|] c2]
              end; cbn [fst snd] in *;
              apply advance_fields in Hc2 as [Hq2 Ht2]; simpl in Hq2, Ht2, Hf2;
              rewrite Hq1 in Hf2.
              ** destruct Hres2 as (Hall2 & _).
                 unfold make_result, read_query, ret. cbn [fst snd world records].
                 exists ((pre ++ evs1) ++ [Logged INFO MsgSwitching] ++ evs2)%list.
                 split_and!.
                 --- same_client.
                 --- apply limiter_order_app; [by apply limiter_order_app|].
                     by apply (limiter_order_app 0 [Logged INFO MsgSwitching]).
                 --- apply Forall_app. split; [by apply Forall_app|].
                     apply Forall_app. split; [repeat constructor|done].
                 --- by rewrite Hall2, Hall1, !served_app, Hps.
              ** exists ((pre ++ evs1) ++ [Logged INFO MsgSwitching] ++ evs2)%list.
                 split_and!.
                 --- same_client.
                 --- apply limiter_order_app; [by apply limiter_order_app|].
                     by apply (limiter_order_app 0 [Logged INFO MsgSwitching]).
                 --- apply Forall_app. split; [by apply Forall_app|].
                     apply Forall_app. split; [repeat constructor|done].
                 --- intros He. apply Hres2 in He. congruence.
              ** exists ((pre ++ evs1) ++ [Logged INFO MsgSwitching] ++ evs2)%list.
                 split_and!; [|..|done].
                 --- same_client.
                 --- apply limiter_order_app; [by apply limiter_order_app|].
                     by apply (limiter_order_app 0 [Logged INFO MsgSwitching]).
                 --- apply Forall_app. split; [by apply Forall_app|].
                     apply Forall_app. split; [repeat constructor|done].
        -- unfold make_result, read_query, ret. cbn [fst snd world records].
           exists (pre ++ evs1)%list. split_and!; [same_client| | |].
           ++ by apply limiter_order_app.
           ++ by apply Forall_app.
           ++ rewrite Hall1, served_app, Hps. done.
      * unfold raise. cbn [fst snd].
        exists (pre ++ evs1)%list. split_and!; [same_client| | |].
        ++ by apply limiter_order_app.
        ++ by apply Forall_app.
        ++ intros _. destruct Htot1 as [[T HT]|[_ ->]]; [congruence|].
           apply andb_prop in G as [_ G]. simpl in G. fold q. lia.
    + unfold ret at 1. unfold make_result, read_query, ret. cbn [fst snd world records].
      exists (pre ++ evs1)%list. split_and!; [same_client| | |].
      * by apply limiter_order_app.
      * by apply Forall_app.
      * rewrite Hall1, served_app, Hps. done.
  - apply advance_fields in Hc1 as [Hq1 Ht1]. simpl in Hq1, Ht1.
    exists (pre ++ evs1)%list. split_and!; [same_client| | |].
    + by apply limiter_order_app.
    + by apply Forall_app.
    + intros He. by apply Hres1 in He.
  - apply advance_fields in Hc1 as [Hq1 Ht1]. simpl in Hq1, Ht1.
    exists (pre ++ evs1)%list. split_and!; [same_client| | |done].
    + by apply limiter_order_app.
    + by apply Forall_app.
Qed.

Lemma api_search_facts (fuel : nat) (c : Client World) :
  RunFacts c (api_search fuel c).
Proof.
  unfold api_search, try_except.
  destruct (api_search_body_facts fuel c) as (evs & Hc & Ho & Hf & Hres).
  destruct (api_search_body fuel c) as [[qr|e|] c']; cbn [fst snd] in *;
    [by exists evs| |by exists evs].
  apply advance_fields in Hc as [Hq Ht].
  destruct e as [[msg|]| |]; unfold bind, log, emit, raise; cbn [fst snd].
  - exists (evs ++ [Logged ERROR (MsgApiError msg)])%list.
    split_and!; [same_client|by apply limiter_order_app| |done].
    apply Forall_app. split; [done|repeat constructor].
  - exists (evs ++ [Logged ERROR MsgHttpError])%list.
    split_and!; [same_client|by apply limiter_order_app| |done].
    apply Forall_app. split; [done|repeat constructor].
  - exists (evs ++ [Logged ERROR MsgNetworkError])%list.
    split_and!; [same_client|by apply limiter_order_app| |done].
    apply Forall_app. split; [done|repeat constructor].
  - exists evs. split_and!; [same_client|done..].
Qed.

(** ** The run as a whole, against any service *)

(** X14: the records of the result are the records of the pages the run was
    served, page after page in the order of the requests: no record is
    dropped, repeated or moved, whatever the service answers. *)
Theorem api_search_records_are_pages_served (fuel : nat) (c : Client World) :
  exists evs,
    trace (api_search fuel c).2 = (trace c ++ evs)%list /\
    forall qr, (api_search fuel c).1 = Return qr -> records qr = served evs.
Proof.
  destruct (api_search_facts fuel c) as (evs & Hc & _ & _ & Hres).
  apply advance_fields in Hc as [_ Ht]. exists evs. split; [exact Ht|].
  intros qr Hqr. by rewrite Hqr in Hres.
Qed.

(** X15: every request is made right after one acquisition of the per-minute
    limiter followed by one of the daily limiter, and neither limiter is
    acquired otherwise. *)
Theorem api_search_limiters_before_each_request (fuel : nat) (c : Client World) :
  exists evs,
    trace (api_search fuel c).2 = (trace c ++ evs)%list /\
    limiter_order 0 evs = true.
Proof.
  destruct (api_search_facts fuel c) as (evs & Hc & Ho & _).
  apply advance_fields in Hc as [_ Ht]. by exists evs.
Qed.

(** X16: every request of the skip/limit phase is built from the caller's query
    for a batch of at least 1 and at most 1000 records, at an offset below
    25000. *)
Theorem api_search_offset_requests_bounded (fuel : nat) (c : Client World) :
  exists evs,
    trace (api_search fuel c).2 = (trace c ++ evs)%list /\
    Forall (page_request_ok (caller_query c)) evs.
Proof.
  destruct (api_search_facts fuel c) as (evs & Hc & _ & Hf & _).
  apply advance_fields in Hc as [_ Ht]. by exists evs.
Qed.

(** X17: over responses whose [total] is an integer or missing and whose
    [results] is a list or missing, a run that starts from a skip below
    25000 never raises [TypeError]: [total_available] is still [None] at
    the comparisons with [len(all_results)] only when the skip/limit loop
    was not entered. *)
Theorem api_search_type_error_needs_skip_25000 (fuel : nat) (c : Client World) :
  user_skip_of (caller_query c) < 25000 ->
  (api_search fuel c).1 <> Raise ExnTypeError.
Proof.
  intros Hskip Hraise.
  destruct (api_search_facts fuel c) as (evs & _ & _ & _ & Hres).
  rewrite Hraise in Hres. specialize (Hres eq_refl). lia.
Qed.

(** *** A query for one page *)

Lemma fetches_app (e1 e2 : list Event) :
  fetches (e1 ++ e2) = (fetches e1 ++ fetches e2)%list.
Proof. unfold fetches. by rewrite omap_app. Qed.

Lemma offset_loop_one_page (f : nat) (c : Client World) :
  let q := caller_query c in
  let params := _build_params q (Some (user_limit_of q)) (Some (user_skip_of q)) in
  0 < user_limit_of q <= 1000 ->
  user_skip_of q < 25000 ->
  exists o w' tail,
    (offset_loop (S f) (user_skip_of q) (endpoint_of q) (initial_pager q) c).2 =
      advance c w' (asking (endpoint_of q) params SkipLimit
                    ++ SessionGet (endpoint_of q) params o :: tail) /\
    fetches tail = [] /\
    match (offset_loop (S f) (user_skip_of q) (endpoint_of q) (initial_pager q) c).1 with
    | Return p' =>
        count_pos (remaining p') && (25000 <=? current_skip p') = false
    | Raise e => e = exn_of o /\ tail = []
    | OutOfFuel => False
    end.
Proof.
  intros q params Hlim Hskip.
  assert (Hunl : unlimited_mode q = false) by (unfold unlimited_mode; lia).
  assert (Hrem : remaining (initial_pager q) = Fin (user_limit_of q))
    by (unfold initial_pager, remaining_of; simpl; by rewrite Hunl).
  assert (Hb : offset_batch (user_skip_of q) (initial_pager q) = user_limit_of q)
    by (unfold offset_batch; rewrite Hrem; simpl; lia).
  assert (Hp : offset_params c (user_skip_of q) (initial_pager q) = params)
    by (unfold offset_params; rewrite Hb; reflexivity).
  assert (G : count_pos (remaining (initial_pager q))
              && (current_skip (initial_pager q) <? 25000) = true).
  { rewrite Hrem. simpl. apply andb_true_intro. split; lia. }
  rewrite (offset_loop_S session_get f _ _ _ _ G).
  pose proof (offset_body_step (user_skip_of q) (endpoint_of q) (initial_pager q) c)
    as Hstep.
  remember (offset_body (user_skip_of q) (endpoint_of q) (initial_pager q) c) as res
    eqn:Eres.
  clear Eres.
  destruct Hstep as [T Et Hb0|o w' Hpos Hget Hf|r w' Hpos Hget Hb0|r w' Hpos Hget Hne Hb0
                     |r w' Hpos Hget Hne Hb0 Ht|r w' Hpos Hget Hne Hb0 Ht];
    try rewrite Hp in *; cbn [fst snd].
  - discriminate Et.
  - exists o, w', []. split_and!; done.
  - eexists (Fetched r), w', _. split_and!; [reflexivity|reflexivity|].
    simpl. apply andb_false_intro2. lia.
  - eexists (Fetched r), w', _. split_and!; [reflexivity|reflexivity|].
    simpl. apply andb_false_intro2. lia.
  - eexists (Fetched r), w', _. split_and!; [reflexivity|reflexivity|].
    simpl. apply andb_false_intro2. lia.
  - assert (Hdone : count_pos (remaining (offset_next (initial_pager q) r)) = false).
    { unfold offset_next. cbn [remaining]. rewrite Hrem. simpl. lia. }
    rewrite offset_loop_done by (by rewrite Hdone).
    eexists (Fetched r), w', _. split_and!; [reflexivity|reflexivity|].
    cbn [fst]. by rewrite Hdone.
Qed.

(** X18: a query that asks for at most 1000 records from a skip below 25000 is
    answered with exactly one request, built for the whole limit at the
    skip of the query, whatever the service answers; one turn of the loop
    is enough. *)
Theorem api_search_one_page_one_request (fuel : nat) (c : Client World) :
  0 < user_limit_of (caller_query c) <= 1000 ->
  user_skip_of (caller_query c) < 25000 ->
  (1 <= fuel)%nat ->
  exists evs o,
    trace (api_search fuel c).2 = (trace c ++ evs)%list /\
    fetches evs =
      [(_build_params (caller_query c) (Some (user_limit_of (caller_query c)))
          (Some (user_skip_of (caller_query c))), o)] /\
    (api_search fuel c).1 <> OutOfFuel.
Proof.
  intros Hlim Hskip Hfuel.
  destruct fuel as [|f]; [lia|].
  destruct (offset_loop_one_page f c Hlim Hskip) as (o & w' & tail & Hc & Htail & Hres).
  assert (Hunl : unlimited_mode (caller_query c) = false) by (unfold unlimited_mode; lia).
  unfold api_search, try_except, api_search_body, bind.
  rewrite (offset_phase_unfold session_get (S f) c). cbv zeta.
  rewrite Hunl, extend_nil.
  destruct (offset_loop (S f) (user_skip_of (caller_query c))
              (endpoint_of (caller_query c)) (initial_pager (caller_query c)) c)
    as [[p'|e|] c']; cbn [fst snd] in *; [| |done].
  - unfold cursor_needed. rewrite Hres. unfold ret, make_result, read_query, ret.
    cbn [fst snd]. eexists _, o. split_and!; [by rewrite Hc| |done].
    rewrite fetches_app. simpl. by rewrite Htail.
  - destruct Hres as [-> ->].
    destruct o as [r|[msg|]|]; simpl; unfold bind, log, emit, raise; cbn [fst snd].
    all: eexists _, _; split_and!;
      [rewrite Hc; simpl; by rewrite <- app_assoc|reflexivity|done].
Qed.

(** *** Termination *)

Lemma batch_len_pos (r : Response) : batch_of r <> [] -> 0 < len (batch_of r).
Proof. unfold len. destruct (batch_of r); [done|]. simpl. lia. Qed.

(** The skip/limit loop ends: every turn that goes on moves the offset up,
    and the loop stops at 25000. *)
Lemma offset_loop_terminates (us : Z) (ep : string) (p : Pager) (c : Client World) :
  exists n, forall fuel, (n <= fuel)%nat ->
    offset_loop fuel us ep p c = offset_loop n us ep p c /\
    (offset_loop n us ep p c).1 <> OutOfFuel.
Proof.
  remember (Z.to_nat (25000 - current_skip p)) as m eqn:Hm.
  revert p c Hm. induction m as [m IH] using lt_wf_ind. intros p c Hm.
  destruct (count_pos (remaining p) && (current_skip p <? 25000)) eqn:G.
  - pose proof (offset_body_step us ep p c) as Hstep.
    assert (Hstop : forall res, offset_body us ep p c = res ->
              (forall p' c', res <> (Return (Continue p'), c')) ->
              (offset_finish res).1 <> OutOfFuel ->
              exists n, forall fuel, (n <= fuel)%nat ->
                offset_loop fuel us ep p c = offset_loop n us ep p c /\
                (offset_loop n us ep p c).1 <> OutOfFuel).
    { intros res Hres Hnc Hfin. exists 1%nat. intros fuel Hfuel.
      destruct fuel as [|f]; [lia|].
      rewrite !(offset_loop_S session_get _ _ _ _ _ G), Hres.
      destruct res as [[[p'|p']|e|] c']; try done.
      exfalso. by eapply Hnc. }
    remember (offset_body us ep p c) as res eqn:Eres. symmetry in Eres.
    destruct Hstep as [T Et Hb0|o w' Hpos Hget Hf|r w' Hpos Hget Hb0|r w' Hpos Hget Hne Hb0
                       |r w' Hpos Hget Hne Hb0 Ht|r w' Hpos Hget Hne Hb0 Ht];
      try (by eapply Hstop; [reflexivity|discriminate|discriminate]).
    apply andb_prop in G as G'. destruct G' as [_ Hlt].
    pose proof (batch_len_pos r Hne) as Hlen.
    destruct (IH (Z.to_nat (25000 - current_skip (offset_next p r)))
                ltac:(subst m; simpl; lia) (offset_next p r)
                (advance c w' (asking ep (offset_params c us p) SkipLimit
                               ++ [SessionGet ep (offset_params c us p) (Fetched r);
                                   Logged INFO (MsgRetrieved
                                     (length (all_results p ++ batch_of r))
                                     (Some (total_of r)))]))
                eq_refl) as [n Hn].
    exists (S n). intros fuel Hfuel. destruct fuel as [|f]; [lia|].
    rewrite !(offset_loop_S session_get _ _ _ _ _ G), Eres.
    destruct (Hn f ltac:(lia)) as [H1 H2]. split; [exact H1|].
    exact (proj2 (Hn n ltac:(lia))).
  - exists 0%nat. intros fuel _. rewrite !(offset_loop_done session_get _ _ _ _ _ G).
    done.
Qed.

(** The search_after loop ends: every turn that goes on adds a record, and
    the loop stops when the total is reached. *)
Lemma cursor_loop_terminates (ep : string) (params : Params) (p : Pager)
    (c : Client World) :
  exists n, forall fuel, (n <= fuel)%nat ->
    cursor_loop fuel ep params p c = cursor_loop n ep params p c /\
    (cursor_loop n ep params p c).1 <> OutOfFuel.
Proof.
  remember (Z.to_nat (default 0 (total_available p) - len (all_results p))) as m eqn:Hm.
  revert params p c Hm. induction m as [m IH] using lt_wf_ind. intros params p c Hm.
  destruct (count_pos (remaining p)) eqn:G.
  - destruct (cursor_loop_step ep params p c G) as (s & Hstep & Hloop).
    destruct Hstep as [o w' Hget Hf|r w' Hget Hb|r w' Hget Hne Et|r w' T Hget Hne Et Hl
                       |r w' T Hget Hne Et Hl Hc|r w' T Hget Hne Et Hl Hc Hs
                       |r w' T url Hget Hne Et Hl Hc Hs];
      try (exists 1%nat; intros fuel Hfuel; destruct fuel as [|f]; [lia|];
           rewrite !Hloop; by simpl).
    pose proof (batch_len_pos r Hne) as Hlen.
    destruct (IH (Z.to_nat (default 0 (total_available (cursor_got p r))
                            - len (all_results (cursor_got p r))))
                ltac:(subst m; simpl; rewrite Et; simpl; rewrite len_app in *; lia)
                (single_values (next_url_params url)) (cursor_got p r)
                (advance c w' (cursor_asked ep params p r)) eq_refl) as [n Hn].
    exists (S n). intros fuel Hfuel. destruct fuel as [|f]; [lia|].
    rewrite !Hloop. simpl. destruct (Hn f ltac:(lia)) as [H1 H2]. split; [exact H1|].
    exact (proj2 (Hn n ltac:(lia))).
  - exists 0%nat. intros fuel _. rewrite !cursor_loop_done by done. done.
Qed.

(** X19: [api_search] terminates against every service: from every state of the
    client and of the service there is a number of turns of its loops from
    which on the run ends the same way, with a result or an exception. *)
Theorem api_search_terminates (c : Client World) :
  exists n, forall fuel, (n <= fuel)%nat ->
    api_search fuel c = api_search n c /\
    (api_search n c).1 <> OutOfFuel.
Proof.
  set (q := caller_query c).
  set (c0 := extend c (if unlimited_mode q then [Logged INFO MsgUnlimited] else [])).
  destruct (offset_loop_terminates (user_skip_of q) (endpoint_of q) (initial_pager q) c0)
    as [n1 H1].
  destruct (offset_loop n1 (user_skip_of q) (endpoint_of q) (initial_pager q) c0)
    as [[p1|e|] c1] eqn:E1.
  - set (c1' := {| world := world c1; caller_query := caller_query c1;
                   trace := (trace c1 ++ [Logged INFO MsgSwitching])%list |}).
    destruct (cursor_loop_terminates (endpoint_of q)
                (_build_params (caller_query c1) (Some (count_min (remaining p1) 1000)) None)
                p1 c1') as [n2 H2].
    exists (Nat.max n1 n2). intros fuel Hfuel.
    unfold api_search, try_except, api_search_body, bind.
    rewrite !(offset_phase_unfold session_get _ c). cbv zeta. fold q. fold c0.
    rewrite (proj1 (H1 fuel ltac:(lia))), (proj1 (H1 (Nat.max n1 n2) ltac:(lia))).
    unfold cursor_needed.
    destruct (count_pos (remaining p1) && (25000 <=? current_skip p1));
      [destruct (total_available p1) as [T|];
       [unfold ret at 1 3; destruct (len (all_results p1) <? T)|]|];
      try (split; [reflexivity|discriminate]).
    unfold cursor_phase, bind, log, emit, read_query, build_params, ret.
    cbn [fst snd world caller_query trace].
    destruct (negb (field_truthy (sort (caller_query c1))));
      [split; [reflexivity|discriminate]|].
    fold c1'. unfold bind, read_query. cbn beta iota.
    change (caller_query c1') with (caller_query c1).
    rewrite (proj1 (H2 fuel ltac:(lia))), (proj1 (H2 (Nat.max n1 n2) ltac:(lia))).
    split; [reflexivity|].
    pose proof (proj2 (H2 n2 ltac:(lia))) as Hend.
    destruct (cursor_loop n2 (endpoint_of q)
                (_build_params (caller_query c1) (Some (count_min (remaining p1) 1000)) None)
                p1 c1') as [[p2|e|] c2]; [discriminate| |done].
    by destruct e as [[msg|]| |].
  - exists n1. intros fuel Hfuel.
    unfold api_search, try_except, api_search_body, bind.
    rewrite !(offset_phase_unfold session_get _ c). cbv zeta. fold q. fold c0.
    rewrite (proj1 (H1 fuel ltac:(lia))), (proj1 (H1 n1 ltac:(lia))).
    split; [reflexivity|]. by destruct e as [[msg|]| |].
  - exfalso. by apply (proj2 (H1 n1 ltac:(lia))).
Qed.

(** *** Offsets and totals *)

Lemma offsets_ok_app (q : BaseQuery) (e1 e2 : list Event) (got : Z) :
  offsets_ok q got e1 -> offsets_ok q (got + len (served e1)) e2 ->
  offsets_ok q got (e1 ++ e2).
Proof.
  revert got. induction e1 as [|e e1 IH]; intros got H1 H2.
  - simpl in *. by rewrite Z.add_0_r in H2.
  - destruct e as [lvl msg| | |ep pa o]; simpl in *.
    + destruct msg; try by apply IH.
      match goal with m : Mode |- _ => destruct m end; [|by apply IH].
      destruct H1 as [Hb H1]. split; [exact Hb|by apply IH].
    + by apply IH.
    + by apply IH.
    + destruct o as [r| |]; try by apply IH.
      apply IH; [exact H1|].
      unfold served in *. simpl in H2. rewrite len_app in H2.
      by rewrite Z.add_assoc in H2.
Qed.

Lemma scan_total_app (st : Mode * option Z) (e1 e2 : list Event) :
  scan_total st (e1 ++ e2) = scan_total (scan_total st e1) e2.
Proof. apply fold_left_app. Qed.

Definition OffsetFacts2 (us : Z) (p : Pager) (c : Client World)
    (res : Outcome Pager * Client World) : Prop :=
  us = user_skip_of (caller_query c) ->
  current_skip p = us + len (all_results p) ->
  exists evs,
    res.2 = advance c (world res.2) evs /\
    offsets_ok (caller_query c) (len (all_results p)) evs /\
    forall p', res.1 = Return p' ->
      forall m, exists m',
        scan_total (m, total_available p) evs = (m', total_available p').

Lemma offset_loop_facts2 (fuel : nat) (us : Z) (ep : string) (p : Pager)
    (c : Client World) :
  OffsetFacts2 us p c (offset_loop fuel us ep p c).
Proof.
  revert fuel p c. apply offset_loop_rule.
  - intros p c G Hus Hinv. exists []. simpl. split_and!; try done.
    + apply advance_self.
    + intros p' [= <-] m. by exists m.
  - intros p c G Hus Hinv. exists []. simpl. split_and!; try done. apply advance_self.
  - intros p c res G Hstep Hnc Hus Hinv.
    assert (Hask : exists b, offset_params c us p =
              _build_params (caller_query c) (Some b)
                (Some (user_skip_of (caller_query c) + len (all_results p))))
      by (exists (offset_batch us p); unfold offset_params; rewrite Hinv, Hus; reflexivity).
    inversion Hstep as [T Et Hb|o w' Hpos Hget Hf|r w' Hpos Hget Hb|r w' Hpos Hget Hne Hb
                        |r w' Hpos Hget Hne Hb Ht|r w' Hpos Hget Hne Hb Ht]; subst res;
      unfold offset_finish; cbn [fst snd].
    + exists [Logged INFO MsgEndByTotal]. simpl. split_and!; try done.
      intros p' [= <-] m. by exists m.
    + eexists. split_and!; [reflexivity| |by destruct o].
      simpl. split; [exact Hask|]. by destruct o.
    + eexists. split_and!; [reflexivity| |].
      * simpl. split; [exact Hask|done].
      * intros p' [= <-] m. by exists SkipLimit.
    + eexists. split_and!; [reflexivity| |].
      * simpl. split; [exact Hask|done].
      * intros p' [= <-] m. by exists SkipLimit.
    + eexists. split_and!; [reflexivity| |].
      * simpl. split; [exact Hask|done].
      * intros p' [= <-] m. by exists SkipLimit.
    + exfalso. by eapply Hnc.
  - intros p c p' c' res G Hstep IH Hus Hinv.
    assert (Hask : exists b, offset_params c us p =
              _build_params (caller_query c) (Some b)
                (Some (user_skip_of (caller_query c) + len (all_results p))))
      by (exists (offset_batch us p); unfold offset_params; rewrite Hinv, Hus; reflexivity).
    inversion Hstep as [| | | | |r w' Hpos Hget Hne Hb Ht]; subst.
    destruct IH as (evs2 & Hc & Ho & Hs).
    { reflexivity. }
    { simpl. rewrite len_app. lia. }
    eexists (_ ++ evs2)%list. split_and!.
    + eapply advance_twice; [reflexivity|exact Hc].
    + simpl. split; [exact Hask|]. simpl in Ho. by rewrite len_app in Ho.
    + intros pf Hpf m. destruct (Hs pf Hpf SkipLimit) as [m' Hm'].
      exists m'. rewrite scan_total_app. exact Hm'.
Qed.

Definition CursorFacts2 (c : Client World)
    (res : Outcome Pager * Client World) : Prop :=
  exists evs,
    res.2 = advance c (world res.2) evs /\
    (forall q got, offsets_ok q got evs) /\
    (forall st, exists m', scan_total st evs = (m', st.2)).

Lemma cursor_loop_facts2 (fuel : nat) (ep : string) (params : Params)
    (p : Pager) (c : Client World) :
  CursorFacts2 c (cursor_loop fuel ep params p c).
Proof.
  revert fuel params p c.
  apply (cursor_loop_rule ep (fun _ _ c res => CursorFacts2 c res)).
  - intros pa p c G. exists []. simpl. split_and!; try done.
    + apply advance_self.
    + intros [m t]. by exists m.
  - intros pa p c G. exists []. simpl. split_and!; try done.
    + apply advance_self.
    + intros [m t]. by exists m.
  - intros pa p c res G Hstep.
    inversion Hstep as [o w' Hget Hf|r w' Hget Hb|r w' Hget Hne Et|r w' T Hget Hne Et Hl
                        |r w' T Hget Hne Et Hl Hc|r w' T Hget Hne Et Hl Hc Hs|];
      subst; unfold CursorFacts2; cbn [fst snd].
    + eexists. split_and!; [reflexivity| |].
      * intros q got. simpl. by destruct o.
      * intros [m t]. exists SearchAfter. by destruct o.
    + eexists. split_and!; [reflexivity|done|].
      intros [m t]. by exists SearchAfter.
    + eexists. split_and!; [reflexivity|done|].
      intros [m t]. by exists SearchAfter.
    + eexists. split_and!; [reflexivity|done|].
      intros [m t]. by exists SearchAfter.
    + eexists. split_and!; [reflexivity|done|].
      intros [m t]. by exists SearchAfter.
    + eexists. split_and!; [reflexivity|done|].
      intros [m t]. by exists SearchAfter.
  - intros pa p c pa' p' c' res G Hstep (evs2 & Hc & Ho & Hs).
    inversion Hstep as [| | | | | |r w' T url Hget Hne Et Hl Hcn Hsn]; subst.
    eexists (_ ++ evs2)%list. split_and!.
    + eapply advance_twice; [reflexivity|exact Hc].
    + intros q got. apply offsets_ok_app; [done|apply Ho].
    + intros [m t]. rewrite scan_total_app.
      destruct (Hs (scan_total (m, t) (cursor_asked ep pa p r))) as [m' Hm'].
      exists m'. exact Hm'.
Qed.

Definition RunFacts2 (c : Client World)
    (res : Outcome QueryResult * Client World) : Prop :=
  exists evs,
    res.2 = advance c (world res.2) evs /\
    offsets_ok (caller_query c) 0 evs /\
    forall qr, res.1 = Return qr ->
      total_results qr = default 0 (scan_total (SkipLimit, None) evs).2.

Lemma offsets_ok_logs (q : BaseQuery) (got : Z) (l1 : Level) (m1 : LogMsg) :
  (forall ep pa m, m1 <> MsgQuerying ep pa m) ->
  offsets_ok q got [Logged l1 m1].
Proof. intros H. destruct m1; try done. exfalso. by eapply H. Qed.

Lemma api_search_body_facts2 (fuel : nat) (c : Client World) :
  RunFacts2 c (api_search_body fuel c).
Proof.
  unfold api_search_body, bind.
  rewrite (offset_phase_unfold session_get fuel c). cbv zeta.
  set (q := caller_query c).
  set (pre := if unlimited_mode q then [Logged INFO MsgUnlimited] else []).
  assert (Hpre : offsets_ok q 0 pre /\ served pre = [] /\
                 forall st, scan_total st pre = st)
    by (subst pre; destruct (unlimited_mode q); split_and!; done).
  destruct Hpre as (Hpo & Hps & Hpt).
  destruct (offset_loop_facts2 fuel (user_skip_of q) (endpoint_of q) (initial_pager q)
              (extend c pre) eq_refl ltac:(simpl; unfold len; simpl; lia))
    as (evs1 & Hc1 & Ho1 & Hs1).
  destruct (offset_loop_facts fuel (user_skip_of q) (endpoint_of q) (initial_pager q)
              (extend c pre)) as (evs1' & Hc1' & _ & _ & Hres1).
  assert (evs1' = evs1) as ->.
  { apply advance_fields in Hc1 as [_ Ht], Hc1' as [_ Ht'].
    rewrite Ht in Ht'. by apply app_inv_head in Ht'. }
  clear Hc1'.
  simpl in Ho1. change (len []) with 0 in Ho1.
  assert (Ho : offsets_ok q 0 (pre ++ evs1))
    by (apply offsets_ok_app; [done|by rewrite Hps]).
  destruct (offset_loop fuel (user_skip_of q) (endpoint_of q) (initial_pager q)
              (extend c pre)) as [[p1|e|] c1]; cbn [fst snd] in *.
  - destruct Hres1 as [Hall1 _]. simpl in Hall1.
    destruct (Hs1 p1 eq_refl SkipLimit) as [m1 Hm1]. simpl in Hm1.
    apply advance_fields in Hc1 as [Hq1 Ht1]. simpl in Hq1, Ht1.
    unfold cursor_needed.
    destruct (count_pos (remaining p1) && (25000 <=? current_skip p1)) eqn:G.
    + destruct (total_available p1) as [T|] eqn:Et.
      * unfold ret at 1. destruct (len (all_results p1) <? T) eqn:Hlt.
        -- unfold cursor_phase, bind, log, emit, read_query, build_params, ret.
           cbn [caller_query].
           destruct (negb (field_truthy (sort (caller_query c1)))).
           ++ unfold make_result, read_query, ret. cbn [fst snd world caller_query].
              exists ((pre ++ evs1) ++ [Logged INFO MsgSwitching; Logged WARNING MsgNoSort])%list.
              split_and!.
              ** same_client.
              ** by apply offsets_ok_app.
              ** intros qr [= <-]. cbn [total_results].
                 rewrite !scan_total_app, Hpt, Hm1, Et. reflexivity.
           ++ unfold bind, read_query. cbn beta iota.
              match goal with
              | |- context [cursor_loop fuel ?ep ?pa ?p ?cc] =>
                  destruct (cursor_loop_facts2 fuel ep pa p cc) as (evs2 & Hc2 & Ho2 & Hs2);
                  destruct (cursor_loop_facts fuel ep pa p cc) as (evs2' & Hc2' & _ & _ & Hres2);
                  destruct (cursor_loop fuel ep pa p cc) as [[p2|e|] c2]
              end; cbn [fst snd] in *;
              (assert (evs2' = evs2) as -> by
                 (apply advance_fields in Hc2 as [_ Ht], Hc2' as [_ Ht'];
                  rewrite Ht in Ht'; by apply app_inv_head in Ht'));
              clear Hc2';
              apply advance_fields in Hc2 as [Hq2 Ht2]; simpl in Hq2, Ht2.
              ** destruct Hres2 as (_ & Htot2 & _).
                 unfold make_result, read_query, ret. cbn [fst snd world].
                 exists ((pre ++ evs1) ++ [Logged INFO MsgSwitching] ++ evs2)%list.
                 split_and!.
                 --- same_client.
                 --- apply offsets_ok_app; [done|]. by apply offsets_ok_app.
                 --- intros qr [= <-]. cbn [total_results].
                     rewrite !scan_total_app, Hpt, Hm1. simpl.
                     destruct (Hs2 (m1, Some T)) as [m2 ->].
                     rewrite Htot2, ?Et. reflexivity.
              ** exists ((pre ++ evs1) ++ [Logged INFO MsgSwitching] ++ evs2)%list.
                 split_and!; [same_client| |done].
                 apply offsets_ok_app; [done|]. by apply offsets_ok_app.
              ** exists ((pre ++ evs1) ++ [Logged INFO MsgSwitching] ++ evs2)%list.
                 split_and!; [same_client| |done].
                 apply offsets_ok_app; [done|]. by apply offsets_ok_app.
        -- unfold make_result, read_query, ret. cbn [fst snd world].
           exists (pre ++ evs1)%list. split_and!; [same_client|done|].
           intros qr [= <-]. cbn [total_results].
           rewrite !scan_total_app, Hpt, Hm1, Et. reflexivity.
      * unfold raise. cbn [fst snd].
        exists (pre ++ evs1)%list. split_and!; [same_client|done|done].
    + unfold ret at 1. unfold make_result, read_query, ret. cbn [fst snd world].
      exists (pre ++ evs1)%list. split_and!; [same_client|done|].
      intros qr [= <-]. cbn [total_results].
      rewrite !scan_total_app, Hpt, Hm1. reflexivity.
  - apply advance_fields in Hc1 as [Hq1 Ht1]. simpl in Hq1, Ht1.
    exists (pre ++ evs1)%list. split_and!; [same_client|done|done].
  - apply advance_fields in Hc1 as [Hq1 Ht1]. simpl in Hq1, Ht1.
    exists (pre ++ evs1)%list. split_and!; [same_client|done|done].
Qed.

Lemma api_search_facts2 (fuel : nat) (c : Client World) :
  RunFacts2 c (api_search fuel c).
Proof.
  unfold api_search, try_except.
  destruct (api_search_body_facts2 fuel c) as (evs & Hc & Ho & Hres).
  destruct (api_search_body fuel c) as [[qr|e|] c']; cbn [fst snd] in *;
    [by exists evs| |by exists evs].
  apply advance_fields in Hc as [Hq Ht].
  destruct e as [[msg|]| |]; unfold bind, log, emit, raise; cbn [fst snd].
  - exists (evs ++ [Logged ERROR (MsgApiError msg)])%list.
    split_and!; [same_client|by apply offsets_ok_app|done].
  - exists (evs ++ [Logged ERROR MsgHttpError])%list.
    split_and!; [same_client|by apply offsets_ok_app|done].
  - exists (evs ++ [Logged ERROR MsgNetworkError])%list.
    split_and!; [same_client|by apply offsets_ok_app|done].
  - exists evs. split_and!; [same_client|done..].
Qed.

(** X20: each request of the skip/limit phase is built from the caller's
    query at the offset [query.skip or 0] plus the number of records the
    requests before it were served, whatever the sizes of the pages. *)
Theorem api_search_offsets_follow_records (fuel : nat) (c : Client World) :
  exists evs,
    trace (api_search fuel c).2 = (trace c ++ evs)%list /\
    offsets_ok (caller_query c) 0 evs.
Proof.
  destruct (api_search_facts2 fuel c) as (evs & Hc & Ho & _).
  apply advance_fields in Hc as [_ Ht]. by exists evs.
Qed.

(** X21: [total_results] of the result is the total the last page fetched in
    skip/limit mode reported, and 0 when no page was fetched in that mode;
    the totals that search_after pages report are not read. *)
Theorem api_search_total_of_last_offset_page (fuel : nat) (c : Client World) :
  exists evs,
    trace (api_search fuel c).2 = (trace c ++ evs)%list /\
    forall qr, (api_search fuel c).1 = Return qr ->
      total_results qr = default 0 (scan_total (SkipLimit, None) evs).2.
Proof.
  destruct (api_search_facts2 fuel c) as (evs & Hc & _ & Hres).
  apply advance_fields in Hc as [_ Ht]. by exists evs.
Qed.

(** *** The two modes in their order *)

Definition OffsetModes (us : Z) (p : Pager) (c : Client World)
    (res : Outcome Pager * Client World) : Prop :=
  current_skip p <= us + len (all_results p) ->
  exists evs k,
    res.2 = advance c (world res.2) evs /\
    modes evs = repeat SkipLimit k /\
    switches evs = 0%nat /\
    forall p', res.1 = Return p' -> current_skip p' <= us + len (all_results p').

Lemma offset_loop_modes (fuel : nat) (us : Z) (ep : string) (p : Pager)
    (c : Client World) :
  OffsetModes us p c (offset_loop fuel us ep p c).
Proof.
  revert fuel p c. apply offset_loop_rule.
  - intros p c G Hinv. exists [], 0%nat. simpl. split_and!; try done.
    + apply advance_self.
    + by intros p' [= <-].
  - intros p c G Hinv. exists [], 0%nat. simpl. split_and!; try done.
    apply advance_self.
  - intros p c res G Hstep Hnc Hinv.
    inversion Hstep as [T Et Hb|o w' Hpos Hget Hf|r w' Hpos Hget Hb|r w' Hpos Hget Hne Hb
                        |r w' Hpos Hget Hne Hb Ht|r w' Hpos Hget Hne Hb Ht]; subst res;
      unfold offset_finish; cbn [fst snd].
    + exists [Logged INFO MsgEndByTotal], 0%nat. simpl. split_and!; try done.
      by intros p' [= <-].
    + eexists _, 1%nat. split_and!; [reflexivity|by destruct o..|done].
    + eexists _, 1%nat. split_and!; [reflexivity..|].
      by intros p' [= <-].
    + eexists _, 1%nat. split_and!; [reflexivity..|].
      intros p' [= <-]. simpl. rewrite len_app.
      pose proof (batch_len_pos r Hne). lia.
    + eexists _, 1%nat. split_and!; [reflexivity..|].
      intros p' [= <-]. simpl. rewrite len_app.
      pose proof (batch_len_pos r Hne). lia.
    + exfalso. by eapply Hnc.
  - intros p c p' c' res G Hstep IH Hinv.
    inversion Hstep as [| | | | |r w' Hpos Hget Hne Hb Ht]; subst.
    destruct IH as (evs2 & k & Hc & Hm & Hs & Hp).
    { simpl. rewrite len_app. lia. }
    eexists (_ ++ evs2)%list, (S k). split_and!.
    + eapply advance_twice; [reflexivity|exact Hc].
    + rewrite modes_app, Hm. reflexivity.
    + rewrite switches_app, Hs. reflexivity.
    + exact Hp.
Qed.

Definition CursorModes (c : Client World)
    (res : Outcome Pager * Client World) : Prop :=
  exists evs j,
    res.2 = advance c (world res.2) evs /\
    modes evs = repeat SearchAfter j /\
    switches evs = 0%nat.

Lemma cursor_loop_modes (fuel : nat) (ep : string) (params : Params)
    (p : Pager) (c : Client World) :
  CursorModes c (cursor_loop fuel ep params p c).
Proof.
  revert fuel params p c.
  apply (cursor_loop_rule ep (fun _ _ c res => CursorModes c res)).
  - intros pa p c G. exists [], 0%nat. simpl. split_and!; try done.
    apply advance_self.
  - intros pa p c G. exists [], 0%nat. simpl. split_and!; try done.
    apply advance_self.
  - intros pa p c res G Hstep.
    inversion Hstep as [o w' Hget Hf|r w' Hget Hb|r w' Hget Hne Et|r w' T Hget Hne Et Hl
                        |r w' T Hget Hne Et Hl Hc|r w' T Hget Hne Et Hl Hc Hs|];
      subst; unfold CursorModes; cbn [fst snd].
    + eexists _, 1%nat. split_and!; [reflexivity|by destruct o..].
    + eexists _, 1%nat. split_and!; reflexivity.
    + eexists _, 1%nat. split_and!; reflexivity.
    + eexists _, 1%nat. split_and!; reflexivity.
    + eexists _, 1%nat. split_and!; reflexivity.
    + eexists _, 1%nat. split_and!; reflexivity.
  - intros pa p c pa' p' c' res G Hstep (evs2 & j & Hc & Hm & Hs).
    inversion Hstep as [| | | | | |r w' T url Hget Hne Et Hl Hcn Hsn]; subst.
    eexists (_ ++ evs2)%list, (S j). split_and!.
    + eapply advance_twice; [reflexivity|exact Hc].
    + rewrite modes_app, Hm. reflexivity.
    + rewrite switches_app, Hs. reflexivity.
Qed.

Definition RunModes (c : Client World)
    (res : Outcome QueryResult * Client World) : Prop :=
  exists evs1 evs2 k j,
    res.2 = advance c (world res.2) (evs1 ++ evs2) /\
    modes evs1 = repeat SkipLimit k /\
    modes evs2 = repeat SearchAfter j /\
    (switches (evs1 ++ evs2) <= 1)%nat /\
    (j <> 0%nat ->
     switches (evs1 ++ evs2) = 1%nat /\
     field_truthy (sort (caller_query c)) = true /\
     25000 <= user_skip_of (caller_query c) + len (served evs1)).

Lemma api_search_body_modes (fuel : nat) (c : Client World) :
  RunModes c (api_search_body fuel c).
Proof.
  unfold api_search_body, bind.
  rewrite (offset_phase_unfold session_get fuel c). cbv zeta.
  set (q := caller_query c).
  set (pre := if unlimited_mode q then [Logged INFO MsgUnlimited] else []).
  assert (Hpre : modes pre = [] /\ served pre = [] /\ switches pre = 0%nat)
    by (subst pre; destruct (unlimited_mode q); split_and!; done).
  destruct Hpre as (Hpm & Hps & Hpw).
  destruct (offset_loop_modes fuel (user_skip_of q) (endpoint_of q) (initial_pager q)
              (extend c pre) ltac:(simpl; unfold len; simpl; lia))
    as (evs1 & k & Hc1 & Hm1 & Hs1 & Hp1).
  destruct (offset_loop_facts fuel (user_skip_of q) (endpoint_of q) (initial_pager q)
              (extend c pre)) as (evs1' & Hc1' & _ & _ & Hres1).
  assert (evs1' = evs1) as ->.
  { apply advance_fields in Hc1 as [_ Ht], Hc1' as [_ Ht'].
    rewrite Ht in Ht'. by apply app_inv_head in Ht'. }
  clear Hc1'.
  assert (Hm : modes (pre ++ evs1) = repeat SkipLimit k)
    by (by rewrite modes_app, Hpm, Hm1).
  assert (Hw : switches (pre ++ evs1) = 0%nat)
    by (by rewrite switches_app, Hpw, Hs1).
  assert (Hnone : RunModes c
            (match offset_loop fuel (user_skip_of q) (endpoint_of q) (initial_pager q)
                     (extend c pre) with
             | (Return p, c') => (Raise ExnTypeError, c')
             | (Raise e, c') => (Raise e, c')
             | (OutOfFuel, c') => (OutOfFuel, c')
             end)).
  { exists (pre ++ evs1)%list, [], k, 0%nat.
    apply advance_fields in Hc1 as [Hq1 Ht1]. simpl in Hq1, Ht1.
    rewrite app_nil_r, Hw.
    destruct (offset_loop fuel (user_skip_of q) (endpoint_of q) (initial_pager q)
                (extend c pre)) as [[p1|e|] c1]; cbn [fst snd] in *;
      (split_and!; [same_client|done|done|lia|done]). }
  destruct (offset_loop fuel (user_skip_of q) (endpoint_of q) (initial_pager q)
              (extend c pre)) as [[p1|e|] c1]; cbn [fst snd] in *;
    [|exact Hnone..].
  destruct Hnone as (e1 & e2 & k0 & j0 & Hcn & Hmn1 & Hmn2 & Hwn & Hjn).
  assert (Hplain : forall o, RunModes c (o, c1))
    by (intros o; exists e1, e2, k0, j0; done).
  clear Hcn Hmn1 Hmn2 Hwn Hjn.
  destruct Hres1 as [Hall1 _]. simpl in Hall1.
  specialize (Hp1 p1 eq_refl).
  apply advance_fields in Hc1 as [Hq1 Ht1]. simpl in Hq1, Ht1.
  unfold cursor_needed.
  destruct (count_pos (remaining p1) && (25000 <=? current_skip p1)) eqn:G;
    [|apply Hplain].
  destruct (total_available p1) as [T|] eqn:Et; [|apply Hplain].
  unfold ret at 1. destruct (len (all_results p1) <? T) eqn:Hlt; [|apply Hplain].
  apply andb_prop in G as [_ G].
  assert (Hreach : 25000 <= user_skip_of (caller_query c) + len (served (pre ++ evs1)))
    by (rewrite served_app, Hps; simpl; rewrite <- Hall1; fold q; lia).
  unfold cursor_phase, bind, log, emit, read_query, build_params, ret.
  cbn [caller_query].
  destruct (negb (field_truthy (sort (caller_query c1)))) eqn:Hsort.
  - unfold make_result, read_query, ret. cbn [fst snd world caller_query].
    exists (pre ++ evs1)%list, [Logged INFO MsgSwitching; Logged WARNING MsgNoSort],
      k, 0%nat.
    split_and!; [same_client|done|done| |done].
    rewrite switches_app, Hw. unfold switches. simpl. lia.
  - apply negb_false_iff in Hsort. rewrite Hq1 in Hsort.
    unfold bind, read_query. cbn beta iota.
    match goal with
    | |- context [cursor_loop fuel ?ep ?pa ?p ?cc] =>
        destruct (cursor_loop_modes fuel ep pa p cc) as (evs2 & j & Hc2 & Hm2 & Hs2);
        destruct (cursor_loop fuel ep pa p cc) as [[p2|e|] c2]
    end; cbn [fst snd] in *;
    apply advance_fields in Hc2 as [Hq2 Ht2]; simpl in Hq2, Ht2;
    unfold make_result, read_query, ret; cbn [fst snd world];
    exists (pre ++ evs1)%list, ([Logged INFO MsgSwitching] ++ evs2)%list, k, j;
    (split_and!;
     [same_client|done|by rewrite modes_app, Hm2
     |rewrite (switches_app (pre ++ evs1)), Hw,
        (switches_app [Logged INFO MsgSwitching]), Hs2; unfold switches; simpl; lia
     |intros _; split_and!; [|done|done];
      rewrite (switches_app (pre ++ evs1)), Hw,
        (switches_app [Logged INFO MsgSwitching]), Hs2; reflexivity]).
Qed.

Lemma api_search_run_modes (fuel : nat) (c : Client World) :
  RunModes c (api_search fuel c).
Proof.
  unfold api_search, try_except.
  destruct (api_search_body_modes fuel c)
    as (evs1 & evs2 & k & j & Hc & Hm1 & Hm2 & Hw & Hj).
  destruct (api_search_body fuel c) as [[qr|e|] c']; cbn [fst snd] in *;
    [by exists evs1, evs2, k, j| |by exists evs1, evs2, k, j].
  apply advance_fields in Hc as [Hq Ht].
  assert (Hlog : forall msg,
            (forall ep pa m, msg <> MsgQuerying ep pa m) -> msg <> MsgSwitching ->
            RunModes c (Raise e, {| world := world c'; caller_query := caller_query c';
                                    trace := (trace c' ++ [Logged ERROR msg])%list |})).
  { intros msg Hnq Hns. exists evs1, (evs2 ++ [Logged ERROR msg])%list, k, j.
    assert (Hmsg : modes [Logged ERROR msg] = [] /\ switches [Logged ERROR msg] = 0%nat).
    { destruct msg; try done. exfalso. by eapply Hnq. }
    destruct Hmsg as [Hmm Hms].
    assert (Hsw : switches (evs1 ++ evs2 ++ [Logged ERROR msg]) = switches (evs1 ++ evs2))
      by (rewrite app_assoc, switches_app, Hms; lia).
    cbn [fst snd]. rewrite Hsw.
    split_and!; [same_client|done| |done|done].
    by rewrite modes_app, Hmm, app_nil_r. }
  destruct e as [[msg|]| |]; unfold bind, log, emit, raise; cbn [fst snd].
  - by apply Hlog.
  - by apply Hlog.
  - by apply Hlog.
  - exists evs1, evs2, k, j. split_and!; [same_client|done..].
Qed.

(** X22: the requests of a run come in two blocks: first those in skip/limit
    mode, then those in search_after mode, with at most one switch between
    them. A request in search_after mode is made only for a query with a
    sort field, after one switch, once the records served in skip/limit
    mode have brought the offset to 25000 or more. *)
Theorem api_search_modes_in_order (fuel : nat) (c : Client World) :
  exists evs1 evs2 k j,
    trace (api_search fuel c).2 = (trace c ++ evs1 ++ evs2)%list /\
    modes evs1 = repeat SkipLimit k /\
    modes evs2 = repeat SearchAfter j /\
    (switches (evs1 ++ evs2) <= 1)%nat /\
    (j <> 0%nat ->
     switches (evs1 ++ evs2) = 1%nat /\
     field_truthy (sort (caller_query c)) = true /\
     25000 <= user_skip_of (caller_query c) + len (served evs1)).
Proof.
  destruct (api_search_run_modes fuel c)
    as (evs1 & evs2 & k & j & Hc & Hm1 & Hm2 & Hw & Hj).
  apply advance_fields in Hc as [_ Ht]. by exists evs1, evs2, k, j.
Qed.

(** *** The switch to search_after *)

Lemma build_params_without_skip (q : BaseQuery) (limit_ov : option Z) :
  skip q = None \/ skip q = Some 0 ->
  _build_params q limit_ov None = _build_params q limit_ov (Some 0).
Proof. intros [H|H]; unfold _build_params; rewrite H; reflexivity. Qed.

(** C3, where the code departs from it. An unlimited query from offset 0
    with a sort field, against a service that reports 30000 records, serves
    in full every batch requested from among them and answers by the
    request alone: the run asks for 25 pages in skip/limit mode, which
    brings [current_skip] to 25000, and logs the switch to search_after
    once. The first request in search_after mode is then built without a
    skip and without a cursor: it is, parameter for parameter, the first
    request of the run, and it is answered with the first page again. So
    whatever the run returns holds the records of the first page a second
    time from position 25000 on, not the records after the first 25000. *)
Theorem api_search_restarts_at_switch (fuel : nat) (c : Client World) :
  serves_in_full session_get 30000 ->
  answers_by_request session_get ->
  limit (caller_query c) = Some (-1) ->
  skip (caller_query c) = None \/ skip (caller_query c) = Some 0 ->
  field_truthy (sort (caller_query c)) = true ->
  (25 <= fuel)%nat ->
  exists r1 ep p c1 evs1 evs2,
    offset_phase fuel c = (Return (ep, p), c1) /\
    trace c1 = (trace c ++ evs1)%list /\
    modes evs1 = repeat SkipLimit 25 /\
    switches evs1 = 0%nat /\
    current_skip p = 25000 /\
    len (all_results p) = 25000 /\
    head (fetches evs1) =
      Some (_build_params (caller_query c) (Some 1000) (Some 0), Fetched r1) /\
    len (batch_of r1) = 1000 /\
    trace (api_search fuel c).2 = (trace c1 ++ Logged INFO MsgSwitching :: evs2)%list /\
    head (modes evs2) = Some SearchAfter /\
    head (fetches evs2) =
      Some (_build_params (caller_query c) (Some 1000) (Some 0), Fetched r1) /\
    forall qr, (api_search fuel c).1 = Return qr ->
      exists mid rest,
        records qr = (batch_of r1 ++ mid ++ batch_of r1 ++ rest)%list /\
        len (batch_of r1 ++ mid) = 25000.
Proof.
  intros Hfull Hsame HL Hskip Hsort Hfuel.
  set (q := caller_query c) in *.
  assert (Hus : user_skip_of q = 0).
  { unfold user_skip_of. by destruct Hskip as [-> | ->]. }
  assert (Hun : unlimited_mode q = true).
  { unfold unlimited_mode, user_limit_of. by rewrite HL. }
  assert (Hrem0 : remaining_of q = Inf).
  { unfold remaining_of. by rewrite Hun. }
  set (ep := endpoint_of q).
  set (first := _build_params q (Some 1000) (Some 0)).
  set (c0 := extend c [Logged INFO MsgUnlimited]).
  set (p0 := initial_pager q).
  destruct fuel as [|f]; [lia|].
  (* the first page *)
  destruct (served_full_page session_get 30000 1000 0 (world c0) ep q Hfull
              ltac:(lia) ltac:(lia) ltac:(lia))
    as (r1 & w1 & Hget1 & Ht1 & Hn1).
  fold first in Hget1.
  assert (Hcur0 : current_skip p0 = 0) by (simpl; exact Hus).
  assert (Hstep1 : offset_body 0 ep p0 c0 = offset_fetch ep 1000 p0 c0).
  { rewrite (offset_body_first session_get) by reflexivity.
    simpl remaining. by rewrite Hrem0. }
  rewrite (offset_fetch_served session_get ep 1000 1000 p0 c0 r1 w1) in Hstep1;
    [|rewrite Hcur0; exact Hget1|exact Hn1|lia|lia].
  simpl all_results in Hstep1. rewrite Ht1 in Hstep1.
  change (len ([] ++ batch_of r1)) with (len (batch_of r1)) in Hstep1.
  rewrite Hn1 in Hstep1. change (30000 <=? 1000) with false in Hstep1.
  cbv iota in Hstep1.
  set (p1 := {| all_results := ([] ++ batch_of r1)%list;
                current_skip := current_skip p0 + 1000;
                remaining := count_sub (remaining p0) 1000;
                total_available := Some 30000 |}) in Hstep1.
  set (asked1 := [_; _; _; _; _]) in Hstep1.
  (* the other 24 pages *)
  destruct (offset_loop_full_pages session_get 30000 ep q Hfull ltac:(lia) 24 f p1
              (advance c0 w1 asked1) ltac:(lia) eq_refl
              ltac:(simpl; by rewrite Hrem0) ltac:(simpl; rewrite Hus; reflexivity)
              ltac:(simpl; rewrite Hus; lia)
              ltac:(simpl; rewrite Hus; exact Hn1) (or_intror eq_refl))
    as (p & w2 & ev & Hloop & Hp1 & Hp2 & Hp3 & Hp4 & Hp5 & Hm & Hs).
  destruct Hp5 as [Htot | [Habs _]]; [|discriminate].
  rewrite advance_advance in Hloop.
  assert (Hphase : offset_phase (S f) c = (Return (ep, p), advance c0 w2 (asked1 ++ ev))).
  { rewrite (offset_phase_unfold session_get). fold q. rewrite Hun, Hus. fold c0. fold ep.
    fold p0.
    rewrite (offset_loop_S session_get), Hstep1
      by (simpl; rewrite Hrem0, Hus; reflexivity).
    by rewrite Hloop. }
  set (c1 := advance c0 w2 (asked1 ++ ev)) in *.
  set (c2 := extend c1 [Logged INFO MsgSwitching]).
  assert (Hall : all_results p = (batch_of r1 ++ served ev)%list) by (by rewrite Hp3).
  (* the first request after the switch *)
  assert (Hparams : _build_params q (Some 1000) None = first)
    by (by apply build_params_without_skip).
  assert (Hremp : count_pos (remaining p) = true) by (by rewrite Hp1).
  destruct (cursor_loop_step ep first p c2 Hremp) as (s & Hstep & Hl).
  assert (Hget2 : exists w3, session_get (world c2) ep first = (Fetched r1, w3)).
  { pose proof (Hsame (world c2) (world c0) ep first) as H. rewrite Hget1 in H.
    destruct (session_get (world c2) ep first) as [o w3]. simpl in H. subst o.
    by exists w3. }
  destruct Hget2 as [w3 Hget2].
  assert (Hne1 : batch_of r1 <> []).
  { intros H. rewrite H in Hn1. discriminate Hn1. }
  assert (Hrun : api_search (S f) c =
                 try_except (fun c' =>
                   let (o, c'') := cursor_after f ep s in
                   match o with
                   | Return a => make_result a c''
                   | Raise e => (Raise e, c'')
                   | OutOfFuel => (OutOfFuel, c'')
                   end) c).
  { unfold api_search, try_except, api_search_body, bind. rewrite Hphase.
    unfold cursor_needed. rewrite Hp1, Hp2, Htot, Hp4.
    change (count_pos Inf && (25000 <=? 25000)) with true. cbv iota.
    change (25000 <? 30000) with true. unfold ret at 1. cbv beta iota.
    unfold cursor_phase, bind, log, emit, read_query, build_params, ret.
    cbn [caller_query advance extend c1 c0].
    fold q. rewrite Hsort. cbn [negb]. cbv beta iota.
    unfold bind, read_query. cbv beta iota. cbn [caller_query].
    rewrite Hp1. change (count_min Inf 1000) with 1000. fold q. rewrite Hparams.
    match goal with
    | |- context [cursor_loop (S f) ep first p ?x] => change x with c2
    end.
    by rewrite Hl. }
  assert (Hlen26 : len (all_results p ++ batch_of r1) = 26000)
    by (rewrite len_app, Hp4, Hn1; reflexivity).
  assert (Hasked : head (modes (cursor_asked ep first p r1)) = Some SearchAfter /\
                   head (fetches (cursor_asked ep first p r1)) = Some (first, Fetched r1))
    by (by split).
  destruct Hasked as [Hmode2 Hfetch2].
  assert (Hcursor : exists evs2,
            trace (api_search (S f) c).2 =
              (trace c1 ++ Logged INFO MsgSwitching :: cursor_asked ep first p r1 ++ evs2)%list /\
            forall qr, (api_search (S f) c).1 = Return qr ->
              exists rest, records qr = (all_results p ++ batch_of r1 ++ rest)%list).
  { rewrite Hrun. unfold try_except.
    destruct Hstep as [o w' Hget Hf|r w' Hget Hb|r w' Hget Hne Et|r w' T Hget Hne Et Hlt
                       |r w' T Hget Hne Et Hlt Hc|r w' T Hget Hne Et Hlt Hc Hsr
                       |r w' T url Hget Hne Et Hlt Hc Hsr];
      rewrite Hget2 in Hget; injection Hget as <- <-; try discriminate;
      try congruence.
    - rewrite Htot in Et. injection Et as <-. lia.
    - cbn [cursor_after]. unfold make_result, read_query, ret, bind. cbn [fst snd].
      exists [Logged INFO MsgNoLink]. split.
      + subst c2. unfold advance, extend. simpl. by rewrite <- !app_assoc.
      + intros qr [= <-]. exists []. cbn [records cursor_got all_results].
        by rewrite app_nil_r.
    - cbn [cursor_after]. unfold make_result, read_query, ret, bind. cbn [fst snd].
      exists [Logged WARNING MsgBadLink]. split.
      + subst c2. unfold advance, extend. simpl. by rewrite <- !app_assoc.
      + intros qr [= <-]. exists []. cbn [records cursor_got all_results].
        by rewrite app_nil_r.
    - cbn [cursor_after].
      set (c3 := advance c2 w3 (cursor_asked ep first p r1)).
      destruct (cursor_loop_facts f ep (single_values (next_url_params url))
                  (cursor_got p r1) c3) as (evs' & Hc' & _ & _ & Hres').
      destruct (cursor_loop f ep (single_values (next_url_params url))
                  (cursor_got p r1) c3) as [[p''|e|] c4]; cbn [fst snd] in *;
        apply advance_fields in Hc' as [_ Ht'].
      + unfold make_result, read_query, ret, bind. cbn [fst snd].
        exists evs'. split.
        * rewrite Ht'. subst c3 c2. unfold advance, extend. simpl.
          by rewrite <- !app_assoc.
        * intros qr [= <-]. exists (served evs'). cbn [records].
          destruct Hres' as [-> _]. cbn [cursor_got all_results].
          by rewrite <- !app_assoc.
      + destruct e as [[msg|]| |]; unfold bind, log, emit, raise; cbn [fst snd];
          (eexists (evs' ++ _)%list || exists evs');
          (split; [|discriminate]);
          rewrite ?Ht'; subst c3 c2; unfold advance, extend; simpl;
          rewrite <- ?app_assoc; try reflexivity.
        by rewrite app_nil_r.
      + exists evs'. split; [|discriminate].
        rewrite Ht'. subst c3 c2. unfold advance, extend. simpl.
        by rewrite <- !app_assoc. }
  destruct Hcursor as (evs2 & Htr & Hrec).
  exists r1, ep, p, c1, ([Logged INFO MsgUnlimited] ++ asked1 ++ ev)%list,
    (cursor_asked ep first p r1 ++ evs2)%list.
  split_and!.
  - exact Hphase.
  - subst c1 c0. unfold advance, extend. simpl. by rewrite <- !app_assoc.
  - rewrite !modes_app, Hm. reflexivity.
  - rewrite !switches_app, Hs. reflexivity.
  - exact Hp2.
  - exact Hp4.
  - unfold fetches. simpl. rewrite Hus. reflexivity.
  - exact Hn1.
  - exact Htr.
  - exact Hmode2.
  - exact Hfetch2.
  - intros qr Hqr. destruct (Hrec qr Hqr) as [rest ->].
    exists (served ev), rest. split.
    + rewrite Hall. by rewrite <- !app_assoc.
    + rewrite <- Hall. exact Hp4.
Qed.

End EngineRuns.

(** The run-level properties at the mock service. *)

Lemma api_search_type_error_needs_skip_25000_witness :
  let q := {| ENDPOINT_PATH := "/drug/event.json"; search := Some "serious:1";
              sort := None; count := None; limit := Some 2000; skip := Some 24000 |} in
  user_skip_of (caller_query (Mock.client q)) < 25000 /\
  (api_search (Mock.service 30000) Mock.one_pair 3 (Mock.client q)).1
    <> Raise ExnTypeError.
Proof.
  intros q. split; [reflexivity|].
  apply (api_search_type_error_needs_skip_25000 (Mock.service 30000) Mock.one_pair 3
           (Mock.client q)).
  reflexivity.
Defined.

Lemma api_search_one_page_one_request_witness :
  let q := {| ENDPOINT_PATH := "/drug/ndc.json"; search := Some "brand_name:aspirin";
              sort := None; count := None; limit := Some 100; skip := Some 40 |} in
  exists evs o,
    trace (api_search (Mock.service 1500) Mock.one_pair 1 (Mock.client q)).2 =
      (trace (Mock.client q) ++ evs)%list /\
    fetches evs = [(_build_params q (Some 100) (Some 40), o)] /\
    (api_search (Mock.service 1500) Mock.one_pair 1 (Mock.client q)).1 <> OutOfFuel.
Proof.
  intros q.
  apply (api_search_one_page_one_request (Mock.service 1500) Mock.one_pair 1
           (Mock.client q)).
  - split; [reflexivity|]. intros H. discriminate H.
  - reflexivity.
  - apply le_n.
Defined.

(** C3 at the honest service with 30000 documents: the run switches once
    and returns 30000 records, which are the documents 0 to 24999 followed
    by the documents 0 to 4999; the documents 25000 to 29999 are not among
    them. *)
Lemma api_search_restarts_at_switch_witness :
  let q := {| ENDPOINT_PATH := "/drug/event.json"; search := Some "serious:1";
              sort := Some "receivedate:asc"; count := None;
              limit := Some (-1); skip := None |} in
  let c := Mock.client q in
  let run := api_search (Mock.honest 30000) Mock.one_pair 30 c in
  post_init q = true /\
  (exists r1 ep p c1 evs1 evs2,
     offset_phase (Mock.honest 30000) 30 c = (Return (ep, p), c1) /\
     trace c1 = (trace c ++ evs1)%list /\
     modes evs1 = repeat SkipLimit 25 /\
     switches evs1 = 0%nat /\
     current_skip p = 25000 /\
     len (all_results p) = 25000 /\
     head (fetches evs1) = Some (_build_params q (Some 1000) (Some 0), Fetched r1) /\
     len (batch_of r1) = 1000 /\
     trace run.2 = (trace c1 ++ Logged INFO MsgSwitching :: evs2)%list /\
     head (modes evs2) = Some SearchAfter /\
     head (fetches evs2) = Some (_build_params q (Some 1000) (Some 0), Fetched r1) /\
     forall qr, run.1 = Return qr ->
       exists mid rest,
         records qr = (batch_of r1 ++ mid ++ batch_of r1 ++ rest)%list /\
         len (batch_of r1 ++ mid) = 25000) /\
  match run.1 with
  | Return qr =>
      (total_results qr =? 30000) && (len (records qr) =? 30000)
      && numbered 0 (take (Z.to_nat 25000) (records qr))
      && numbered 0 (drop (Z.to_nat 25000) (records qr))
      && negb (existsb (fun r => match raw_record r with
                                 | JNum n => 25000 <=? n
                                 | _ => true
                                 end) (records qr))
      && (switches (trace run.2) =? 1)%nat
  | _ => false
  end = true.
Proof.
  intros q c run. split_and!.
  - reflexivity.
  - apply (api_search_restarts_at_switch (Mock.honest 30000) Mock.one_pair 30 c).
    + apply honest_serves_in_full.
    + apply honest_answers_by_request.
    + reflexivity.
    + left. reflexivity.
    + reflexivity.
    + lia.
  - vm_compute. reflexivity.
Defined.
